(** * ChatGPT-to-Markdown exporter: the HTML-to-Markdown conversion engine

    A shallow embedding of the conversion functions of the exporter script
    ([convertTableToMarkdown], [escapeMarkdown], [collapseWhitespace],
    [isBlank], [isInsideListItem], [processNode]) and the properties of its
    table, text, list and code renderers.

    Representation choices.
    - A JavaScript string is a [string]; each [ascii] stands for one UTF-16
      code unit below 256.  On that range the regular-expression class [\s]
      and [String.prototype.trim] agree on the code units 9-13, 32 and 160,
      [\d] is the ASCII digits, and the line terminators seen by [^] under
      the [m] flag are LF and CR.
    - A DOM node is a [node]: a text node, a comment node, or an element
      with its lower-case local name, its attribute list, the [checked]
      property and its child nodes.  Node identity is replaced by position:
      what the script reads from [parentElement], [nextSibling] and
      [parent.children] is carried in a [place].
    - [Number(start) + index] on the [start] attribute of an ordered list is
      string-to-number conversion, IEEE-754 addition and number-to-string
      conversion.  The walker takes it as a parameter ([numberPlus]);
      [numberPlusIndex] is the function itself, on Numbers kept as exact
      multiples of 2^-1074. *)

From Stdlib Require Import String Ascii List Bool Arith Lia.
From Stdlib Require Import ZArith NArith Nnat.
From Stdlib Require Import DecimalString DecimalNat.
From Stdlib Require DecimalPos.
Import ListNotations.

Set Warnings "-register-all".

Open Scope string_scope.
Open Scope nat_scope.

(** ** Characters and strings *)

Definition LF : ascii := "010"%char.
Definition CR : ascii := "013"%char.
Definition TAB : ascii := "009"%char.
Definition QUOTE : ascii := "034"%char.
Definition BACKTICK : ascii := "`"%char.

Definition nl : string := String LF "".

(** The code unit of a character. *)
Definition charCode (c : ascii) : nat := nat_of_ascii c.

(** The class [\s] (and the characters removed by [trim]). *)
Definition isWhiteSpace (c : ascii) : bool :=
  let n := charCode c in
  ((9 <=? n) && (n <=? 13)) || (n =? 32) || (n =? 160).

(** The class [\d]. *)
Definition isDigit (c : ascii) : bool :=
  let n := charCode c in (48 <=? n) && (n <=? 57).

(** Line terminators, after which [^] matches under the [m] flag. *)
Definition isLineTerminator (c : ascii) : bool :=
  Ascii.eqb c LF || Ascii.eqb c CR.

Definition isEmpty (s : string) : bool :=
  match s with EmptyString => true | String _ _ => false end.

Fixpoint allChars (p : ascii -> bool) (s : string) : bool :=
  match s with
  | EmptyString => true
  | String c r => p c && allChars p r
  end.

Fixpoint anyChar (p : ascii -> bool) (s : string) : bool :=
  match s with
  | EmptyString => false
  | String c r => p c || anyChar p r
  end.

Fixpoint dropWhile (p : ascii -> bool) (s : string) : string :=
  match s with
  | EmptyString => EmptyString
  | String c r => if p c then dropWhile p r else s
  end.

Fixpoint takeWhile (p : ascii -> bool) (s : string) : string :=
  match s with
  | EmptyString => EmptyString
  | String c r => if p c then String c (takeWhile p r) else EmptyString
  end.

(** Removes the longest suffix made of characters satisfying [p]. *)
Fixpoint dropWhileEnd (p : ascii -> bool) (s : string) : string :=
  match s with
  | EmptyString => EmptyString
  | String c r =>
      let r' := dropWhileEnd p r in
      if p c && isEmpty r' then EmptyString else String c r'
  end.

(** [s.trim()] *)
Definition trim (s : string) : string :=
  dropWhileEnd isWhiteSpace (dropWhile isWhiteSpace s).

Fixpoint startsWith (p s : string) : bool :=
  match p, s with
  | EmptyString, _ => true
  | String a p', String b s' => Ascii.eqb a b && startsWith p' s'
  | String _ _, EmptyString => false
  end.

Fixpoint lastChar (s : string) : option ascii :=
  match s with
  | EmptyString => None
  | String c EmptyString => Some c
  | String _ r => lastChar r
  end.

Definition firstChar (s : string) : option ascii :=
  match s with
  | EmptyString => None
  | String c _ => Some c
  end.

Definition charIs (c : ascii) (o : option ascii) : bool :=
  match o with Some d => Ascii.eqb c d | None => false end.

(** [s.replaceAll(c, r)] and [s.replace(/c/g, r)] for a single character. *)
Fixpoint replaceChar (c : ascii) (r : string) (s : string) : string :=
  match s with
  | EmptyString => EmptyString
  | String d s' =>
      if Ascii.eqb d c then r ++ replaceChar c r s'
      else String d (replaceChar c r s')
  end.

(** [l.join(sep)] *)
Definition join (sep : string) (l : list string) : string := String.concat sep l.

(** [s.split(c)] for a one-character separator: never the empty list. *)
Fixpoint split (c : ascii) (s : string) : list string :=
  match s with
  | EmptyString => [EmptyString]
  | String d r =>
      if Ascii.eqb d c then EmptyString :: split c r
      else match split c r with
           | h :: t => String d h :: t
           | [] => [String d EmptyString]
           end
  end.

(** [s.repeat(n)] *)
Fixpoint repeatString (s : string) (n : nat) : string :=
  match n with
  | 0 => EmptyString
  | S k => s ++ repeatString s k
  end.

(** Decimal rendering of a non-negative integer inside a template literal. *)
Definition natToString (n : nat) : string :=
  NilEmpty.string_of_uint (Nat.to_uint n).

Definition lowerChar (c : ascii) : ascii :=
  let n := charCode c in
  if (65 <=? n) && (n <=? 90) then ascii_of_nat (n + 32) else c.

Fixpoint toLowerCase (s : string) : string :=
  match s with
  | EmptyString => EmptyString
  | String c r => String (lowerChar c) (toLowerCase r)
  end.

(** ** The DOM tree *)

Definition attributes := list (string * string).

Inductive node : Type :=
| Text (data : string)
| Comment (data : string)
| Elem (tag : string) (attrs : attributes) (checked : bool)
       (childNodes : list node).

(** An element whose [checked] property is off. *)
Definition el (tag : string) (attrs : attributes) (kids : list node) : node :=
  Elem tag attrs false kids.

(** [node.getAttribute(name)] *)
Fixpoint getAttribute (name : string) (attrs : attributes) : option string :=
  match attrs with
  | [] => None
  | (k, v) :: rest => if String.eqb k name then Some v else getAttribute name rest
  end.

(** Concatenated data of the text-node descendants, in tree order. *)
Fixpoint descendantText (n : node) : string :=
  match n with
  | Text d => d
  | Comment _ => EmptyString
  | Elem _ _ _ kids => String.concat "" (map descendantText kids)
  end.

(** [node.textContent] *)
Definition textContent (n : node) : string :=
  match n with
  | Comment d => d
  | _ => descendantText n
  end.

(** All descendants in document order (the node itself excluded). *)
Fixpoint descendants (n : node) : list node :=
  match n with
  | Elem _ _ _ kids => flat_map (fun k => k :: descendants k) kids
  | _ => []
  end.

(** Selectors are predicates on nodes. *)
Definition hasTag (tags : list string) (n : node) : bool :=
  match n with
  | Elem t _ _ _ => existsb (String.eqb t) tags
  | _ => false
  end.

(** [input[type="checkbox"]]; on HTML elements the value of [type] is
    compared ASCII case-insensitively. *)
Definition isCheckbox (n : node) : bool :=
  match n with
  | Elem t a _ _ =>
      String.eqb t "input" &&
      match getAttribute "type" a with
      | Some v => String.eqb (toLowerCase v) "checkbox"
      | None => false
      end
  | _ => false
  end.

Definition querySelectorAll (sel : node -> bool) (n : node) : list node :=
  filter sel (descendants n).

Definition querySelector (sel : node -> bool) (n : node) : option node :=
  hd_error (querySelectorAll sel n).

Definition nodeChecked (n : node) : bool :=
  match n with
  | Elem _ _ c _ => c
  | _ => false
  end.

Definition isElement (n : node) : bool :=
  match n with
  | Elem _ _ _ _ => true
  | _ => false
  end.

Definition children (n : node) : list node :=
  match n with
  | Elem _ _ _ kids => kids
  | _ => []
  end.

(** ** The table renderer *)

Definition getCellText (cell : node) : string :=
  replaceChar "|" "\|" (trim (textContent cell)).

Definition getCellsFromRow (row : node) : list string :=
  map getCellText (querySelectorAll (hasTag ["td"; "th"]) row).

Definition formatTableRow (cells : list string) : string :=
  "| " ++ join " | " cells ++ " |".

(** [rows] is the array the source pushes to; each helper returns it
    extended. *)
Definition addHeaderRow (rows : list string) (cells : list string) : list string :=
  (rows ++ [formatTableRow cells; formatTableRow (map (fun _ => "---") cells)])%list.

Definition pushBodyRow (rows : list string) (row : node) : list string :=
  let cells := getCellsFromRow row in
  if 0 <? List.length cells then (rows ++ [formatTableRow cells])%list else rows.

(** The loop body of the branch without a body section; the state is the
    array and the [isFirstRow] flag. *)
Definition pushDirectRow (st : list string * bool) (row : node) : list string * bool :=
  let '(rows, isFirstRow) := st in
  let cells := getCellsFromRow row in
  if 0 <? List.length cells then
    if isFirstRow then (addHeaderRow rows cells, false)
    else ((rows ++ [formatTableRow cells])%list, isFirstRow)
  else st.

(** [l.length === 0] and the test for a non-null result. *)
Definition isEmptyList {A : Type} (l : list A) : bool :=
  match l with [] => true | _ :: _ => false end.

Definition isSome {A : Type} (o : option A) : bool :=
  match o with Some _ => true | None => false end.

(** The array [rows] when [convertTableToMarkdown] reaches its [return]. *)
Definition tableRows (tableNode : node) : list string :=
  let thead := querySelector (hasTag ["thead"]) tableNode in
  let tbody := querySelector (hasTag ["tbody"]) tableNode in
  let rows :=
    match thead with
    | Some th =>
        match querySelector (hasTag ["tr"]) th with
        | Some headerRow => addHeaderRow [] (getCellsFromRow headerRow)
        | None => []
        end
    | None => []
    end in
  match tbody with
  | Some tb => fold_left pushBodyRow (querySelectorAll (hasTag ["tr"]) tb) rows
  | None =>
      fst (fold_left pushDirectRow (querySelectorAll (hasTag ["tr"]) tableNode)
                     (rows, negb (isSome thead)))
  end.

Definition convertTableToMarkdown (tableNode : node) : string :=
  join nl (tableRows tableNode) ++ nl ++ nl.

(** A cell holding one text node and a row of such cells. *)
Definition cell (tag text : string) : node := el tag [] [Text text].
Definition tr (tag : string) (texts : list string) : node :=
  el "tr" [] (map (cell tag) texts).

(** The two-by-two table of the specification. *)
Definition table_AB : node :=
  el "table" []
     [ el "thead" [] [tr "th" ["A"; "B"]];
       el "tbody" [] [tr "td" ["1"; "2"]; tr "td" ["3"; "4"]] ].

(** ** The text normalizer *)

(** [s.replace(/[p]+/g, rep)]: every maximal run of characters of the
    class [p] becomes [rep]. *)
Fixpoint replaceRuns (p : ascii -> bool) (rep : string) (inRun : bool) (s : string) : string :=
  match s with
  | EmptyString => EmptyString
  | String c r =>
      if p c then
        if inRun then replaceRuns p rep true r
        else rep ++ replaceRuns p rep true r
      else String c (replaceRuns p rep false r)
  end.

(** [s.replace(/\n{3,}/g, '\n\n')]: a run of three or more line feeds
    keeps its first two; [seen] counts the line feeds just before [s]. *)
Fixpoint capNewlines (seen : nat) (s : string) : string :=
  match s with
  | EmptyString => EmptyString
  | String c r =>
      if Ascii.eqb c LF then
        if 2 <=? seen then capNewlines (S seen) r
        else String c (capNewlines (S seen) r)
      else String c (capNewlines 0 r)
  end.

(** The classes [[ \t]] and [[ \t\r\n]]. *)
Definition isSpaceOrTab (c : ascii) : bool :=
  Ascii.eqb c " " || Ascii.eqb c TAB.

Definition isCollapsible (c : ascii) : bool :=
  Ascii.eqb c " " || Ascii.eqb c TAB || Ascii.eqb c CR || Ascii.eqb c LF.

Definition collapseWhitespace (text : string) (preserveNewlines : bool) : string :=
  if preserveNewlines then
    capNewlines 0 (replaceRuns isSpaceOrTab " " false text)
  else replaceRuns isCollapsible " " false text.

(** [s.replace(/^pat/gm, '\\' + matched)] for a pattern [pat] that starts
    at a line start and matches inside the line: a backslash goes in front
    of every line start at which [pat] matches ([m] tells whether it does,
    on the text from that line start on). *)
Fixpoint escapeLineStart (m : string -> bool) (atStart : bool) (s : string) : string :=
  match s with
  | EmptyString => EmptyString
  | String c r =>
      let rest := String c (escapeLineStart m (isLineTerminator c) r) in
      if atStart && m s then String "\" rest else rest
  end.

(** [/^(#{1,6}) /]: one to six sharps, then a space. *)
Definition sharpsThenSpace (s : string) : bool :=
  let run := takeWhile (Ascii.eqb "#") s in
  (1 <=? String.length run) && (String.length run <=? 6) &&
  startsWith " " (dropWhile (Ascii.eqb "#") s).

(** [/^(\d+)\. /]: one or more digits, then a dot and a space. *)
Definition digitsDotSpace (s : string) : bool :=
  negb (isEmpty (takeWhile isDigit s)) && startsWith ". " (dropWhile isDigit s).

(** [s.replace(/^(\d+)\. /gm, '$1\\. ')]: the backslash goes in front of
    the dot that ends the digits of a matching line start; [inNumber] holds
    while the walk is inside those digits. *)
Fixpoint escapeListDot (atStart inNumber : bool) (s : string) : string :=
  match s with
  | EmptyString => EmptyString
  | String c r =>
      let inNumber' := if atStart then digitsDotSpace s else inNumber in
      if inNumber' && Ascii.eqb c "." then
        String "\" (String c (escapeListDot false false r))
      else String c (escapeListDot (isLineTerminator c) inNumber' r)
  end.

(** The twelve replacements of [escapeMarkdown], in source order. *)
Definition escBackslash (s : string) : string := replaceChar "\" "\\" s.
Definition escStar (s : string) : string := replaceChar "*" "\*" s.
Definition escDash (s : string) : string := escapeLineStart (startsWith "-") true s.
Definition escPlus (s : string) : string := escapeLineStart (startsWith "+ ") true s.
Definition escEquals (s : string) : string := escapeLineStart (startsWith "=") true s.
Definition escSharp (s : string) : string := escapeLineStart sharpsThenSpace true s.
Definition escBacktick (s : string) : string := replaceChar BACKTICK "\`" s.
Definition escOpenBracket (s : string) : string := replaceChar "[" "\[" s.
Definition escCloseBracket (s : string) : string := replaceChar "]" "\]" s.
Definition escQuoteMark (s : string) : string := escapeLineStart (startsWith ">") true s.
Definition escUnderscore (s : string) : string := replaceChar "_" "\_" s.
Definition escListDot (s : string) : string := escapeListDot true false s.

Definition escapeMarkdown (text : string) : string :=
  escListDot
    (escUnderscore
       (escQuoteMark
          (escCloseBracket
             (escOpenBracket
                (escBacktick
                   (escSharp
                      (escEquals
                         (escPlus
                            (escDash
                               (escStar
                                  (escBackslash text))))))))))).

(** ** The tree walker *)

(** [/^\s*$/.test(s)] *)
Definition isAllWhiteSpace (s : string) : bool := allChars isWhiteSpace s.

Definition isBlank (n : node) : bool :=
  isElement n &&
  negb (isSome (querySelector (hasTag ["img"; "hr"; "br"; "table"]) n)) &&
  isAllWhiteSpace (textContent n).

(** The flags of the second argument of [processNode]. *)
Record options : Type := { isCode : bool; noEscape : bool }.

(** Where a node sits: the chain of [parentElement]s (nearest first, each
    with its tag and attributes), the number of element siblings before it
    (its index in [parent.children]) and whether [nextSibling] exists. *)
Record place : Type := {
  ancestors : list (string * attributes);
  elementIndex : nat;
  hasNextSibling : bool
}.

(** The place of a node without parent and siblings. *)
Definition detached : place :=
  {| ancestors := []; elementIndex := 0; hasNextSibling := false |}.

Definition parentTagIs (t : string) (pl : place) : bool :=
  match ancestors pl with
  | (pt, _) :: _ => String.eqb pt t
  | [] => false
  end.

Definition isInsideListItem (pl : place) : bool :=
  existsb (fun a => String.eqb (fst a) "li") (ancestors pl).

(** [[...node.childNodes].map(child => f(child)).join('')], each child at
    its place under the parent chain [anc]. *)
Fixpoint mapChildren (f : place -> node -> option string)
         (anc : list (string * attributes)) (idx : nat) (kids : list node)
  : option string :=
  match kids with
  | [] => Some EmptyString
  | k :: rest =>
      match f {| ancestors := anc; elementIndex := idx;
                 hasNextSibling := negb (isEmptyList rest) |} k with
      | None => None
      | Some a =>
          match mapChildren f anc (if isElement k then S idx else idx) rest with
          | None => None
          | Some b => Some (a ++ b)
          end
      end
  end.

(** [root.querySelector(sel)?.remove()] on a copy: the tree without its
    first descendant (in document order) matching [sel]; [None] when no
    descendant matches. *)
Fixpoint removeFirst (sel : node -> bool) (n : node) : option node :=
  match n with
  | Elem t a c kids =>
      option_map (Elem t a c)
        ((fix go (l : list node) : option (list node) :=
            match l with
            | [] => None
            | k :: r =>
                if sel k then Some r
                else match removeFirst sel k with
                     | Some k' => Some (k' :: r)
                     | None => option_map (cons k) (go r)
                     end
            end) kids)
  | _ => None
  end.

Definition cloneWithout (sel : node -> bool) (n : node) : node :=
  match removeFirst sel n with
  | Some n' => n'
  | None => n
  end.

(** [/\n$/.test(s)] *)
Definition endsWithNewline (s : string) : bool := charIs LF (lastChar s).

(** [s.replace(/\r?\n|\r/g, ' ')] *)
Fixpoint newlinesToSpaces (s : string) : string :=
  match s with
  | EmptyString => EmptyString
  | String c r =>
      if Ascii.eqb c CR then
        match r with
        | String d r' =>
            if Ascii.eqb d LF then String " " (newlinesToSpaces r')
            else String " " (newlinesToSpaces r)
        | EmptyString => " "
        end
      else if Ascii.eqb c LF then String " " (newlinesToSpaces r)
      else String c (newlinesToSpaces r)
  end.

(** [className.match(/language-(\S+)/)?.[1]]: the non-space run after the
    leftmost [language-] that is followed by a non-space character. *)
Fixpoint matchLanguage (s : string) : option string :=
  match s with
  | EmptyString => None
  | String _ r =>
      if startsWith "language-" s then
        let token := takeWhile (fun c => negb (isWhiteSpace c))
                               (substring 9 (String.length s - 9) s) in
        if isEmpty token then matchLanguage r else Some token
      else matchLanguage r
  end.

(** The body of [case 'code'] for a code element outside [pre]. *)
Definition renderInlineCode (childContent : string) : string :=
  if isEmpty childContent then EmptyString
  else
    let inlineCode := newlinesToSpaces childContent in
    let hasBacktick := anyChar (Ascii.eqb BACKTICK) inlineCode in
    let delimiter := if hasBacktick then "``" else "`" in
    let extraSpace :=
      if charIs BACKTICK (firstChar inlineCode) || charIs " " (firstChar inlineCode)
         || charIs BACKTICK (lastChar inlineCode) || charIs " " (lastChar inlineCode)
      then " " else "" in
    delimiter ++ extraSpace ++ inlineCode ++ extraSpace ++ delimiter.

(** The body of [case 'pre']. *)
Definition renderPre (n : node) (childContent : string) : string :=
  let codeElement := querySelector (hasTag ["code"]) n in
  let className :=
    match codeElement with
    | Some (Elem _ a _ _) =>
        match getAttribute "class" a with Some v => v | None => EmptyString end
    | _ => EmptyString
    end in
  let language :=
    match matchLanguage className with Some l => l | None => EmptyString end in
  let code :=
    match codeElement with
    | Some ce => textContent ce
    | None => childContent
    end in
  "```" ++ language ++ nl ++ trim code ++ nl ++ "```" ++ nl ++ nl.

(** The body of [case 'ul'] and [case 'ol']. *)
Definition renderList (pl : place) (childContent : string) : string :=
  if isEmpty (trim childContent) then EmptyString
  else if isInsideListItem pl then
    let lines := split LF (trim childContent) in
    nl ++ join nl (map (fun line => "  " ++ line) lines) ++ nl
  else nl ++ childContent ++ nl.

(** [liContent.replace(/^\n+/, '').replace(/\n+$/, '\n')] *)
Definition trimItemNewlines (liContent : string) : string :=
  let s := dropWhile (Ascii.eqb LF) liContent in
  if endsWithNewline s then dropWhileEnd (Ascii.eqb LF) s ++ nl else s.

(** The continuation lines of a list item go two columns in. *)
Definition indentContinuation (content : string) : string :=
  match split LF content with
  | first :: ((_ :: _) as others) =>
      first ++ nl ++ join nl (map (fun line => "  " ++ line) others)
  | _ => content
  end.

Definition taskListPrefix (checkbox : option node) : string :=
  match checkbox with
  | Some cb => if nodeChecked cb then "[x] " else "[ ] "
  | None => EmptyString
  end.

(** The body of [case 'blockquote']. *)
Definition renderBlockquote (childContent : string) : string :=
  join nl (map (fun line => "> " ++ line) (split LF (trim childContent))) ++ nl ++ nl.

(** [title ? ` "${title.replaceAll('"', '\\"')}"` : ''] *)
Definition titleClause (title : option string) : string :=
  match title with
  | Some t =>
      if isEmpty t then EmptyString
      else " " ++ String QUOTE (replaceChar QUOTE (String "\" (String QUOTE "")) t)
               ++ String QUOTE ""
  | None => EmptyString
  end.

(** The body of [case 'a']. *)
Definition renderAnchor (a : attributes) (childContent : string) : string :=
  match getAttribute "href" a with
  | Some href =>
      if isEmpty href then childContent
      else "[" ++ childContent ++ "](" ++ href ++ titleClause (getAttribute "title" a) ++ ")"
  | None => childContent
  end.

(** The body of [case 'img']. *)
Definition renderImage (a : attributes) : string :=
  match getAttribute "src" a with
  | Some src =>
      if isEmpty src then EmptyString
      else
        let alt := match getAttribute "alt" a with Some v => v | None => EmptyString end in
        "![" ++ alt ++ "](" ++ src ++ titleClause (getAttribute "title" a) ++ ")"
  | None => EmptyString
  end.

(** [parseInt(tag[1])] on the six heading tags. *)
Definition headingLevel (tag : string) : option nat :=
  if String.eqb tag "h1" then Some 1
  else if String.eqb tag "h2" then Some 2
  else if String.eqb tag "h3" then Some 3
  else if String.eqb tag "h4" then Some 4
  else if String.eqb tag "h5" then Some 5
  else if String.eqb tag "h6" then Some 6
  else None.

(** [childContent.trim() ? open + childContent + close : ''] *)
Definition wrapInline (opening closing childContent : string) : string :=
  if isEmpty (trim childContent) then EmptyString
  else opening ++ childContent ++ closing.

(** [case] labels that share a body. *)
Definition tagIn (tag : string) (tags : list string) : bool :=
  existsb (String.eqb tag) tags.

(** Nesting depth of a tree: the recursion depth [processNode] needs. *)
Fixpoint depth (n : node) : nat :=
  match n with
  | Elem _ _ _ kids => S (list_max (map depth kids))
  | _ => 1
  end.

Section Walker.

(** [numberPlus start index] is the text of [Number(start) + index] in the
    marker of an ordered item. *)
Variable numberPlus : string -> nat -> string.

(** The marker of a list item ([prefix] in the source). *)
Definition itemPrefix (pl : place) : string :=
  match ancestors pl with
  | (ptag, pattrs) :: _ =>
      if String.eqb ptag "ol" then
        let index := elementIndex pl in
        match getAttribute "start" pattrs with
        | Some start =>
            if isEmpty start then natToString (index + 1) ++ ". "
            else numberPlus start index ++ ". "
        | None => natToString (index + 1) ++ ". "
        end
      else "- "
  | [] => "- "
  end.

(** The [return] of [case 'li'], from the rendered children of the copy. *)
Definition renderListItem (pl : place) (checkbox : option node) (liContent : string) : string :=
  let content := indentContinuation (trimItemNewlines liContent) in
  itemPrefix pl ++ taskListPrefix checkbox ++ content
    ++ (if hasNextSibling pl && negb (endsWithNewline content) then nl else "").

(** The [switch (tag)] of [processNode], reached with the rendered children
    in [childContent]; [walk] is the recursive call of [case 'li'] on the
    child nodes of the copy. *)
Definition switchTag (walk : list node -> option string) (pl : place)
           (n : node) (tag : string) (attrs : attributes) (childContent : string)
  : option string :=
  match headingLevel tag with
  | Some level =>
      Some (repeatString "#" level ++ " " ++ trim childContent ++ nl ++ nl)
  | None =>
  if String.eqb tag "p" then
    if isInsideListItem pl then Some (trim childContent)
    else Some (trim childContent ++ nl ++ nl)
  else if tagIn tag ["strong"; "b"] then
    Some (wrapInline "**" "**" childContent)
  else if tagIn tag ["em"; "i"] then
    Some (wrapInline "*" "*" childContent)
  else if tagIn tag ["s"; "del"; "strike"] then
    Some (wrapInline "~~" "~~" childContent)
  else if String.eqb tag "sup" then
    Some (wrapInline "<sup>" "</sup>" childContent)
  else if String.eqb tag "sub" then
    Some (wrapInline "<sub>" "</sub>" childContent)
  else if String.eqb tag "code" then
    if parentTagIs "pre" pl then Some childContent
    else Some (renderInlineCode childContent)
  else if String.eqb tag "pre" then
    Some (renderPre n childContent)
  else if tagIn tag ["ul"; "ol"] then
    Some (renderList pl childContent)
  else if String.eqb tag "li" then
    let checkbox := querySelector isCheckbox n in
    let liClone := cloneWithout isCheckbox n in
    match walk (children liClone) with
    | None => None
    | Some liContent => Some (renderListItem pl checkbox liContent)
    end
  else if String.eqb tag "blockquote" then
    Some (renderBlockquote childContent)
  else if String.eqb tag "hr" then
    Some ("---" ++ nl ++ nl)
  else if String.eqb tag "a" then
    Some (renderAnchor attrs childContent)
  else if String.eqb tag "img" then
    Some (renderImage attrs)
  else if String.eqb tag "br" then
    Some nl
  else if String.eqb tag "table" then
    Some (convertTableToMarkdown n)
  else Some childContent
  end.

(** The flags the children of an element are walked with. *)
Definition childOptions (tag : string) (opts : options) : options :=
  let isCodeContext :=
    isCode opts || String.eqb tag "code" || String.eqb tag "pre" in
  {| isCode := isCodeContext && negb (String.eqb tag "pre");
     noEscape := noEscape opts |}.

(** [processNode]; [fuel] bounds the depth of the recursion, and [None] is
    returned only when it runs out. *)
Fixpoint processNode (fuel : nat) (opts : options) (pl : place) (n : node)
  : option string :=
  match fuel with
  | 0 => None
  | S fuel' =>
      if isBlank n then Some EmptyString
      else
        match n with
        | Text data =>
            let text := if isCode opts then data else collapseWhitespace data false in
            Some (if isCode opts || noEscape opts then text else escapeMarkdown text)
        | Comment _ => Some EmptyString
        | Elem tag attrs _ kids =>
            match mapChildren (processNode fuel' (childOptions tag opts))
                              ((tag, attrs) :: ancestors pl) 0 kids with
            | None => None
            | Some childContent =>
                switchTag (mapChildren (processNode fuel' opts) [(tag, attrs)] 0)
                          pl n tag attrs childContent
            end
        end
  end.

(** [processNode] with the fuel its argument needs. *)
Definition render (opts : options) (pl : place) (n : node) : option string :=
  processNode (depth n) opts pl n.

End Walker.

(** Flags, places and nodes of the examples. *)
Definition plain : options := {| isCode := false; noEscape := false |}.
Definition inList (tag : string) (attrs : attributes) (idx : nat) (next : bool) : place :=
  {| ancestors := [(tag, attrs)]; elementIndex := idx; hasNextSibling := next |}.
Definition checkboxInput (on : bool) : node :=
  Elem "input" [("type", "checkbox")] on [].

(** ** The exporter around the walker *)

(** [root.querySelectorAll(sel).forEach(el => el.remove())] on a copy:
    every descendant matching [sel] goes, with its subtree; the root
    stays, whatever it is. *)
Fixpoint removeAll (sel : node -> bool) (n : node) : node :=
  match n with
  | Elem t a c kids =>
      Elem t a c
        ((fix go (l : list node) : list node :=
            match l with
            | [] => []
            | k :: r => if sel k then go r else removeAll sel k :: go r
            end) kids)
  | _ => n
  end.

(** [script, style, svg, button] *)
Definition unwanted : node -> bool := hasTag ["script"; "style"; "svg"; "button"].

(** [s.replace(/\n[ \t]+/g, '\n')]; [afterNewline] holds from a line feed
    to the end of the spaces and tabs behind it. *)
Fixpoint dropSpacesAfterNewline (afterNewline : bool) (s : string) : string :=
  match s with
  | EmptyString => EmptyString
  | String c r =>
      if afterNewline && isSpaceOrTab c then dropSpacesAfterNewline true r
      else String c (dropSpacesAfterNewline (Ascii.eqb c LF) r)
  end.

(** [s.replace(/[ \t]+\n/g, '\n')]: a space or tab goes when the run it
    is in ends at a line feed. *)
Fixpoint dropSpacesBeforeNewline (s : string) : string :=
  match s with
  | EmptyString => EmptyString
  | String c r =>
      if isSpaceOrTab c && startsWith nl (dropWhile isSpaceOrTab r)
      then dropSpacesBeforeNewline r
      else String c (dropSpacesBeforeNewline r)
  end.

(** The four replacements and the trim of [extractTextContent]. *)
Definition tidyText (text : string) : string :=
  trim (capNewlines 0
          (dropSpacesBeforeNewline
             (dropSpacesAfterNewline false
                (replaceRuns isSpaceOrTab " " false text)))).

(** [extractTextContent(element)]; [None] is a null element. *)
Definition extractTextContent (element : option node) : string :=
  match element with
  | None => EmptyString
  | Some e => tidyText (textContent (removeAll unwanted e))
  end.

Definition cleanupMarkdown (markdown : string) : string :=
  trim (capNewlines 0 markdown).

(** [s.substring(n)] *)
Fixpoint dropChars (n : nat) (s : string) : string :=
  match n, s with
  | S k, String _ r => dropChars k r
  | _, _ => s
  end.

(** [s.replace(pat, rep)] for a string pattern: the first occurrence. *)
Fixpoint replaceFirst (pat rep s : string) : string :=
  match s with
  | EmptyString => if isEmpty pat then rep else EmptyString
  | String c r =>
      if startsWith pat s then rep ++ dropChars (String.length pat) s
      else String c (replaceFirst pat rep r)
  end.

Fixpoint mapChars (f : ascii -> ascii) (s : string) : string :=
  match s with
  | EmptyString => EmptyString
  | String c r => String (f c) (mapChars f r)
  end.

(** The class [[a-z0-9]] under the [i] flag. *)
Definition isAlnum (c : ascii) : bool :=
  let n := charCode c in
  ((48 <=? n) && (n <=? 57)) || ((65 <=? n) && (n <=? 90))
  || ((97 <=? n) && (n <=? 122)).

(** [title.replace(/[^a-z0-9]/gi, '_').replace(/_+/g, '_').substring(0, 50)] *)
Definition safeTitle (conversationTitle : string) : string :=
  substring 0 50
    (replaceRuns (Ascii.eqb "_") "_" false
       (mapChars (fun c => if isAlnum c then c else "_"%char) conversationTitle)).

(** [`chatgpt_${safeTitle}_${Date.now()}.md`] *)
Definition fileName (conversationTitle : string) (now : nat) : string :=
  "chatgpt_" ++ safeTitle conversationTitle ++ "_" ++ natToString now ++ ".md".

(** The white space that separates the tokens of a class attribute. *)
Definition isAsciiSpace (c : ascii) : bool :=
  let n := charCode c in
  (n =? 9) || (n =? 10) || (n =? 12) || (n =? 13) || (n =? 32).

(** The tokens of a class attribute; [cur] is the token being read. *)
Fixpoint classTokens (cur : string) (s : string) : list string :=
  match s with
  | EmptyString => if isEmpty cur then [] else [cur]
  | String c r =>
      if isAsciiSpace c then
        if isEmpty cur then classTokens EmptyString r
        else cur :: classTokens EmptyString r
      else classTokens (cur ++ String c EmptyString) r
  end.

(** The selectors [.name] and [[name]]. *)
Definition hasClass (name : string) (n : node) : bool :=
  match n with
  | Elem _ a _ _ =>
      match getAttribute "class" a with
      | Some v => existsb (String.eqb name) (classTokens EmptyString v)
      | None => false
      end
  | _ => false
  end.

Definition hasAttribute (name : string) (n : node) : bool :=
  match n with
  | Elem _ a _ _ => isSome (getAttribute name a)
  | _ => false
  end.

(** [article[data-testid^="conversation-turn"]] *)
Definition isTurn (n : node) : bool :=
  match n with
  | Elem t a _ _ =>
      String.eqb t "article" &&
      match getAttribute "data-testid" a with
      | Some v => startsWith "conversation-turn" v
      | None => false
      end
  | _ => false
  end.

(** [.whitespace-pre-wrap, [data-multiline]] *)
Definition isUserContent (n : node) : bool :=
  hasClass "whitespace-pre-wrap" n || hasAttribute "data-multiline" n.

(** The title of the conversation, from the document. *)
Definition conversationTitleOf (document : node) : string :=
  match querySelector (hasTag ["title"]) document with
  | Some titleElement => replaceFirst " | ChatGPT" "" (textContent titleElement)
  | None => "ChatGPT Conversation"
  end.

Section Exporter.

Variable numberPlus : string -> nat -> string.

(** The string [processNode] returns ([render] never gives [None]). *)
Definition renderString (opts : options) (pl : place) (n : node) : string :=
  match render numberPlus opts pl n with
  | Some s => s
  | None => EmptyString
  end.

(** [htmlToMarkdown(element, options)]; the copy it walks has no parent. *)
Definition htmlToMarkdown (element : option node) (opts : options) : string :=
  match element with
  | None => EmptyString
  | Some e => trim (renderString opts detached (removeAll unwanted e))
  end.

Definition extractMarkdownContent (element : node) : string :=
  match querySelector (hasClass "markdown") element with
  | Some markdownDiv =>
      htmlToMarkdown (Some markdownDiv) {| isCode := false; noEscape := true |}
  | None => htmlToMarkdown (Some element) {| isCode := false; noEscape := true |}
  end.

(** What one turn appends to the document: nothing when it has no message
    or the message has no content. *)
Definition turnSection (turn : node) : string :=
  match querySelector (hasAttribute "data-message-author-role") turn with
  | None => EmptyString
  | Some messageDiv =>
      let actualRole :=
        match messageDiv with
        | Elem _ a _ _ =>
            match getAttribute "data-message-author-role" a with
            | Some v => v
            | None => EmptyString
            end
        | _ => EmptyString
        end in
      let content :=
        if String.eqb actualRole "user" then
          match querySelector isUserContent messageDiv with
          | Some userContent => extractTextContent (Some userContent)
          | None => extractTextContent (Some messageDiv)
          end
        else if String.eqb actualRole "assistant" then
          extractMarkdownContent messageDiv
        else extractTextContent (Some messageDiv) in
      if isEmpty content then EmptyString
      else
        (if String.eqb actualRole "user" then "## User" ++ nl ++ content
         else if String.eqb actualRole "assistant" then "## Assistant" ++ nl ++ content
         else "## " ++ actualRole ++ nl ++ content)
        ++ nl ++ "---" ++ nl ++ nl
  end.

(** The text built before the final cleanup; [exportedOn] is
    [new Date().toLocaleString()]. *)
Definition assembleMarkdown (conversationTitle exportedOn : string)
           (turns : list node) : string :=
  fold_left (fun markdown turn => markdown ++ turnSection turn) turns
    ("# " ++ conversationTitle ++ nl ++ nl
     ++ "*Exported on " ++ exportedOn ++ "*" ++ nl ++ nl
     ++ "---" ++ nl ++ nl).

(** [exportChatToMarkdown()]: the text it returns and the name of the
    file it downloads, or [None] when it returns early; [document] is the
    document node, [exportedOn] and [now] are what the two readings of the
    clock give. *)
Definition exportChatToMarkdown (document : node) (exportedOn : string) (now : nat)
  : option (string * string) :=
  let conversationTitle := conversationTitleOf document in
  let turns := querySelectorAll isTurn document in
  if isEmptyList turns then None
  else Some (cleanupMarkdown (assembleMarkdown conversationTitle exportedOn turns),
             fileName conversationTitle now).

End Exporter.

(** ** Numbers *)

(** A Number value.  Every finite double is a whole multiple of 2^-1074,
    and a finite value is kept as that multiple ([units]); negative zero is
    kept apart. *)
Inductive number : Type :=
| NaN
| Infinite (negative : bool)
| NegativeZero
| Finite (units : Z).

(** The number of units in 1. *)
Definition unitsInOne : Z := (2 ^ 1074)%Z.

(** The integer nearest to [p / q], the even one of two that are equally
    near. *)
Definition roundHalfEven (p q : Z) : Z :=
  let (f, r) := Z.div_eucl p q in
  match (2 * r ?= q)%Z with
  | Lt => f
  | Gt => (f + 1)%Z
  | Eq => if Z.even f then f else (f + 1)%Z
  end.

(** The double nearest to [p / q] units ([0 <= p], [0 < q]), ties to the
    even significand: a value keeps 53 significant bits, and whole units
    when it is below [2^53] of them.  [None] is a value that rounds beyond
    the largest double. *)
Definition nearestDouble (p q : Z) : option Z :=
  let shift := Z.max 0 (Z.log2 (p / q) + 1 - 53) in
  let u := (roundHalfEven p (q * 2 ^ shift) * 2 ^ shift)%Z in
  if (u <? 2 ^ 2098)%Z then Some u else None.

(** The Number for the real [p / q] units with the sign [negative]. *)
Definition toDouble (negative : bool) (p q : Z) : number :=
  match nearestDouble p q with
  | Some u =>
      if negative then (if (u =? 0)%Z then NegativeZero else Finite (- u))
      else Finite u
  | None => Infinite negative
  end.

(** The value of a digit in radix 16. *)
Definition digitValue (c : ascii) : option Z :=
  let n := charCode c in
  if (48 <=? n) && (n <=? 57) then Some (Z.of_nat (n - 48))
  else if (97 <=? n) && (n <=? 102) then Some (Z.of_nat (n - 87))
  else if (65 <=? n) && (n <=? 70) then Some (Z.of_nat (n - 55))
  else None.

(** The value of a string of digits in [radix], most significant first;
    [None] when a character is not a digit of the radix. *)
Fixpoint digitsValue (radix acc : Z) (s : string) : option Z :=
  match s with
  | EmptyString => Some acc
  | String c r =>
      match digitValue c with
      | Some d => if (d <? radix)%Z then digitsValue radix (radix * acc + d)%Z r else None
      | None => None
      end
  end.

(** [DecimalDigits], [HexDigits] and the like: one digit at least. *)
Definition numeral (radix : Z) (s : string) : option Z :=
  if isEmpty s then None else digitsValue radix 0 s.

(** [ExponentPart], if any: [e] or [E], an optional sign, digits. *)
Definition exponentPart (s : string) : option Z :=
  match s with
  | EmptyString => Some 0%Z
  | String c r =>
      if Ascii.eqb c "e" || Ascii.eqb c "E" then
        match r with
        | String "+" d => numeral 10 d
        | String "-" d => option_map Z.opp (numeral 10 d)
        | _ => numeral 10 r
        end
      else None
  end.

(** [StrUnsignedDecimalLiteral] with the sign read before it: [Infinity],
    or digits with an optional fraction and exponent, one digit at least
    before the exponent.  The value is rounded once, from the exact
    decimal. *)
Definition decimalLiteral (negative : bool) (s : string) : number :=
  if String.eqb s "Infinity" then Infinite negative
  else
    let whole := takeWhile isDigit s in
    let rest := dropWhile isDigit s in
    let dot := startsWith "." rest in
    let afterDot := if dot then dropChars 1 rest else rest in
    let fraction := if dot then takeWhile isDigit afterDot else EmptyString in
    let tail := if dot then dropWhile isDigit afterDot else rest in
    if isEmpty whole && isEmpty fraction then NaN
    else
      match digitsValue 10 0 (whole ++ fraction), exponentPart tail with
      | Some m, Some e =>
          let e' := (e - Z.of_nat (String.length fraction))%Z in
          if (0 <=? e')%Z then toDouble negative (m * 10 ^ e' * unitsInOne) 1
          else toDouble negative (m * unitsInOne) (10 ^ (- e'))
      | _, _ => NaN
      end.

(** [NonDecimalIntegerLiteral]: [0x], [0o] or [0b] in either case and the
    digits of the radix. *)
Definition nonDecimalRadix (s : string) : option Z :=
  match s with
  | String "0" (String c _) =>
      if Ascii.eqb c "x" || Ascii.eqb c "X" then Some 16%Z
      else if Ascii.eqb c "o" || Ascii.eqb c "O" then Some 8%Z
      else if Ascii.eqb c "b" || Ascii.eqb c "B" then Some 2%Z
      else None
  | _ => None
  end.

(** [Number(s)] for a string: white space around the literal is dropped,
    the empty literal is zero, and what is no literal is [NaN]. *)
Definition toNumber (s : string) : number :=
  let literal := trim s in
  match literal with
  | EmptyString => Finite 0
  | String "+" r => decimalLiteral false r
  | String "-" r => decimalLiteral true r
  | _ =>
      match nonDecimalRadix literal with
      | Some radix =>
          match numeral radix (dropChars 2 literal) with
          | Some m => toDouble false (m * unitsInOne) 1
          | None => NaN
          end
      | None => decimalLiteral false literal
      end
  end.

(** The Number of an index into an array. *)
Definition indexNumber (index : nat) : number :=
  toDouble false (Z.of_nat index * unitsInOne) 1.

(** [x + y] on Numbers. *)
Definition addNumbers (x y : number) : number :=
  match x, y with
  | NaN, _ | _, NaN => NaN
  | Infinite a, Infinite b => if Bool.eqb a b then Infinite a else NaN
  | Infinite a, _ => Infinite a
  | _, Infinite b => Infinite b
  | NegativeZero, NegativeZero => NegativeZero
  | NegativeZero, Finite v => Finite v
  | Finite u, NegativeZero => Finite u
  | Finite u, Finite v =>
      let z := (u + v)%Z in
      if (z =? 0)%Z then Finite 0 else toDouble (z <? 0)%Z (Z.abs z) 1
  end.

(** [10^e] as a fraction. *)
Definition pow10 (e : Z) : Z * Z :=
  if (0 <=? e)%Z then ((10 ^ e)%Z, 1%Z) else (1%Z, (10 ^ (- e))%Z).

(** [u] units are less than [10^n]. *)
Definition below10 (u n : Z) : bool :=
  let (p, q) := pow10 n in (u * q <? p * unitsInOne)%Z.

(** The [n] with [10^(n-1) <= value < 10^n]: counted up from [n] for a
    value that is at least [10^(n-1)], down from [n] for one below [10^n].
    A positive double lies between [10^-324] and [10^309]. *)
Fixpoint exponentUp (fuel : nat) (n u : Z) : Z :=
  match fuel with
  | O => n
  | S f => if below10 u n then n else exponentUp f (n + 1)%Z u
  end.

Fixpoint exponentDown (fuel : nat) (n u : Z) : Z :=
  match fuel with
  | O => n
  | S f => if below10 u (n - 1) then exponentDown f (n - 1)%Z u else n
  end.

Definition decimalExponent (u : Z) : Z :=
  if (unitsInOne <=? u)%Z then exponentUp 309 1 u else exponentDown 324 0 u.

(** [s * 10^e] is a decimal that reads back as the double of [u] units. *)
Definition readsBack (u s e : Z) : bool :=
  let (p, q) := pow10 e in
  match nearestDouble (s * p * unitsInOne) q with
  | Some v => (v =? u)%Z
  | None => false
  end.

(** The [k]-digit integer [s] with [s * 10^(n-k)] reading back as [u], the
    nearest to the value when both neighbours do, the even one when they
    are equally near. *)
Definition digitsAt (u n k : Z) : option Z :=
  let e := (n - k)%Z in
  let (p, q) := pow10 e in
  let low := (u * q / (p * unitsInOne))%Z in
  let high := (low + 1)%Z in
  if readsBack u low e && readsBack u high e then
    match (u * q - low * p * unitsInOne ?= high * p * unitsInOne - u * q)%Z with
    | Lt => Some low
    | Gt => Some high
    | Eq => Some (if Z.even low then low else high)
    end
  else if readsBack u low e then Some low
  else if readsBack u high e then Some high
  else None.

(** The least number of digits [k], from [k] on, with its digits. *)
Fixpoint shortestDigits (fuel : nat) (k u n : Z) : option (Z * Z) :=
  match fuel with
  | O => None
  | S f =>
      match digitsAt u n k with
      | Some s => Some (s, k)
      | None => shortestDigits f (k + 1)%Z u n
      end
  end.

(** The decimal digits of a non-negative integer. *)
Definition digitsOf (z : Z) : string :=
  NilEmpty.string_of_uint (N.to_uint (Z.to_N z)).

(** The text of a positive Number from its [k] digits and the position
    [n] of the decimal point. *)
Definition formatNumber (digits : string) (k n : Z) : string :=
  if ((k <=? n) && (n <=? 21))%Z then
    digits ++ repeatString "0" (Z.to_nat (n - k))
  else if ((0 <? n) && (n <=? 21))%Z then
    substring 0 (Z.to_nat n) digits ++ "." ++ dropChars (Z.to_nat n) digits
  else if ((-6 <? n) && (n <=? 0))%Z then
    "0." ++ repeatString "0" (Z.to_nat (- n)) ++ digits
  else
    let e := (n - 1)%Z in
    (if (k =? 1)%Z then digits
     else substring 0 1 digits ++ "." ++ dropChars 1 digits)
    ++ "e" ++ (if (e <? 0)%Z then "-" else "+") ++ digitsOf (Z.abs e).

(** [Number::toString] for a positive finite Number of [u] units.  The
    search always ends with digits: seventeen of them tell any two doubles
    apart. *)
Definition positiveToString (u : Z) : string :=
  let n := decimalExponent u in
  match shortestDigits 17 1 u n with
  | Some (s, k) =>
      if (s =? 10 ^ k)%Z then formatNumber "1" 1 (n + 1)
      else formatNumber (digitsOf s) k n
  | None => EmptyString
  end.

(** The text of a Number in a template literal. *)
Definition numberToString (x : number) : string :=
  match x with
  | NaN => "NaN"
  | Infinite negative => if negative then "-Infinity" else "Infinity"
  | NegativeZero => "0"
  | Finite u =>
      if (u =? 0)%Z then "0"
      else if (u <? 0)%Z then "-" ++ positiveToString (- u)
      else positiveToString u
  end.

(** [`${Number(start) + index}`] *)
Definition numberPlusIndex (start : string) (index : nat) : string :=
  numberToString (addNumbers (toNumber start) (indexNumber index)).

(** ** Vocabulary of the statements *)

(** What [getCellText] makes of a cell whose text is [text]. *)
Definition cellText (text : string) : string := replaceChar "|" "\|" (trim text).

(** A table with a head section of one row and a body section. *)
Definition headBodyTable (header : list string) (body : list (list string)) : node :=
  el "table" []
     [ el "thead" [] [tr "th" header];
       el "tbody" [] (map (tr "td") body) ].

(** A cell with emphasis, a pipe, code and a link inside. *)
Definition markupCell : node :=
  el "td" [] [ el "em" [] [Text " a"]; Text "|";
               el "code" [] [Text "b*"];
               el "a" [("href", "u")] [Text "_c_ "] ].

(** The cell texts of the rows that have cells. *)
Definition nonEmptyRows (rows : list node) : list (list string) :=
  filter (fun cells => negb (isEmptyList cells)) (map getCellsFromRow rows).

(** The two lines [addHeaderRow] pushes. *)
Definition headerPair (cells : list string) : list string :=
  [formatTableRow cells; formatTableRow (map (fun _ => "---") cells)].

(** The lines pushed for a head section. *)
Definition headRows (thead : node) : list string :=
  match querySelector (hasTag ["tr"]) thead with
  | Some headerRow => headerPair (getCellsFromRow headerRow)
  | None => []
  end.

(** What [removeFirst] takes out is the node [querySelector] finds, and
    the text of the copy is the text of the original without the text of
    that node. *)
Definition removal_spec (sel : node -> bool) (n : node) : Prop :=
  match removeFirst sel n with
  | Some n' =>
      exists found before after,
        querySelector sel n = Some found /\
        descendantText n = before ++ descendantText found ++ after /\
        descendantText n' = before ++ after
  | None => querySelectorAll sel n = []
  end.

(** The class [\S]. *)
Definition notSpace (c : ascii) : bool := negb (isWhiteSpace c).

(** The class attribute of a code element, empty when it has none. *)
Definition classOf (n : node) : string :=
  match n with
  | Elem _ a _ _ =>
      match getAttribute "class" a with Some v => v | None => "" end
  | _ => ""
  end.

(** The language of the fence, from the class of the code element. *)
Definition fenceLanguage (codeElement : node) : string :=
  match matchLanguage (classOf codeElement) with
  | Some token => token
  | None => ""
  end.

(** The list items and the block of the examples. *)
Definition doneItem (box : node) : node := el "li" [] [box; Text "done"].

Definition textItem (text : string) : node := el "li" [] [Text text].

Definition pythonBlock : node :=
  el "pre" [] [el "code" [("class", "language-python")] [Text "print(1)"]].

(** Reading an escaped text back: a backslash is dropped and the character
    after it is kept as it is. *)
Fixpoint unescape (s : string) : string :=
  match s with
  | EmptyString => EmptyString
  | String c r =>
      if Ascii.eqb c "\" then
        match r with
        | String d r' => String d (unescape r')
        | EmptyString => EmptyString
        end
      else String c (unescape r)
  end.

(** Every backslash of [s] is followed by a character of the class [E],
    reading [s] from the left, pair by pair. *)
Fixpoint wellEscaped (E : ascii -> bool) (s : string) : bool :=
  match s with
  | EmptyString => true
  | String c r =>
      if Ascii.eqb c "\" then
        match r with
        | String d r' => E d && wellEscaped E r'
        | EmptyString => false
        end
      else wellEscaped E r
  end.

(** The characters of [chars], as a class. *)
Definition inSet (chars : string) (c : ascii) : bool := anyChar (Ascii.eqb c) chars.

(** The characters in front of which [escapeMarkdown] puts a backslash. *)
Definition escapedChars : string := "\*-+=#`[]>_.".

(** The marker number as the specification words it: [start] plus the
    1-based position of the item. *)
Definition markerAsClaimed (start position : nat) : string :=
  natToString (start + position) ++ ". ".

(** A task item that holds nothing but its checkbox. *)
Definition emptyTaskItem : node := el "li" [] [checkboxInput true].

(** Code elements and a block with nothing but a space in them. *)
Definition blankCode : node := el "code" [("class", "language-python")] [Text " "].
Definition blankPre : node := el "pre" [] [blankCode].
Definition spaceCode : node := el "code" [] [Text " "].

(** Tables without rows: an empty one and one with only a caption. *)
Definition emptyTable : node := el "table" [] [].
Definition captionTable : node := el "table" [] [el "caption" [] [Text "T"]].

(** Rows placed directly under the table, the second one without cells. *)
Definition directTable : node :=
  el "table" [] [tr "td" ["A"; "B"]; tr "td" []; tr "td" ["1"; "2"]].

(** ** Vocabulary of the further properties *)

(** No character of the class [pa] is directly followed by one of the
    class [pb]. *)
Fixpoint noAdjacent (pa pb : ascii -> bool) (s : string) : bool :=
  match s with
  | EmptyString => true
  | String x r =>
      match r with
      | String y _ => negb (pa x && pb y)
      | EmptyString => true
      end && noAdjacent pa pb r
  end.

(** No three line feeds in a row. *)
Fixpoint noTripleNewline (s : string) : bool :=
  match s with
  | EmptyString => true
  | String x r =>
      match r with
      | String y (String z _) =>
          negb (Ascii.eqb x LF && Ascii.eqb y LF && Ascii.eqb z LF)
      | _ => true
      end && noTripleNewline r
  end.

(** Neither the first nor the last character is white space. *)
Definition isTrimmed (s : string) : bool :=
  match firstChar s with Some c => negb (isWhiteSpace c) | None => true end &&
  match lastChar s with Some c => negb (isWhiteSpace c) | None => true end.

(** Every character that starts a line is of the class [p]; [atStart]
    tells whether [s] begins at a line start. *)
Fixpoint lineStarts (p : ascii -> bool) (atStart : bool) (s : string) : bool :=
  match s with
  | EmptyString => true
  | String c r => (negb atStart || p c) && lineStarts p (isLineTerminator c) r
  end.

(** The line feed, the space, and the characters a collapsed text is free of. *)
Definition isLF (c : ascii) : bool := Ascii.eqb c LF.

Definition isSpace (c : ascii) : bool := Ascii.eqb c " ".

Definition isBreak (c : ascii) : bool :=
  Ascii.eqb c TAB || Ascii.eqb c CR || Ascii.eqb c LF.

(** Read pair by pair from the left, no character of the class [T] stands
    outside an escape (a backslash and the character after it). *)
Fixpoint onlyEscaped (T : ascii -> bool) (s : string) : bool :=
  match s with
  | EmptyString => true
  | String c r =>
      if Ascii.eqb c "\" then
        match r with
        | String _ r' => onlyEscaped T r'
        | EmptyString => true
        end
      else negb (T c) && onlyEscaped T r
  end.

(** The characters escaped at a line start, those escaped anywhere, and
    the ones among them whose escaping does not depend on what follows. *)
Definition leaderChars : string := "-+=#>".

Definition inlineChars : string := "\*`[]_".

Definition markupChars : string := "*`[]_".

Definition leadChars : string := "-=>".

(** [s] is a single line. *)
Definition noNewline (s : string) : bool := allChars (fun c => negb (Ascii.eqb c LF)) s.

(** The tags the switch of [processNode] has a case for. *)
Definition knownTags : list string :=
  ["h1"; "h2"; "h3"; "h4"; "h5"; "h6"; "p"; "strong"; "b"; "em"; "i"; "s"; "del";
   "strike"; "sup"; "sub"; "code"; "pre"; "ul"; "ol"; "li"; "blockquote"; "hr";
   "a"; "img"; "br"; "table"].

(** No pipe at the start of [s] or behind a character other than a
    backslash. *)
Definition pipesEscaped (s : string) : bool :=
  negb (charIs "|" (firstChar s)) &&
  noAdjacent (fun x => negb (Ascii.eqb x "\")) (fun y => Ascii.eqb y "|") s.

(** A head section followed by rows that are in no body section. *)
Definition headOnlyTable (header : list string) (body : list (list string)) : node :=
  el "table" [] (el "thead" [] [tr "th" header] :: map (tr "td") body).

(** A letter, a digit, an underscore or a dot. *)
Definition isNameChar (c : ascii) : bool :=
  isAlnum c || Ascii.eqb c "_" || Ascii.eqb c ".".

(** At no line start of [s] does the pattern [m] match; [atStart] tells
    whether [s] begins at a line start. *)
Fixpoint noLineStart (m : string -> bool) (atStart : bool) (s : string) : bool :=
  match s with
  | EmptyString => true
  | String c r =>
      (negb atStart || negb (m s)) && noLineStart m (isLineTerminator c) r
  end.

(** [inserted s s']: [s'] is [s] with backslashes put in front of some of
    its characters. *)
Inductive inserted : string -> string -> Prop :=
| inserted_end : inserted "" ""
| inserted_keep x r r' : inserted r r' -> inserted (String x r) (String x r')
| inserted_escape x r r' :
    inserted r r' -> inserted (String x r) (String "\" (String x r')).

(** The trees at which the further properties are instantiated. *)
Definition nestedItem : node :=
  el "li" [] [Text "two"; el "ul" [] [textItem "x"]].
Definition quoteBlock : node :=
  el "blockquote" [] [el "p" [] [Text "q1"]; el "p" [] [Text "q2"]].
Definition nestedList : node := el "ul" [] [textItem "x"; textItem "y"].
Definition wrapper : node := el "div" [] [Text "a"; el "span" [] [Text "b"]].
Definition copyButton : node := el "button" [] [Text "Copy"].
Definition preText : node := el "pre" [] [Text ("a  *b*" ++ nl ++ "c")].
Definition bareLink : node := el "a" [("href", "")] [Text "here"].
Definition titledDocument : node :=
  el "#document" []
     [el "html" [] [el "head" [] [el "title" [] [Text "Plans | ChatGPT"]]]].

(** * Properties *)

(** ** Induction on trees *)

Lemma node_rect_forall (P : node -> Prop) :
  (forall d, P (Text d)) ->
  (forall d, P (Comment d)) ->
  (forall t a c kids, Forall P kids -> P (Elem t a c kids)) ->
  forall n, P n.
Proof.
  intros HT HC HE.
  fix IH 1.
  intros [d | d | t a c kids].
  - apply HT.
  - apply HC.
  - apply HE.
    induction kids as [| k kids IHk]; constructor.
    + apply IH.
    + exact IHk.
Qed.

Lemma depth_child t a c kids k :
  In k kids -> depth k < depth (Elem t a c kids).
Proof.
  intros Hin. simpl.
  assert (H : list_max (map depth kids) <= list_max (map depth kids)) by lia.
  apply list_max_le in H.
  rewrite Forall_forall in H.
  specialize (H (depth k) (in_map depth kids k Hin)). lia.
Qed.

(** ** Fuel: enough of it always gives a result, and more changes nothing *)

Lemma mapChildren_total f anc kids :
  (forall k pl, In k kids -> exists s, f pl k = Some s) ->
  forall idx, exists s, mapChildren f anc idx kids = Some s.
Proof.
  induction kids as [| k kids IH]; intros Hf idx; simpl.
  - eauto.
  - destruct (Hf k {| ancestors := anc; elementIndex := idx;
                      hasNextSibling := negb (isEmptyList kids) |}
                 (or_introl eq_refl)) as [a ->].
    destruct (IH (fun k' pl' Hin => Hf k' pl' (or_intror Hin))
                 (if isElement k then S idx else idx)) as [b ->].
    eauto.
Qed.

Lemma mapChildren_ext f g anc kids :
  (forall k pl, In k kids -> f pl k = g pl k) ->
  forall idx, mapChildren f anc idx kids = mapChildren g anc idx kids.
Proof.
  induction kids as [| k kids IH]; intros Hfg idx; simpl.
  - reflexivity.
  - rewrite (Hfg k _ (or_introl eq_refl)).
    rewrite (IH (fun k' pl' Hin => Hfg k' pl' (or_intror Hin))).
    reflexivity.
Qed.

(** A child is walked at the place whose index counts the elements in
    front of it, and its text is part of what the children give. *)
Lemma mapChildren_at f anc before k after :
  forall idx s,
    mapChildren f anc idx (before ++ k :: after) = Some s ->
    exists s1 sk s2,
      f {| ancestors := anc;
           elementIndex := idx + List.length (filter isElement before);
           hasNextSibling := negb (isEmptyList after) |} k = Some sk /\
      s = s1 ++ sk ++ s2.
Proof.
  induction before as [| b before IH]; intros idx s H; cbn [app mapChildren] in H.
  - cbn [filter List.length]. rewrite Nat.add_0_r.
    destruct (f _ k) as [sk |]; [| discriminate].
    destruct (mapChildren f anc _ after) as [s2 |]; [| discriminate].
    inversion H; subst. exists "", sk, s2. split; reflexivity.
  - destruct (f _ b) as [sb |]; [| discriminate].
    destruct (mapChildren f anc _ (before ++ k :: after)) as [s' |] eqn:E;
      [| discriminate].
    inversion H; subst.
    destruct (IH _ _ E) as (s1 & sk & s2 & Hk & ->).
    exists (sb ++ s1), sk, s2. split.
    + cbn [filter]. destruct (isElement b); cbn [List.length].
      * rewrite <- Nat.add_succ_comm. exact Hk.
      * exact Hk.
    + clear. induction sb as [| ch sb IHs]; simpl; [reflexivity | now rewrite IHs].
Qed.

Lemma removeFirst_depth sel n :
  forall n', removeFirst sel n = Some n' -> depth n' <= depth n.
Proof.
  induction n as [d | d | t a c kids IH] using node_rect_forall;
    intros n' H; simpl in H; try discriminate.
  revert H.
  match goal with |- context [option_map _ (?g kids)] => set (go := g) end.
  assert (Hgo : forall l, Forall (fun k => forall k', removeFirst sel k = Some k' ->
                                                    depth k' <= depth k) l ->
                forall l', go l = Some l' ->
                list_max (map depth l') <= list_max (map depth l)).
  { induction l as [| k r IHr]; intros HF l' Hl; simpl in Hl.
    - discriminate.
    - inversion HF as [| ? ? Hk Hr]; subst.
      destruct (sel k).
      + inversion Hl; subst. simpl. lia.
      + destruct (removeFirst sel k) as [k' |] eqn:Ek.
        * inversion Hl; subst. simpl. specialize (Hk k' eq_refl). lia.
        * destruct (go r) as [r' |] eqn:Er; simpl in Hl; inversion Hl; subst.
          simpl. specialize (IHr Hr r' eq_refl). lia. }
  destruct (go kids) as [kids' |] eqn:Eg; simpl; intros H; inversion H; subst.
  simpl. specialize (Hgo kids IH kids' Eg). lia.
Qed.

Lemma cloneWithout_depth sel n : depth (cloneWithout sel n) <= depth n.
Proof.
  unfold cloneWithout.
  destruct (removeFirst sel n) as [n' |] eqn:E.
  - eapply removeFirst_depth; eauto.
  - lia.
Qed.

Lemma cloneWithout_children_depth sel n k :
  In k (children (cloneWithout sel n)) -> depth k < depth n.
Proof.
  intros Hin.
  pose proof (cloneWithout_depth sel n) as Hd.
  destruct (cloneWithout sel n) as [d | d | t a c kids]; simpl in Hin; try tauto.
  pose proof (depth_child t a c kids k Hin). lia.
Qed.

Section WalkerFacts.

Variable numberPlus : string -> nat -> string.

Lemma switchTag_some walk pl n tag attrs cc :
  (exists s, walk (children (cloneWithout isCheckbox n)) = Some s) ->
  exists s, switchTag numberPlus walk pl n tag attrs cc = Some s.
Proof.
  intros [lc Hlc]. unfold switchTag. rewrite Hlc.
  repeat match goal with
         | |- context [match headingLevel ?t with _ => _ end] =>
             destruct (headingLevel t)
         | |- context [if ?b then _ else _] => destruct b
         end; eauto.
Qed.

Lemma switchTag_ext walk1 walk2 pl n tag attrs cc :
  walk1 (children (cloneWithout isCheckbox n)) =
  walk2 (children (cloneWithout isCheckbox n)) ->
  switchTag numberPlus walk1 pl n tag attrs cc =
  switchTag numberPlus walk2 pl n tag attrs cc.
Proof. intros H. unfold switchTag. rewrite H. reflexivity. Qed.

Lemma processNode_total fuel :
  forall opts pl n, depth n <= fuel ->
  exists s, processNode numberPlus fuel opts pl n = Some s.
Proof.
  induction fuel as [| f IH]; intros opts pl n Hd.
  - destruct n; simpl in Hd; lia.
  - cbn [processNode]. destruct (isBlank n); [eauto |].
    destruct n as [d | d | t a c kids]; [eauto | eauto |].
    destruct (mapChildren_total (processNode numberPlus f (childOptions t opts))
                ((t, a) :: ancestors pl) kids) with (idx := 0) as [cc ->].
    { intros k pl' Hin. apply IH.
      pose proof (depth_child t a c kids k Hin). lia. }
    apply switchTag_some. apply mapChildren_total.
    intros k pl' Hin. apply IH.
    pose proof (cloneWithout_children_depth _ _ _ Hin). lia.
Qed.

Lemma processNode_fuel f1 :
  forall f2 opts pl n, depth n <= f1 -> depth n <= f2 ->
  processNode numberPlus f1 opts pl n = processNode numberPlus f2 opts pl n.
Proof.
  induction f1 as [| f1 IH]; intros f2 opts pl n H1 H2.
  - destruct n; simpl in H1; lia.
  - destruct f2 as [| f2]; [destruct n; simpl in H2; lia |].
    cbn [processNode]. destruct (isBlank n); [reflexivity |].
    destruct n as [d | d | t a c kids]; [reflexivity | reflexivity |].
    rewrite (mapChildren_ext (processNode numberPlus f1 (childOptions t opts))
               (processNode numberPlus f2 (childOptions t opts))
               ((t, a) :: ancestors pl) kids).
    2:{ intros k pl' Hin. pose proof (depth_child t a c kids k Hin).
        apply IH; lia. }
    destruct (mapChildren _ _ 0 kids); [| reflexivity].
    apply switchTag_ext. apply mapChildren_ext.
    intros k pl' Hin. pose proof (cloneWithout_children_depth _ _ _ Hin).
    apply IH; lia.
Qed.

(** Any fuel that covers the depth of the tree gives the result of
    [render]. *)
Lemma processNode_render fuel opts pl n :
  depth n <= fuel ->
  processNode numberPlus fuel opts pl n = render numberPlus opts pl n.
Proof.
  intros H. unfold render. apply processNode_fuel; lia.
Qed.

Lemma render_total opts pl n : exists s, render numberPlus opts pl n = Some s.
Proof. apply processNode_total. lia. Qed.

Lemma renderChildren_total opts anc idx kids :
  exists s, mapChildren (render numberPlus opts) anc idx kids = Some s.
Proof.
  apply mapChildren_total. intros k pl _. apply render_total.
Qed.

Lemma mapChildren_render fuel opts anc idx kids :
  (forall k, In k kids -> depth k <= fuel) ->
  mapChildren (processNode numberPlus fuel opts) anc idx kids =
  mapChildren (render numberPlus opts) anc idx kids.
Proof.
  intros H. apply mapChildren_ext.
  intros k pl Hin. apply processNode_render. auto.
Qed.

(** [render] unfolded once: the blank guard, the text case, and for an
    element its rendered children followed by the switch. *)
Lemma render_blank opts pl n :
  isBlank n = true -> render numberPlus opts pl n = Some EmptyString.
Proof.
  intros H. unfold render. destruct n; cbn [depth processNode]; rewrite H; reflexivity.
Qed.

Lemma render_element opts pl t a c kids :
  isBlank (Elem t a c kids) = false ->
  render numberPlus opts pl (Elem t a c kids) =
  match mapChildren (render numberPlus (childOptions t opts))
                    ((t, a) :: ancestors pl) 0 kids with
  | None => None
  | Some childContent =>
      switchTag numberPlus (mapChildren (render numberPlus opts) [(t, a)] 0)
                pl (Elem t a c kids) t a childContent
  end.
Proof.
  intros Hb. unfold render at 1. cbn [depth processNode]. rewrite Hb.
  rewrite mapChildren_render.
  2:{ intros k Hin. pose proof (depth_child t a c kids k Hin).
      simpl in H. lia. }
  destruct (mapChildren _ _ 0 kids); [| reflexivity].
  apply switchTag_ext. apply mapChildren_render.
  intros k Hin.
  pose proof (cloneWithout_children_depth isCheckbox (Elem t a c kids) k Hin) as H.
  simpl in H. lia.
Qed.

End WalkerFacts.

(** ** Strings and lists *)

Lemma filter_none {A : Type} (p : A -> bool) (l : list A) :
  existsb p l = false -> filter p l = [].
Proof.
  induction l as [| x l IH]; simpl; intros H.
  - reflexivity.
  - apply orb_false_iff in H. destruct H as [-> H]. auto.
Qed.

Lemma nonempty_length {A : Type} (l : list A) :
  (0 <? List.length l) = negb (isEmptyList l).
Proof. destruct l; reflexivity. Qed.

(** ** The table renderer, row by row *)

Lemma fold_pushBodyRow rows : forall acc,
  fold_left pushBodyRow rows acc =
  (acc ++ map formatTableRow (nonEmptyRows rows))%list.
Proof.
  unfold nonEmptyRows.
  induction rows as [| r rows IH]; intros acc; simpl.
  - now rewrite app_nil_r.
  - rewrite IH. unfold pushBodyRow. rewrite nonempty_length.
    destruct (isEmptyList (getCellsFromRow r)); simpl.
    + reflexivity.
    + now rewrite <- app_assoc.
Qed.

Lemma fold_pushDirectRow_data rows : forall acc,
  fold_left pushDirectRow rows (acc, false) =
  ((acc ++ map formatTableRow (nonEmptyRows rows))%list, false).
Proof.
  unfold nonEmptyRows.
  induction rows as [| r rows IH]; intros acc; simpl.
  - now rewrite app_nil_r.
  - rewrite nonempty_length.
    destruct (isEmptyList (getCellsFromRow r)); simpl.
    + apply IH.
    + rewrite IH. now rewrite <- app_assoc.
Qed.

Lemma fold_pushDirectRow_first rows : forall acc,
  fold_left pushDirectRow rows (acc, true) =
  match nonEmptyRows rows with
  | [] => (acc, true)
  | first :: rest =>
      ((acc ++ headerPair first ++ map formatTableRow rest)%list, false)
  end.
Proof.
  unfold nonEmptyRows.
  induction rows as [| r rows IH]; intros acc; simpl.
  - reflexivity.
  - rewrite nonempty_length.
    destruct (isEmptyList (getCellsFromRow r)) eqn:E; simpl.
    + apply IH.
    + unfold addHeaderRow. rewrite fold_pushDirectRow_data.
      unfold nonEmptyRows, headerPair. now rewrite <- app_assoc.
Qed.

(** ** Escaping can be read back *)

Lemma string_length_ind (P : string -> Prop) :
  (forall s, (forall r, String.length r < String.length s -> P r) -> P s) ->
  forall s, P s.
Proof.
  intros H s.
  assert (Hn : forall n r, String.length r < n -> P r).
  { induction n as [| n IH]; intros r Hr; [lia |].
    apply H. intros r' Hr'. apply IH. lia. }
  apply (Hn (S (String.length s))). lia.
Qed.

Lemma escBackslash_unescape s :
  wellEscaped (inSet "\") (escBackslash s) = true /\ unescape (escBackslash s) = s.
Proof.
  unfold escBackslash.
  induction s as [| c r [IH1 IH2]]; [split; reflexivity |].
  cbn [replaceChar]. destruct (Ascii.eqb c "\") eqn:E.
  - apply Ascii.eqb_eq in E. subst c. cbn. rewrite IH1, IH2. split; reflexivity.
  - cbn [wellEscaped unescape]. rewrite E, IH1, IH2. split; reflexivity.
Qed.

Lemma replaceChar_unescape (E E' : ascii -> bool) (c : ascii) :
  (forall d, E d = true -> E' d = true) ->
  E' c = true -> E c = false -> Ascii.eqb c "\" = false ->
  forall s, wellEscaped E s = true ->
    wellEscaped E' (replaceChar c (String "\" (String c "")) s) = true /\
    unescape (replaceChar c (String "\" (String c "")) s) = unescape s.
Proof.
  intros Hsub Hc HEc Hcb.
  induction s as [s IH] using string_length_ind. intros Hw.
  destruct s as [| x r]; [split; reflexivity |].
  cbn [wellEscaped] in Hw. cbn [replaceChar].
  destruct (Ascii.eqb x "\") eqn:Ex.
  - apply Ascii.eqb_eq in Ex. subst x.
    destruct r as [| d r']; [discriminate |].
    apply andb_true_iff in Hw. destruct Hw as [Hd Hw].
    rewrite Ascii.eqb_sym, Hcb.
    cbn [replaceChar].
    destruct (Ascii.eqb d c) eqn:Edc.
    { apply Ascii.eqb_eq in Edc. subst d. congruence. }
    destruct (IH r') as [I1 I2]; [simpl; lia | exact Hw |].
    cbn. rewrite (Hsub d Hd), I1, I2. split; reflexivity.
  - destruct (IH r) as [I1 I2]; [simpl; lia | exact Hw |].
    destruct (Ascii.eqb x c) eqn:Exc.
    + apply Ascii.eqb_eq in Exc. subst x.
      cbn. rewrite Hc, I1, I2, Ex. split; reflexivity.
    + cbn [wellEscaped unescape]. rewrite Ex, I1, I2. split; reflexivity.
Qed.

Lemma escapeLineStart_unescape (E E' : ascii -> bool) (m : string -> bool) :
  (forall d, E d = true -> E' d = true) ->
  (forall c r, m (String c r) = true -> E' c = true /\ Ascii.eqb c "\" = false) ->
  forall s atStart, wellEscaped E s = true ->
    wellEscaped E' (escapeLineStart m atStart s) = true /\
    unescape (escapeLineStart m atStart s) = unescape s.
Proof.
  intros Hsub Hm.
  induction s as [s IH] using string_length_ind. intros atStart Hw.
  destruct s as [| x r]; [split; reflexivity |].
  cbn [wellEscaped] in Hw. cbn [escapeLineStart].
  destruct (Ascii.eqb x "\") eqn:Ex.
  - pose proof Ex as Ex'. apply Ascii.eqb_eq in Ex'. subst x.
    destruct r as [| d r']; [discriminate |].
    apply andb_true_iff in Hw. destruct Hw as [Hd Hw].
    assert (Hno : m (String "\" (String d r')) = false).
    { destruct (m (String "\" (String d r'))) eqn:Em; [| reflexivity].
      destruct (Hm _ _ Em) as [_ H]. discriminate H. }
    rewrite Hno, andb_false_r.
    cbn [escapeLineStart isLineTerminator Ascii.eqb Bool.eqb LF CR orb andb].
    destruct (IH r') with (atStart := isLineTerminator d) as [I1 I2];
      [simpl; lia | exact Hw |].
    cbn. rewrite (Hsub d Hd), I1, I2. split; reflexivity.
  - destruct (IH r) with (atStart := isLineTerminator x) as [I1 I2];
      [simpl; lia | exact Hw |].
    destruct (atStart && m (String x r)) eqn:Eam.
    + apply andb_true_iff in Eam. destruct Eam as [_ Em].
      destruct (Hm _ _ Em) as [Hx _].
      cbn. rewrite Hx, I1, I2, Ex. split; reflexivity.
    + cbn [wellEscaped unescape]. rewrite Ex, I1, I2. split; reflexivity.
Qed.

Lemma escapeListDot_unescape (E E' : ascii -> bool) :
  (forall d, E d = true -> E' d = true) ->
  E' "."%char = true ->
  forall s atStart inNumber,
    (inNumber = true -> atStart = false /\
                        startsWith ". " (dropWhile isDigit s) = true) ->
    wellEscaped E s = true ->
    wellEscaped E' (escapeListDot atStart inNumber s) = true /\
    unescape (escapeListDot atStart inNumber s) = unescape s.
Proof.
  intros Hsub Hdot.
  induction s as [s IH] using string_length_ind. intros atStart inNumber Hin Hw.
  destruct s as [| x r]; [split; reflexivity |].
  cbn [wellEscaped] in Hw. cbn [escapeListDot].
  set (inNumber' := if atStart then digitsDotSpace (String x r) else inNumber).
  assert (Hin' : inNumber' = true ->
                 startsWith ". " (dropWhile isDigit (String x r)) = true).
  { unfold inNumber'. destruct atStart.
    - unfold digitsDotSpace. intros H. apply andb_true_iff in H. tauto.
    - intros H. apply Hin in H. tauto. }
  destruct (Ascii.eqb x "\") eqn:Ex.
  - pose proof Ex as Ex'. apply Ascii.eqb_eq in Ex'. subst x.
    destruct r as [| d r']; [discriminate |].
    apply andb_true_iff in Hw. destruct Hw as [Hd Hw].
    assert (Hno : inNumber' = false).
    { destruct inNumber'; [| reflexivity]. specialize (Hin' eq_refl). discriminate Hin'. }
    rewrite Hno.
    cbn [andb escapeListDot isLineTerminator Ascii.eqb Bool.eqb LF CR orb].
    destruct (IH r') with (atStart := isLineTerminator d) (inNumber := false)
      as [I1 I2]; [simpl; lia | discriminate | exact Hw |].
    cbn. rewrite (Hsub d Hd), I1, I2. split; reflexivity.
  - destruct (inNumber' && Ascii.eqb x ".") eqn:Eins.
    + apply andb_true_iff in Eins. destruct Eins as [_ Exd].
      apply Ascii.eqb_eq in Exd. subst x.
      destruct (IH r) with (atStart := false) (inNumber := false)
        as [I1 I2]; [simpl; lia | discriminate | exact Hw |].
      cbn. rewrite Hdot, I1, I2. split; reflexivity.
    + destruct (IH r) with (atStart := isLineTerminator x) (inNumber := inNumber')
        as [I1 I2]; [simpl; lia | | exact Hw |].
      { intros H. specialize (Hin' H). rewrite H in Eins. cbn [andb] in Eins.
        cbn [dropWhile] in Hin'.
        destruct (isDigit x) eqn:Edig.
        - split; [| exact Hin'].
          unfold isLineTerminator, LF, CR.
          destruct (Ascii.eqb x "010") eqn:E1.
          { apply Ascii.eqb_eq in E1. subst x. discriminate Edig. }
          destruct (Ascii.eqb x "013") eqn:E2.
          { apply Ascii.eqb_eq in E2. subst x. discriminate Edig. }
          reflexivity.
        - cbn [startsWith] in Hin'. rewrite Ascii.eqb_sym, Eins in Hin'.
          discriminate Hin'. }
      cbn [wellEscaped unescape]. rewrite Ex, I1, I2. split; reflexivity.
Qed.

Lemma inSet_sub (small big : string) :
  (forall d, inSet small d = true -> inSet (small ++ big) d = true) /\
  (forall d, inSet big d = true -> inSet (small ++ big) d = true).
Proof.
  unfold inSet. split; intros d; induction small as [| c small IH]; simpl; intros H;
    try discriminate; try assumption.
  - apply orb_true_iff in H. destruct H as [-> | H]; [reflexivity |].
    rewrite IH by exact H. apply orb_true_r.
  - rewrite IH by exact H. apply orb_true_r.
Qed.


Lemma startsWith_head t p c r :
  startsWith (String t p) (String c r) = true -> c = t.
Proof.
  cbn [startsWith]. intros H. apply andb_true_iff in H. destruct H as [H _].
  apply Ascii.eqb_eq in H. now subst.
Qed.

Lemma sharpsThenSpace_head c r : sharpsThenSpace (String c r) = true -> c = "#"%char.
Proof.
  unfold sharpsThenSpace. cbn [takeWhile].
  destruct (Ascii.eqb "#" c) eqn:E.
  - apply Ascii.eqb_eq in E. now subst.
  - discriminate.
Qed.

Ltac line_rule_head :=
  let c := fresh "c" in let r := fresh "r" in let H := fresh "H" in
  intros c r H;
  (apply startsWith_head in H || apply sharpsThenSpace_head in H);
  subst c; split; reflexivity.

Theorem escapeMarkdown_unescape s :
  unescape (escapeMarkdown s) = s /\
  wellEscaped (inSet escapedChars) (escapeMarkdown s) = true.
Proof.
  unfold escapeMarkdown.
  destruct (escBackslash_unescape s) as [W1 U1].
  set (s1 := escBackslash s) in *.
  assert (H2 : wellEscaped (inSet "\*") (escStar s1) = true /\
               unescape (escStar s1) = unescape s1).
  { apply (replaceChar_unescape (inSet "\") (inSet "\*") "*"
             (proj1 (inSet_sub "\" "*")) eq_refl eq_refl eq_refl s1 W1). }
  destruct H2 as [W2 U2]. set (s2 := escStar s1) in *.
  assert (H3 : wellEscaped (inSet "\*-+=#") (escDash s2) = true /\
               unescape (escDash s2) = unescape s2).
  { apply (escapeLineStart_unescape (inSet "\*") (inSet "\*-+=#") (startsWith "-")
             (proj1 (inSet_sub "\*" "-+=#"))); [line_rule_head | exact W2]. }
  destruct H3 as [W3 U3]. set (s3 := escDash s2) in *.
  assert (H4 : wellEscaped (inSet "\*-+=#") (escPlus s3) = true /\
               unescape (escPlus s3) = unescape s3).
  { apply (escapeLineStart_unescape (inSet "\*-+=#") (inSet "\*-+=#")
             (startsWith "+ ") (fun d H => H)); [line_rule_head | exact W3]. }
  destruct H4 as [W4 U4]. set (s4 := escPlus s3) in *.
  assert (H5 : wellEscaped (inSet "\*-+=#") (escEquals s4) = true /\
               unescape (escEquals s4) = unescape s4).
  { apply (escapeLineStart_unescape (inSet "\*-+=#") (inSet "\*-+=#")
             (startsWith "=") (fun d H => H)); [line_rule_head | exact W4]. }
  destruct H5 as [W5 U5]. set (s5 := escEquals s4) in *.
  assert (H6 : wellEscaped (inSet "\*-+=#") (escSharp s5) = true /\
               unescape (escSharp s5) = unescape s5).
  { apply (escapeLineStart_unescape (inSet "\*-+=#") (inSet "\*-+=#")
             sharpsThenSpace (fun d H => H)); [line_rule_head | exact W5]. }
  destruct H6 as [W6 U6]. set (s6 := escSharp s5) in *.
  assert (H7 : wellEscaped (inSet "\*-+=#`") (escBacktick s6) = true /\
               unescape (escBacktick s6) = unescape s6).
  { apply (replaceChar_unescape (inSet "\*-+=#") (inSet "\*-+=#`") BACKTICK
             (proj1 (inSet_sub "\*-+=#" "`")) eq_refl eq_refl eq_refl s6 W6). }
  destruct H7 as [W7 U7]. set (s7 := escBacktick s6) in *.
  assert (H8 : wellEscaped (inSet "\*-+=#`[") (escOpenBracket s7) = true /\
               unescape (escOpenBracket s7) = unescape s7).
  { apply (replaceChar_unescape (inSet "\*-+=#`") (inSet "\*-+=#`[") "["
             (proj1 (inSet_sub "\*-+=#`" "[")) eq_refl eq_refl eq_refl s7 W7). }
  destruct H8 as [W8 U8]. set (s8 := escOpenBracket s7) in *.
  assert (H9 : wellEscaped (inSet "\*-+=#`[]") (escCloseBracket s8) = true /\
               unescape (escCloseBracket s8) = unescape s8).
  { apply (replaceChar_unescape (inSet "\*-+=#`[") (inSet "\*-+=#`[]") "]"
             (proj1 (inSet_sub "\*-+=#`[" "]")) eq_refl eq_refl eq_refl s8 W8). }
  destruct H9 as [W9 U9]. set (s9 := escCloseBracket s8) in *.
  assert (H10 : wellEscaped (inSet "\*-+=#`[]>") (escQuoteMark s9) = true /\
                unescape (escQuoteMark s9) = unescape s9).
  { apply (escapeLineStart_unescape (inSet "\*-+=#`[]") (inSet "\*-+=#`[]>")
             (startsWith ">") (proj1 (inSet_sub "\*-+=#`[]" ">")));
      [line_rule_head | exact W9]. }
  destruct H10 as [W10 U10]. set (s10 := escQuoteMark s9) in *.
  assert (H11 : wellEscaped (inSet "\*-+=#`[]>_") (escUnderscore s10) = true /\
                unescape (escUnderscore s10) = unescape s10).
  { apply (replaceChar_unescape (inSet "\*-+=#`[]>") (inSet "\*-+=#`[]>_") "_"
             (proj1 (inSet_sub "\*-+=#`[]>" "_")) eq_refl eq_refl eq_refl s10 W10). }
  destruct H11 as [W11 U11]. set (s11 := escUnderscore s10) in *.
  assert (H12 : wellEscaped (inSet escapedChars) (escListDot s11) = true /\
                unescape (escListDot s11) = unescape s11).
  { apply (escapeListDot_unescape (inSet "\*-+=#`[]>_") (inSet escapedChars)
             (proj1 (inSet_sub "\*-+=#`[]>_" ".")) eq_refl s11 true false);
      [discriminate | exact W11]. }
  destruct H12 as [W12 U12].
  split; [congruence | exact W12].
Qed.

Section Claims.

Variable numberPlus : string -> nat -> string.

(** ** The empty-content guard *)

(** C7. An element whose flattened text is all white space and which has
    no image, rule, break or table among its descendants renders to the
    empty string, whatever its tag, flags and place; so does a [strong]
    element whose only child is a white-space text node. *)
Theorem blank_element_renders_empty
        (fuel : nat) (opts : options) (pl : place)
        (t : string) (a : attributes) (c : bool) (kids : list node) :
  isAllWhiteSpace (textContent (Elem t a c kids)) = true ->
  existsb (hasTag ["img"; "hr"; "br"; "table"]) (descendants (Elem t a c kids)) = false ->
  processNode numberPlus (S fuel) opts pl (Elem t a c kids) = Some "" /\
  render numberPlus opts pl (Elem t a c kids) = Some "" /\
  (forall ws a' c', isAllWhiteSpace ws = true ->
     render numberPlus opts pl (Elem "strong" a' c' [Text ws]) = Some "" /\
     render numberPlus opts pl (Elem "strong" a' c' [Text ws]) <> Some "****").
Proof.
  intros Hws Hnone.
  assert (Hb : isBlank (Elem t a c kids) = true).
  { unfold isBlank, querySelector, querySelectorAll.
    rewrite (filter_none _ _ Hnone), Hws. reflexivity. }
  split; [| split].
  - cbn [processNode]. now rewrite Hb.
  - now apply render_blank.
  - intros ws a' c' H.
    assert (Hs : render numberPlus opts pl (Elem "strong" a' c' [Text ws]) = Some "").
    { apply render_blank. unfold isBlank. simpl.
      unfold isAllWhiteSpace in *. now rewrite H. }
    split; [exact Hs |]. rewrite Hs. discriminate.
Qed.

(** ** Tables *)

(** C8. Without a body section the rows of the table are taken directly,
    rows without cells being skipped: with no head section the first row
    that has cells gives the header and separator lines and the later ones
    give data lines; with a head section every row gives a data line. *)
Theorem table_rows_without_body (t : node) :
  querySelector (hasTag ["tbody"]) t = None ->
  tableRows t =
    match querySelector (hasTag ["thead"]) t with
    | None =>
        match nonEmptyRows (querySelectorAll (hasTag ["tr"]) t) with
        | [] => []
        | first :: rest => headerPair first ++ map formatTableRow rest
        end
    | Some thead =>
        headRows thead ++
        map formatTableRow (nonEmptyRows (querySelectorAll (hasTag ["tr"]) t))
    end%list /\
  convertTableToMarkdown t = join nl (tableRows t) ++ nl ++ nl.
Proof.
  intros Hbody. split; [| reflexivity].
  unfold tableRows. rewrite Hbody.
  destruct (querySelector (hasTag ["thead"]) t) as [thead |]; simpl.
  - rewrite fold_pushDirectRow_data. reflexivity.
  - rewrite fold_pushDirectRow_first.
    destruct (nonEmptyRows _); reflexivity.
Qed.

Lemma switchTag_table walk pl n a cc :
  switchTag numberPlus walk pl n "table" a cc = Some (convertTableToMarkdown n).
Proof. reflexivity. Qed.

Lemma render_table opts pl a c kids :
  render numberPlus opts pl (Elem "table" a c kids) =
  Some (if isBlank (Elem "table" a c kids) then ""
        else convertTableToMarkdown (Elem "table" a c kids)).
Proof.
  destruct (isBlank (Elem "table" a c kids)) eqn:Hb.
  - now apply render_blank.
  - rewrite render_element by exact Hb.
    destruct (renderChildren_total numberPlus (childOptions "table" opts)
                (("table", a) :: ancestors pl) 0 kids) as [cc ->].
    apply switchTag_table.
Qed.

(** C9 (as amended). A table that yields no row is rendered by the table
    renderer as two line feeds, the blank line that ends every table; the
    walker gives the empty string for it only through the empty-content
    guard. *)
Theorem table_without_rows (opts : options) (pl : place)
        (a : attributes) (c : bool) (kids : list node) :
  tableRows (Elem "table" a c kids) = [] ->
  convertTableToMarkdown (Elem "table" a c kids) = nl ++ nl /\
  render numberPlus opts pl (Elem "table" a c kids) =
  Some (if isBlank (Elem "table" a c kids) then "" else nl ++ nl).
Proof.
  intros H.
  assert (Hc : convertTableToMarkdown (Elem "table" a c kids) = nl ++ nl).
  { unfold convertTableToMarkdown. rewrite H. reflexivity. }
  split; [exact Hc |].
  rewrite render_table, Hc. reflexivity.
Qed.

(** C10. A cell is rendered as its flattened text, trimmed, with every
    pipe escaped, and nothing else: the children of the cell are not
    walked, and the flags and the place of the table node do not reach the
    table renderer. *)
Theorem table_cell_is_plain_text
        (opts1 opts2 : options) (pl1 pl2 : place)
        (a : attributes) (c : bool) (kids : list node) :
  (forall cell, getCellText cell = replaceChar "|" "\|" (trim (textContent cell))) /\
  (forall cell1 cell2, textContent cell1 = textContent cell2 ->
                       getCellText cell1 = getCellText cell2) /\
  (forall row, getCellsFromRow row =
               map (fun cell => replaceChar "|" "\|" (trim (textContent cell)))
                   (querySelectorAll (hasTag ["td"; "th"]) row)) /\
  render numberPlus opts1 pl1 (Elem "table" a c kids) =
  render numberPlus opts2 pl2 (Elem "table" a c kids) /\
  render numberPlus opts1 pl1 (Elem "table" a c kids) =
  Some (if isBlank (Elem "table" a c kids) then ""
        else convertTableToMarkdown (Elem "table" a c kids)) /\
  getCellText markupCell = "a\|b*_c_" /\
  render numberPlus opts1 pl1 (el "table" [] [el "tr" [] [markupCell]]) =
  Some ("| a\|b*_c_ |" ++ nl ++ "| --- |" ++ nl ++ nl).
Proof.
  split; [reflexivity |].
  split; [intros cell1 cell2 H; unfold getCellText; now rewrite H |].
  split; [reflexivity |].
  split; [now rewrite !render_table |].
  split; [apply render_table |].
  split; [reflexivity |].
  unfold el at 1. now rewrite render_table.
Qed.

(** *** Tables as the HTML parser builds them *)

Lemma descendants_tr tag texts :
  descendants (tr tag texts) = flat_map (fun t => [cell tag t; Text t]) texts.
Proof.
  unfold tr, el. cbn [descendants].
  induction texts as [| t texts IH]; simpl; [reflexivity |].
  now rewrite IH.
Qed.

Lemma filter_tr_none sel tag texts :
  (forall t, sel (cell tag t) = false) ->
  (forall t, sel (Text t) = false) ->
  filter sel (descendants (tr tag texts)) = [].
Proof.
  intros Hc Ht. rewrite descendants_tr.
  induction texts as [| t texts IH]; simpl; [reflexivity |].
  now rewrite Hc, Ht.
Qed.

Lemma cells_of_tr tag texts :
  tagIn tag ["td"; "th"] = true ->
  querySelectorAll (hasTag ["td"; "th"]) (tr tag texts) = map (cell tag) texts.
Proof.
  intros Htag. unfold querySelectorAll. rewrite descendants_tr.
  induction texts as [| t texts IH]; [reflexivity |].
  cbn [flat_map app filter map].
  replace (hasTag ["td"; "th"] (cell tag t)) with true by (symmetry; exact Htag).
  cbn [hasTag]. now rewrite IH.
Qed.

Lemma getCellsFromRow_tr tag texts :
  tagIn tag ["td"; "th"] = true ->
  getCellsFromRow (tr tag texts) = map cellText texts.
Proof.
  intros Htag. unfold getCellsFromRow. rewrite (cells_of_tr _ _ Htag).
  rewrite map_map. reflexivity.
Qed.

Lemma rows_of_section sec tag body :
  String.eqb tag "tr" = false ->
  filter (hasTag ["tr"]) (descendants (el sec [] (map (tr tag) body))) =
  map (tr tag) body.
Proof.
  intros Htag. unfold el at 1. cbn [descendants].
  induction body as [| r body IH]; [reflexivity |].
  cbn [map flat_map]. rewrite filter_app.
  cbn [filter]. replace (hasTag ["tr"] (tr tag r)) with true by reflexivity.
  rewrite (filter_tr_none (hasTag ["tr"]) tag r), IH; [reflexivity | | reflexivity].
  intros t. unfold cell, el. cbn [hasTag existsb]. now rewrite Htag.
Qed.

Lemma nonEmptyRows_tr tag body :
  tagIn tag ["td"; "th"] = true ->
  nonEmptyRows (map (tr tag) body) =
  map (map cellText) (filter (fun r => negb (isEmptyList r)) body).
Proof.
  intros Htag. unfold nonEmptyRows.
  induction body as [| r body IH]; [reflexivity |].
  cbn [map filter]. rewrite (getCellsFromRow_tr _ _ Htag).
  destruct r; cbn [map isEmptyList negb]; now rewrite IH.
Qed.

Lemma tableRows_headBody header body :
  tableRows (headBodyTable header body) =
  (headerPair (map cellText header) ++
   map (fun r => formatTableRow (map cellText r))
       (filter (fun r => negb (isEmptyList r)) body))%list.
Proof.
  unfold tableRows.
  assert (Hd : descendants (headBodyTable header body) =
               (el "thead" [] [tr "th" header] :: tr "th" header ::
                descendants (tr "th" header) ++
                el "tbody" [] (map (tr "td") body) ::
                descendants (el "tbody" [] (map (tr "td") body)))%list).
  { unfold headBodyTable, el at 1 2. cbn [descendants flat_map].
    rewrite !app_nil_r. reflexivity. }
  assert (Hhead : querySelector (hasTag ["thead"]) (headBodyTable header body)
                  = Some (el "thead" [] [tr "th" header])).
  { unfold querySelector, querySelectorAll. rewrite Hd. reflexivity. }
  assert (Hbody : querySelector (hasTag ["tbody"]) (headBodyTable header body)
                  = Some (el "tbody" [] (map (tr "td") body))).
  { unfold querySelector, querySelectorAll. rewrite Hd.
    cbn [filter]. replace (hasTag ["tbody"] (el "thead" [] [tr "th" header]))
      with false by reflexivity.
    replace (hasTag ["tbody"] (tr "th" header)) with false by reflexivity.
    rewrite filter_app, filter_tr_none by reflexivity.
    reflexivity. }
  rewrite Hhead, Hbody.
  assert (Hrow : querySelector (hasTag ["tr"]) (el "thead" [] [tr "th" header])
                 = Some (tr "th" header)) by reflexivity.
  rewrite Hrow.
  unfold querySelectorAll. rewrite rows_of_section by reflexivity.
  rewrite fold_pushBodyRow, nonEmptyRows_tr by reflexivity.
  unfold addHeaderRow, headerPair.
  rewrite getCellsFromRow_tr by reflexivity. rewrite !map_map. reflexivity.
Qed.

(** C1. A table with a head row of text cells and body rows of text cells
    renders as the header line (cells trimmed, pipes escaped, joined by
    [ | ] between [| ] and [ |]), a line of as many [---] as header cells,
    one line per body row that has cells, and a closing blank line; for
    the header [A], [B] and the rows [1], [2] and [3], [4] that is the
    five-line text of the specification. *)
Theorem table_with_head_and_body (header : list string) (body : list (list string)) :
  convertTableToMarkdown (headBodyTable header body) =
  join nl (("| " ++ join " | " (map cellText header) ++ " |")
           :: ("| " ++ join " | " (map (fun _ => "---") header) ++ " |")
           :: map (fun r => "| " ++ join " | " (map cellText r) ++ " |")
                  (filter (fun r => negb (isEmptyList r)) body))
    ++ nl ++ nl /\
  table_AB = headBodyTable ["A"; "B"] [["1"; "2"]; ["3"; "4"]] /\
  convertTableToMarkdown table_AB =
  "| A | B |" ++ nl ++ "| --- | --- |" ++ nl ++ "| 1 | 2 |" ++ nl ++ "| 3 | 4 |"
    ++ nl ++ nl.
Proof.
  split; [| split; reflexivity].
  unfold convertTableToMarkdown. rewrite tableRows_headBody.
  unfold headerPair, formatTableRow. rewrite map_map. reflexivity.
Qed.

(** ** Removing the first match from a copy *)

Lemma append_empty_r (s : string) : s ++ "" = s.
Proof. induction s as [| c s IH]; simpl; [reflexivity | now rewrite IH]. Qed.

Lemma append_assoc (s1 s2 s3 : string) : (s1 ++ s2) ++ s3 = s1 ++ s2 ++ s3.
Proof. induction s1 as [| c s1 IH]; simpl; [reflexivity | now rewrite IH]. Qed.

Lemma concat_cons (x : string) (l : list string) :
  String.concat "" (x :: l) = x ++ String.concat "" l.
Proof.
  destruct l as [| y l]; simpl; [now rewrite append_empty_r | reflexivity].
Qed.

Lemma removeFirst_spec sel n : removal_spec sel n.
Proof.
  induction n as [d | d | t a c kids IH] using node_rect_forall;
    unfold removal_spec; try reflexivity.
  unfold querySelector, querySelectorAll. cbn [removeFirst descendants descendantText].
  match goal with |- context [option_map _ (?g kids)] => set (go := g) end.
  assert (Hgo :
    match go kids with
    | Some kids' =>
        exists found before after,
          hd_error (filter sel (flat_map (fun k => k :: descendants k) kids))
          = Some found /\
          String.concat "" (map descendantText kids)
          = before ++ descendantText found ++ after /\
          String.concat "" (map descendantText kids') = before ++ after
    | None => filter sel (flat_map (fun k => k :: descendants k) kids) = []
    end).
  { induction kids as [| k r IHr].
    - reflexivity.
    - inversion IH as [| ? ? Hk Hr]; subst. specialize (IHr Hr).
      cbn [go flat_map map]. fold go.
      rewrite <- app_comm_cons. cbn [filter]. rewrite filter_app.
      rewrite !concat_cons.
      destruct (sel k) eqn:Ek.
      + exists k, "", (String.concat "" (map descendantText r)).
        repeat split.
      + unfold removal_spec, querySelector, querySelectorAll in Hk.
        destruct (removeFirst sel k) as [k' |].
        * destruct Hk as (found & before & after & Hq & Ht & Ht').
          exists found, before, (after ++ String.concat "" (map descendantText r)).
          split; [| split].
          -- destruct (filter sel (descendants k)); [discriminate | exact Hq].
          -- rewrite Ht. now rewrite !append_assoc.
          -- cbn [map]. rewrite concat_cons, Ht'. now rewrite append_assoc.
        * rewrite Hk. cbn [app].
          destruct (go r) as [r' |]; cbn [option_map].
          -- destruct IHr as (found & before & after & Hq & Ht & Ht').
             exists found, (descendantText k ++ before), after.
             split; [exact Hq | split].
             ++ rewrite Ht. now rewrite !append_assoc.
             ++ cbn [map]. rewrite concat_cons, Ht'. now rewrite append_assoc.
          -- exact IHr. }
  destruct (go kids) as [kids' |]; cbn [option_map descendantText]; exact Hgo.
Qed.

Lemma cloneWithout_text sel n found :
  querySelector sel n = Some found ->
  exists before after,
    descendantText n = before ++ descendantText found ++ after /\
    descendantText (cloneWithout sel n) = before ++ after.
Proof.
  intros Hq. pose proof (removeFirst_spec sel n) as H.
  unfold removal_spec, cloneWithout in *.
  destruct (removeFirst sel n) as [n' |].
  - destruct H as (found' & before & after & Hq' & Ht & Ht').
    rewrite Hq in Hq'. inversion Hq'; subst. eauto.
  - unfold querySelector in Hq. rewrite H in Hq. discriminate.
Qed.

Lemma cloneWithout_elem sel t a c kids :
  exists kids', cloneWithout sel (Elem t a c kids) = Elem t a c kids'.
Proof.
  unfold cloneWithout. cbn [removeFirst].
  match goal with |- context [option_map _ ?g] => destruct g as [kids' |] end;
    cbn [option_map]; eauto.
Qed.

Lemma querySelector_sat sel n found :
  querySelector sel n = Some found -> sel found = true.
Proof.
  unfold querySelector, querySelectorAll. intros H.
  assert (Hin : In found (filter sel (descendants n))).
  { destruct (filter sel (descendants n)); inversion H; subst. now left. }
  apply filter_In in Hin. tauto.
Qed.

Lemma checkbox_textContent n :
  isCheckbox n = true -> textContent n = descendantText n.
Proof. destruct n; simpl; intros H; try discriminate; reflexivity. Qed.

(** ** List items *)

Lemma render_li opts pl a c kids :
  isBlank (Elem "li" a c kids) = false ->
  exists liContent,
    mapChildren (render numberPlus opts) [("li", a)] 0
                (children (cloneWithout isCheckbox (Elem "li" a c kids)))
    = Some liContent /\
    render numberPlus opts pl (Elem "li" a c kids) =
    Some (renderListItem numberPlus pl
            (querySelector isCheckbox (Elem "li" a c kids)) liContent).
Proof.
  intros Hb. rewrite render_element by exact Hb.
  destruct (renderChildren_total numberPlus (childOptions "li" opts)
              (("li", a) :: ancestors pl) 0 kids) as [cc ->].
  destruct (renderChildren_total numberPlus opts [("li", a)] 0
              (children (cloneWithout isCheckbox (Elem "li" a c kids))))
    as [lc Hlc].
  exists lc. split; [exact Hlc |].
  unfold switchTag. cbn [headingLevel String.eqb Ascii.eqb Bool.eqb tagIn existsb orb].
  rewrite Hlc. reflexivity.
Qed.

(** C3 (as amended). A list item that is not blank and has a checkbox
    among its descendants renders as its marker, then [[x] ] or [[ ] ] by
    the [checked] property of the first checkbox, then the body walked
    from the copy of the item without that checkbox (whose text is thus
    not in the body), then a line feed when a sibling follows and the body
    does not end in one. *)
Theorem task_list_item (opts : options) (pl : place)
        (a : attributes) (c : bool) (kids : list node) (checkbox : node) :
  isBlank (Elem "li" a c kids) = false ->
  querySelector isCheckbox (Elem "li" a c kids) = Some checkbox ->
  exists liContent before after,
    let liClone := cloneWithout isCheckbox (Elem "li" a c kids) in
    let body := indentContinuation (trimItemNewlines liContent) in
    textContent (Elem "li" a c kids) = before ++ textContent checkbox ++ after /\
    textContent liClone = before ++ after /\
    mapChildren (render numberPlus opts) [("li", a)] 0 (children liClone)
    = Some liContent /\
    render numberPlus opts pl (Elem "li" a c kids) =
    Some (itemPrefix numberPlus pl
          ++ (if nodeChecked checkbox then "[x] " else "[ ] ")
          ++ body
          ++ (if hasNextSibling pl && negb (endsWithNewline body) then nl else "")) /\
    render numberPlus opts (inList "ul" [] 0 true) (doneItem (checkboxInput true))
    = Some ("- [x] done" ++ nl) /\
    render numberPlus opts (inList "ul" [] 0 true) (doneItem (checkboxInput false))
    = Some ("- [ ] done" ++ nl) /\
    render numberPlus opts (inList "ul" [] 0 false) (doneItem (checkboxInput true))
    = Some "- [x] done" /\
    render numberPlus opts (inList "ul" [] 0 true)
      (doneItem (Elem "input" [("type", "checkbox")] true [Text "tick"]))
    = Some ("- [x] done" ++ nl).
Proof.
  intros Hb Hq.
  destruct (render_li opts pl a c kids Hb) as (lc & Hlc & Hr).
  destruct (cloneWithout_text isCheckbox _ _ Hq) as (before & after & Ht & Ht').
  exists lc, before, after. cbv zeta.
  split.
  { rewrite (checkbox_textContent _ (querySelector_sat _ _ _ Hq)). exact Ht. }
  split.
  { destruct (cloneWithout_elem isCheckbox "li" a c kids) as [kids' E].
    rewrite E in *. exact Ht'. }
  split; [exact Hlc |].
  split.
  { rewrite Hr, Hq. reflexivity. }
  destruct opts as [[|] [|]]; repeat split.
Qed.

(** ** Code *)

Lemma substring_all (s : string) : substring 0 (String.length s) s = s.
Proof. induction s as [| c s IH]; simpl; [reflexivity | now rewrite IH]. Qed.

Lemma takeWhile_token p tok rest :
  allChars p tok = true ->
  match rest with EmptyString => true | String c _ => negb (p c) end = true ->
  takeWhile p (tok ++ rest) = tok.
Proof.
  intros Htok Hrest.
  induction tok as [| c tok IH]; simpl in *.
  - destruct rest as [| d rest]; [reflexivity |].
    simpl. destruct (p d); [discriminate | reflexivity].
  - apply andb_true_iff in Htok. destruct Htok as [-> Htok].
    now rewrite IH.
Qed.

(** A class that starts with [language-], then a token without white
    space, then nothing or white space, names that token. *)
Lemma matchLanguage_token tok rest :
  isEmpty tok = false ->
  allChars notSpace tok = true ->
  match rest with EmptyString => true | String c _ => isWhiteSpace c end = true ->
  matchLanguage ("language-" ++ tok ++ rest) = Some tok.
Proof.
  intros Hne Htok Hrest.
  cbn [append matchLanguage startsWith Ascii.eqb Bool.eqb andb String.length Nat.sub substring].
  rewrite Nat.sub_0_r, substring_all.
  fold notSpace.
  rewrite (takeWhile_token notSpace tok rest Htok).
  - now rewrite Hne.
  - destruct rest; [reflexivity |]. unfold notSpace. now rewrite Hrest.
Qed.

Lemma render_pre opts pl a c kids :
  isBlank (Elem "pre" a c kids) = false ->
  exists childContent,
    mapChildren (render numberPlus (childOptions "pre" opts))
                (("pre", a) :: ancestors pl) 0 kids = Some childContent /\
    render numberPlus opts pl (Elem "pre" a c kids) =
    Some (renderPre (Elem "pre" a c kids) childContent).
Proof.
  intros Hb. rewrite render_element by exact Hb.
  destruct (renderChildren_total numberPlus (childOptions "pre" opts)
              (("pre", a) :: ancestors pl) 0 kids) as [cc ->].
  exists cc. split; reflexivity.
Qed.

(** C5 (as amended). A preformatted block that is not blank renders as a
    fence: three backticks and the language, a line feed, the trimmed
    code, a line feed, three backticks and a blank line.  With a code
    element among its descendants the language is the token that
    [language-<token>] captures in the class of the first one (empty when
    nothing is captured) and the code is the text of that element; with
    none the language is empty and the code is the rendered children. *)
Theorem pre_block_is_fenced (opts : options) (pl : place)
        (a : attributes) (c : bool) (kids : list node) :
  isBlank (Elem "pre" a c kids) = false ->
  exists childContent,
    mapChildren (render numberPlus (childOptions "pre" opts))
                (("pre", a) :: ancestors pl) 0 kids = Some childContent /\
    render numberPlus opts pl (Elem "pre" a c kids) =
    Some (match querySelector (hasTag ["code"]) (Elem "pre" a c kids) with
          | Some codeElement =>
              "```" ++ fenceLanguage codeElement ++ nl
                    ++ trim (textContent codeElement) ++ nl ++ "```" ++ nl ++ nl
          | None =>
              "```" ++ "" ++ nl ++ trim childContent ++ nl ++ "```" ++ nl ++ nl
          end) /\
    (forall token t' a' c' kids',
       isEmpty token = false -> allChars notSpace token = true ->
       fenceLanguage (Elem t' (("class", "language-" ++ token) :: a') c' kids')
       = token) /\
    (forall t' c' kids', fenceLanguage (Elem t' [] c' kids') = "") /\
    render numberPlus opts pl pythonBlock =
    Some ("```python" ++ nl ++ "print(1)" ++ nl ++ "```" ++ nl ++ nl).
Proof.
  intros Hb.
  destruct (render_pre opts pl a c kids Hb) as (cc & Hcc & Hr).
  exists cc. split; [exact Hcc |].
  split.
  { rewrite Hr. unfold renderPre, fenceLanguage, classOf.
    destruct (querySelector (hasTag ["code"]) (Elem "pre" a c kids)) as [ce |].
    - destruct ce as [d | d | t' a' c' kids']; reflexivity.
    - reflexivity. }
  split.
  { intros token t' a' c' kids' Hne Htok. unfold fenceLanguage, classOf.
    cbn [getAttribute String.eqb Ascii.eqb Bool.eqb].
    rewrite <- (append_empty_r token) at 1.
    rewrite (matchLanguage_token token "" Hne Htok eq_refl). reflexivity. }
  split; [reflexivity |].
  destruct opts as [[|] [|]]; reflexivity.
Qed.

Lemma render_code opts pl a c kids :
  isBlank (Elem "code" a c kids) = false ->
  exists childContent,
    mapChildren (render numberPlus (childOptions "code" opts))
                (("code", a) :: ancestors pl) 0 kids = Some childContent /\
    render numberPlus opts pl (Elem "code" a c kids) =
    Some (if parentTagIs "pre" pl then childContent
          else renderInlineCode childContent).
Proof.
  intros Hb. rewrite render_element by exact Hb.
  destruct (renderChildren_total numberPlus (childOptions "code" opts)
              (("code", a) :: ancestors pl) 0 kids) as [cc ->].
  exists cc. split; [reflexivity |].
  unfold switchTag. cbn [headingLevel String.eqb Ascii.eqb Bool.eqb tagIn existsb orb].
  destruct (parentTagIs "pre" pl); reflexivity.
Qed.

Lemma newlinesToSpaces_no_newline s :
  anyChar isLineTerminator (newlinesToSpaces s) = false.
Proof.
  assert (H : forall n s, String.length s <= n ->
                          anyChar isLineTerminator (newlinesToSpaces s) = false).
  { clear s. induction n as [| n IH]; intros s Hlen.
    - destruct s; [reflexivity | simpl in Hlen; lia].
    - destruct s as [| ch r]; [reflexivity |].
      simpl in Hlen. cbn [newlinesToSpaces].
      destruct (Ascii.eqb ch CR) eqn:Ecr.
      + destruct r as [| d r']; [reflexivity |].
        simpl in Hlen.
        destruct (Ascii.eqb d LF); cbn [anyChar]; rewrite IH; simpl; try lia;
          reflexivity.
      + destruct (Ascii.eqb ch LF) eqn:Elf; cbn [anyChar].
        * rewrite IH by lia. reflexivity.
        * rewrite IH by lia. unfold isLineTerminator. now rewrite Ecr, Elf. }
  apply (H (String.length s)). lia.
Qed.

(** C6 (as amended). A code element that is not blank and whose parent is
    not a preformatted block renders, from its children walked as code, to
    the empty string when they give nothing, and otherwise to their text
    with every line break turned into a space, between delimiters of two
    backticks when that text has a backtick and of one otherwise, with one
    space inside each delimiter exactly when the text starts or ends with
    a backtick or a space. *)
Theorem inline_code_is_delimited (opts : options) (pl : place)
        (a : attributes) (c : bool) (kids : list node) :
  isBlank (Elem "code" a c kids) = false ->
  parentTagIs "pre" pl = false ->
  exists content,
    mapChildren (render numberPlus {| isCode := true; noEscape := noEscape opts |})
                (("code", a) :: ancestors pl) 0 kids = Some content /\
    let inline := newlinesToSpaces content in
    let delimiter := if anyChar (Ascii.eqb BACKTICK) inline then "``" else "`" in
    let padding :=
      if charIs BACKTICK (firstChar inline) || charIs " " (firstChar inline)
         || charIs BACKTICK (lastChar inline) || charIs " " (lastChar inline)
      then " " else "" in
    anyChar isLineTerminator inline = false /\
    render numberPlus opts pl (Elem "code" a c kids) =
    Some (if isEmpty content then ""
          else delimiter ++ padding ++ inline ++ padding ++ delimiter).
Proof.
  intros Hb Hp.
  destruct (render_code opts pl a c kids Hb) as (cc & Hcc & Hr).
  exists cc. split.
  { rewrite <- Hcc. unfold childOptions. cbn [String.eqb Ascii.eqb Bool.eqb].
    now rewrite orb_true_r. }
  cbv zeta. split; [apply newlinesToSpaces_no_newline |].
  rewrite Hr, Hp. reflexivity.
Qed.

End Claims.

(** ** The statements at concrete trees *)

Lemma blank_element_renders_empty_witness :
  processNode numberPlusIndex 1 plain detached (Elem "strong" [] false [Text " "])
  = Some "" /\
  render numberPlusIndex plain detached (Elem "strong" [] false [Text " "])
  = Some "".
Proof.
  destruct (blank_element_renders_empty numberPlusIndex 0 plain detached
              "strong" [] false [Text " "] eq_refl eq_refl) as (H1 & H2 & _).
  split; [exact H1 | exact H2].
Defined.

Lemma table_rows_without_body_witness :
  tableRows directTable = ["| A | B |"; "| --- | --- |"; "| 1 | 2 |"] /\
  convertTableToMarkdown directTable =
  "| A | B |" ++ nl ++ "| --- | --- |" ++ nl ++ "| 1 | 2 |" ++ nl ++ nl.
Proof.
  destruct (table_rows_without_body directTable eq_refl) as (H1 & H2).
  split.
  - rewrite H1. reflexivity.
  - rewrite H2, H1. reflexivity.
Defined.

Lemma table_without_rows_witness :
  convertTableToMarkdown emptyTable = nl ++ nl /\
  render numberPlusIndex plain detached emptyTable = Some "".
Proof.
  exact (table_without_rows numberPlusIndex plain detached [] false [] eq_refl).
Defined.

Lemma task_list_item_witness :
  exists liContent,
    mapChildren (render numberPlusIndex plain) [("li", [])] 0
                (children (cloneWithout isCheckbox (doneItem (checkboxInput true))))
    = Some liContent /\
    render numberPlusIndex plain (inList "ul" [] 0 true)
           (doneItem (checkboxInput true))
    = Some ("- " ++ "[x] " ++ indentContinuation (trimItemNewlines liContent)
            ++ (if negb (endsWithNewline
                           (indentContinuation (trimItemNewlines liContent)))
                then nl else "")).
Proof.
  destruct (task_list_item numberPlusIndex plain (inList "ul" [] 0 true)
              [] false [checkboxInput true; Text "done"] (checkboxInput true)
              eq_refl eq_refl)
    as (liContent & before & after & _ & _ & Hc & Hr & _).
  exists liContent. split; [exact Hc | exact Hr].
Defined.

Lemma pre_block_is_fenced_witness :
  exists childContent,
    mapChildren (render numberPlusIndex (childOptions "pre" plain))
                [("pre", [])] 0 (children pythonBlock) = Some childContent /\
    render numberPlusIndex plain detached pythonBlock =
    Some ("```" ++ "python" ++ nl ++ "print(1)" ++ nl ++ "```" ++ nl ++ nl).
Proof.
  destruct (pre_block_is_fenced numberPlusIndex plain detached [] false
              [el "code" [("class", "language-python")] [Text "print(1)"]]
              eq_refl)
    as (childContent & Hc & Hr & _).
  exists childContent. split; [exact Hc | exact Hr].
Defined.

Lemma inline_code_is_delimited_witness :
  exists content,
    mapChildren (render numberPlusIndex {| isCode := true; noEscape := false |})
                [("code", [])] 0 [Text "a`b "] = Some content /\
    render numberPlusIndex plain detached (Elem "code" [] false [Text "a`b "]) =
    Some (if isEmpty content then ""
          else (if anyChar (Ascii.eqb BACKTICK) (newlinesToSpaces content)
                then "``" else "`")
               ++ (if charIs BACKTICK (firstChar (newlinesToSpaces content))
                      || charIs " " (firstChar (newlinesToSpaces content))
                      || charIs BACKTICK (lastChar (newlinesToSpaces content))
                      || charIs " " (lastChar (newlinesToSpaces content))
                   then " " else "")
               ++ newlinesToSpaces content
               ++ (if charIs BACKTICK (firstChar (newlinesToSpaces content))
                      || charIs " " (firstChar (newlinesToSpaces content))
                      || charIs BACKTICK (lastChar (newlinesToSpaces content))
                      || charIs " " (lastChar (newlinesToSpaces content))
                   then " " else "")
               ++ (if anyChar (Ascii.eqb BACKTICK) (newlinesToSpaces content)
                   then "``" else "`")).
Proof.
  destruct (inline_code_is_delimited numberPlusIndex plain detached [] false
              [Text "a`b "] eq_refl eq_refl)
    as (content & Hc & _ & Hr).
  exists content. split; [exact Hc | exact Hr].
Defined.

(** ** Where the specification and the script part *)

(** C3 fails on a task item that holds only its checkbox: the item is
    blank, so nothing is rendered, not even the marker and the task
    prefix. *)
Lemma empty_task_item_renders_nothing :
  querySelector isCheckbox emptyTaskItem = Some (checkboxInput true) /\
  render numberPlusIndex plain (inList "ul" [] 0 true) emptyTaskItem = Some "" /\
  (forall body tail,
     render numberPlusIndex plain (inList "ul" [] 0 true) emptyTaskItem
     <> Some ("- " ++ "[x] " ++ body ++ tail)).
Proof.
  split; [reflexivity |]. split; [reflexivity |].
  intros body tail H. discriminate H.
Qed.

(** C5 fails on a preformatted block whose code is white space: the block
    is blank and renders to nothing instead of an empty fence. *)
Lemma blank_pre_renders_nothing :
  querySelector (hasTag ["code"]) blankPre = Some blankCode /\
  fenceLanguage blankCode = "python" /\
  render numberPlusIndex plain detached blankPre = Some "" /\
  render numberPlusIndex plain detached blankPre
  <> Some ("```" ++ "python" ++ nl ++ trim (textContent blankCode) ++ nl
           ++ "```" ++ nl ++ nl).
Proof.
  repeat split; intros H; discriminate H.
Qed.

(** C6 fails on a code element that holds one space: its content is not
    empty, yet the element is blank and renders to nothing. *)
Lemma blank_code_renders_nothing :
  mapChildren (render numberPlusIndex {| isCode := true; noEscape := false |})
              [("code", [])] 0 (children spaceCode) = Some " " /\
  renderInlineCode " " = "`   `" /\
  render numberPlusIndex plain detached spaceCode = Some "" /\
  render numberPlusIndex plain detached spaceCode
  <> Some (renderInlineCode " ").
Proof.
  repeat split; intros H; discriminate H.
Qed.

(** C9 fails on the table without rows: the table renderer returns the
    closing blank line, and so does the walker when the table is not
    blank. *)
Lemma empty_table_renders_blank_line :
  tableRows emptyTable = [] /\
  convertTableToMarkdown emptyTable = nl ++ nl /\
  convertTableToMarkdown emptyTable <> "" /\
  tableRows captionTable = [] /\
  render numberPlusIndex plain detached captionTable = Some (nl ++ nl) /\
  render numberPlusIndex plain detached captionTable <> Some "".
Proof.
  repeat split; intros H; discriminate H.
Qed.

(** * Further properties of the script *)

(** ** Runs of white space *)

Lemma noAdjacent_tail pa pb x r :
  noAdjacent pa pb (String x r) = true -> noAdjacent pa pb r = true.
Proof.
  intros H. change (noAdjacent pa pb (String x r))
    with (match r with
          | String y _ => negb (pa x && pb y)
          | EmptyString => true
          end && noAdjacent pa pb r) in H.
  apply andb_true_iff in H. apply H.
Qed.

Lemma noAdjacent_head pa pb x y t :
  noAdjacent pa pb (String x (String y t)) = true -> pa x && pb y = false.
Proof.
  intros H. change (noAdjacent pa pb (String x (String y t)))
    with (negb (pa x && pb y) && noAdjacent pa pb (String y t)) in H.
  apply andb_true_iff in H. now apply negb_true_iff.
Qed.

Lemma replaceRuns_invariant (p : ascii -> bool) (x : ascii) :
  p x = true ->
  forall s inRun,
    noAdjacent p p (replaceRuns p (String x "") inRun s) = true /\
    allChars (fun c => negb (p c) || Ascii.eqb c x)
             (replaceRuns p (String x "") inRun s) = true /\
    (inRun = true ->
     match firstChar (replaceRuns p (String x "") inRun s) with
     | Some c => p c = false
     | None => True
     end).
Proof.
  intros Hsp. induction s as [| c r IH]; intros inRun.
  - repeat split.
  - cbn [replaceRuns]. destruct (p c) eqn:Ec.
    + destruct inRun.
      * apply IH.
      * destruct (IH true) as (I1 & I2 & I3). specialize (I3 eq_refl).
        cbn [append noAdjacent allChars]. rewrite I1, I2, Hsp, Ascii.eqb_refl.
        split; [| split; [reflexivity | discriminate]].
        destruct (replaceRuns p (String x "") true r) as [| y t]; [reflexivity |].
        cbn [firstChar] in I3. rewrite I3. reflexivity.
    + destruct (IH false) as (I1 & I2 & _).
      cbn [noAdjacent allChars firstChar]. rewrite I1, I2, Ec.
      split; [| split; [reflexivity | intros _; reflexivity]].
      destruct (replaceRuns p (String x "") false r); reflexivity.
Qed.

Lemma replaceRuns_fixed (p : ascii -> bool) (x : ascii) :
  forall s inRun,
    noAdjacent p p s = true ->
    allChars (fun c => negb (p c) || Ascii.eqb c x) s = true ->
    (inRun = true -> match firstChar s with Some c => p c = false | None => True end) ->
    replaceRuns p (String x "") inRun s = s.
Proof.
  induction s as [| c r IH]; intros inRun Hadj Hall Hfirst; [reflexivity |].
  pose proof (noAdjacent_tail _ _ _ _ Hadj) as Hadj'.
  cbn [allChars] in Hall.
  apply andb_true_iff in Hall. destruct Hall as [Hc Hall].
  cbn [replaceRuns]. destruct (p c) eqn:Ec.
  - cbn [negb orb] in Hc. apply Ascii.eqb_eq in Hc. subst c.
    destruct inRun; [specialize (Hfirst eq_refl); cbn in Hfirst; congruence |].
    cbn [append]. f_equal. apply IH; try assumption.
    intros _. destruct r as [| y t]; [exact I |].
    pose proof (noAdjacent_head _ _ _ _ _ Hadj) as Hy.
    rewrite Ec in Hy. exact Hy.
  - f_equal. apply IH; try assumption. discriminate.
Qed.

Lemma replaceRuns_allChars (p q : ascii -> bool) (x : ascii) :
  q x = true ->
  forall s inRun, allChars q s = true ->
                  allChars q (replaceRuns p (String x "") inRun s) = true.
Proof.
  intros Hx. induction s as [| c r IH]; intros inRun H; [reflexivity |].
  cbn [allChars] in H. apply andb_true_iff in H. destruct H as [Hc H].
  cbn [replaceRuns]. destruct (p c); [destruct inRun |];
    cbn [append allChars]; rewrite ?Hx, ?Hc; apply IH; exact H.
Qed.

Lemma collapsed_shape (text : string) :
  allChars (fun c => negb (isBreak c)) (collapseWhitespace text false) = true /\
  noAdjacent isSpace isSpace (collapseWhitespace text false) = true.
Proof.
  unfold collapseWhitespace.
  destruct (replaceRuns_invariant isCollapsible " " eq_refl text false) as (H1 & H2 & _).
  split.
  - revert H2. generalize (replaceRuns isCollapsible " " false text).
    induction s as [| c r IH]; [reflexivity |].
    cbn [allChars]. intros H. apply andb_true_iff in H. destruct H as [Hc H].
    rewrite (IH H), andb_true_r.
    unfold isCollapsible, isBreak in *.
    destruct (Ascii.eqb c " ") eqn:E1.
    + apply Ascii.eqb_eq in E1. subst c. reflexivity.
    + cbn [orb] in Hc. rewrite orb_false_r in Hc. exact Hc.
  - revert H1. generalize (replaceRuns isCollapsible " " false text).
    induction s as [| c r IH]; [reflexivity |].
    cbn [noAdjacent]. intros H. apply andb_true_iff in H. destruct H as [Hc H].
    rewrite (IH H), andb_true_r.
    destruct r as [| y t]; [reflexivity |].
    unfold isSpace, isCollapsible in *.
    destruct (Ascii.eqb c " "); [| reflexivity].
    destruct (Ascii.eqb y " "); [| reflexivity].
    discriminate Hc.
Qed.

(** X1. By default [collapseWhitespace] returns a text without tab,
    carriage return or line feed and without two spaces in a row, and
    collapsing such a text again changes nothing. *)
Theorem collapseWhitespace_normal (text : string) :
  allChars (fun c => negb (isBreak c)) (collapseWhitespace text false) = true /\
  noAdjacent isSpace isSpace (collapseWhitespace text false) = true /\
  collapseWhitespace (collapseWhitespace text false) false
  = collapseWhitespace text false.
Proof.
  destruct (collapsed_shape text) as [H1 H2].
  split; [exact H1 |]. split; [exact H2 |].
  unfold collapseWhitespace.
  destruct (replaceRuns_invariant isCollapsible " " eq_refl text false) as (A1 & A2 & _).
  apply replaceRuns_fixed; [exact A1 | exact A2 | discriminate].
Qed.

(** ** Parts of a string *)

Lemma noAdjacent_app pa pb u v :
  noAdjacent pa pb (u ++ v) = true ->
  noAdjacent pa pb u = true /\ noAdjacent pa pb v = true.
Proof.
  induction u as [| x u IH]; cbn [append]; intros H.
  - split; [reflexivity | exact H].
  - cbn [noAdjacent] in *. apply andb_true_iff in H. destruct H as [Hx H].
    destruct (IH H) as [Hu Hv]. rewrite Hu. split; [| exact Hv].
    rewrite andb_true_r. destruct u as [| y u']; [reflexivity | exact Hx].
Qed.

Lemma noTripleNewline_app u v :
  noTripleNewline (u ++ v) = true ->
  noTripleNewline u = true /\ noTripleNewline v = true.
Proof.
  induction u as [| x u IH]; cbn [append]; intros H.
  - split; [reflexivity | exact H].
  - cbn [noTripleNewline] in *. apply andb_true_iff in H. destruct H as [Hx H].
    destruct (IH H) as [Hu Hv]. rewrite Hu. split; [| exact Hv].
    rewrite andb_true_r.
    destruct u as [| y [| z u']]; try reflexivity. exact Hx.
Qed.

Lemma allChars_app p u v :
  allChars p (u ++ v) = allChars p u && allChars p v.
Proof.
  induction u as [| x u IH]; cbn [append allChars]; [reflexivity |].
  now rewrite IH, andb_assoc.
Qed.

Lemma dropWhile_suffix p s : exists u, s = u ++ dropWhile p s.
Proof.
  induction s as [| c r [u Hu]]; [exists ""; reflexivity |].
  cbn [dropWhile]. destruct (p c).
  - exists (String c u). cbn [append]. now f_equal.
  - exists "". reflexivity.
Qed.

Lemma dropWhileEnd_prefix p s : exists v, s = dropWhileEnd p s ++ v.
Proof.
  induction s as [| c r [v Hv]]; [exists ""; reflexivity |].
  cbn [dropWhileEnd].
  destruct (p c && isEmpty (dropWhileEnd p r)).
  - exists (String c r). reflexivity.
  - exists v. cbn [append]. now f_equal.
Qed.

Lemma trim_part s : exists u v, s = u ++ trim s ++ v.
Proof.
  unfold trim.
  destruct (dropWhile_suffix isWhiteSpace s) as [u Hu].
  destruct (dropWhileEnd_prefix isWhiteSpace (dropWhile isWhiteSpace s)) as [v Hv].
  exists u, v. now rewrite <- Hv.
Qed.

Lemma dropWhile_first p s :
  match firstChar (dropWhile p s) with Some c => p c = false | None => True end.
Proof.
  induction s as [| c r IH]; [exact I |].
  cbn [dropWhile]. destruct (p c) eqn:E; [exact IH | exact E].
Qed.

Lemma dropWhileEnd_ends p s :
  firstChar (dropWhileEnd p s)
  = (if isEmpty (dropWhileEnd p s) then None else firstChar s) /\
  match lastChar (dropWhileEnd p s) with Some c => p c = false | None => True end.
Proof.
  induction s as [| c r [IH1 IH2]]; [split; [reflexivity | exact I] |].
  cbn [dropWhileEnd].
  destruct (p c && isEmpty (dropWhileEnd p r)) eqn:E.
  - split; [reflexivity | exact I].
  - split; [reflexivity |].
    cbn [lastChar]. destruct (dropWhileEnd p r) as [| y t] eqn:Er.
    + cbn [isEmpty] in E. rewrite andb_true_r in E. exact E.
    + exact IH2.
Qed.

Lemma trim_isTrimmed s : isTrimmed (trim s) = true.
Proof.
  unfold isTrimmed, trim.
  destruct (dropWhileEnd_ends isWhiteSpace (dropWhile isWhiteSpace s)) as [H1 H2].
  pose proof (dropWhile_first isWhiteSpace s) as H3.
  rewrite H1.
  destruct (isEmpty (dropWhileEnd isWhiteSpace (dropWhile isWhiteSpace s))) eqn:E.
  - destruct (dropWhileEnd isWhiteSpace (dropWhile isWhiteSpace s)); [reflexivity | discriminate].
  - destruct (firstChar (dropWhile isWhiteSpace s)) as [c |].
    + rewrite H3. cbn [negb andb].
      destruct (lastChar _) as [d |]; [now rewrite H2 | reflexivity].
    + destruct (lastChar _) as [d |]; [now rewrite H2 | reflexivity].
Qed.

Lemma dropWhile_fixed p s :
  match firstChar s with Some c => p c = false | None => True end ->
  dropWhile p s = s.
Proof. destruct s as [| c r]; cbn; intros H; [reflexivity | now rewrite H]. Qed.

Lemma dropWhileEnd_fixed p s :
  match lastChar s with Some c => p c = false | None => True end ->
  dropWhileEnd p s = s.
Proof.
  induction s as [| c r IH]; [reflexivity |].
  cbn [lastChar dropWhileEnd]. destruct r as [| y t].
  - intros H. cbn. now rewrite H.
  - intros H. rewrite (IH H). cbn [isEmpty]. now rewrite andb_false_r.
Qed.

Lemma trim_fixed s : isTrimmed s = true -> trim s = s.
Proof.
  unfold isTrimmed, trim. intros H. apply andb_true_iff in H. destruct H as [H1 H2].
  rewrite dropWhile_fixed.
  - apply dropWhileEnd_fixed. destruct (lastChar s); [| exact I].
    now apply negb_true_iff.
  - destruct (firstChar s); [| exact I]. now apply negb_true_iff.
Qed.

(** ** Capping runs of line feeds *)

Lemma newlines_shift k r :
  repeatString nl k ++ String LF r = String LF (repeatString nl k ++ r).
Proof.
  induction k as [| k IH]; [reflexivity |].
  cbn [repeatString nl append]. now rewrite IH.
Qed.

Lemma noTriple_before_other x c t :
  Ascii.eqb c LF = false ->
  noTripleNewline (String c t) = true ->
  noTripleNewline (String x (String c t)) = true.
Proof.
  intros Ec H.
  change (noTripleNewline (String x (String c t)))
    with (match t with
          | String z _ => negb (Ascii.eqb x LF && Ascii.eqb c LF && Ascii.eqb z LF)
          | EmptyString => true
          end && noTripleNewline (String c t)).
  rewrite H, Ec, andb_true_r. destruct t; [reflexivity |].
  now rewrite andb_false_r.
Qed.

Lemma noTriple_before_two x y c t :
  Ascii.eqb c LF = false ->
  noTripleNewline (String y (String c t)) = true ->
  noTripleNewline (String x (String y (String c t))) = true.
Proof.
  intros Ec H.
  change (noTripleNewline (String x (String y (String c t))))
    with (negb (Ascii.eqb x LF && Ascii.eqb y LF && Ascii.eqb c LF)
          && noTripleNewline (String y (String c t))).
  rewrite H, Ec, andb_true_r. now rewrite andb_false_r.
Qed.

Lemma capNewlines_bound s : forall k,
  noTripleNewline (repeatString nl (Nat.min k 2) ++ capNewlines k s) = true.
Proof.
  induction s as [| c r IH]; intros k.
  - assert (Hm : Nat.min k 2 <= 2) by lia.
    cbn [capNewlines]. destruct (Nat.min k 2) as [| [| [| m]]]; try lia; reflexivity.
  - cbn [capNewlines]. destruct (Ascii.eqb c LF) eqn:Ec.
    + apply Ascii.eqb_eq in Ec. subst c.
      destruct (2 <=? k) eqn:Ek.
      * apply Nat.leb_le in Ek. specialize (IH (S k)).
        replace (Nat.min (S k) 2) with 2 in IH by lia.
        replace (Nat.min k 2) with 2 by lia. exact IH.
      * apply Nat.leb_gt in Ek. specialize (IH (S k)).
        replace (Nat.min (S k) 2) with (S k) in IH by lia.
        replace (Nat.min k 2) with k by lia.
        rewrite newlines_shift. exact IH.
    + specialize (IH 0). cbn [Nat.min repeatString append] in IH.
      assert (Hc : noTripleNewline (String c (capNewlines 0 r)) = true).
      { cbn [noTripleNewline]. rewrite IH, Ec.
        destruct (capNewlines 0 r) as [| y [| z t]]; reflexivity. }
      assert (Hm : Nat.min k 2 <= 2) by lia.
      destruct (Nat.min k 2) as [| [| [| m]]]; try lia;
        cbn [repeatString nl append].
      * exact Hc.
      * now apply noTriple_before_other.
      * apply noTriple_before_two; [exact Ec |].
        now apply noTriple_before_other.
Qed.

Lemma capNewlines_noTriple s : noTripleNewline (capNewlines 0 s) = true.
Proof. exact (capNewlines_bound s 0). Qed.

Lemma capNewlines_fixed s : forall k,
  k <= 2 ->
  noTripleNewline (repeatString nl k ++ s) = true ->
  capNewlines k s = s.
Proof.
  induction s as [| c r IH]; intros k Hk H; [reflexivity |].
  cbn [capNewlines]. destruct (Ascii.eqb c LF) eqn:Ec.
  - apply Ascii.eqb_eq in Ec. subst c.
    destruct (2 <=? k) eqn:Ek.
    + apply Nat.leb_le in Ek. assert (k = 2) by lia. subst k.
      cbn in H. discriminate H.
    + apply Nat.leb_gt in Ek. f_equal. apply IH; [lia |].
      cbn [repeatString nl append]. rewrite newlines_shift in H. exact H.
  - f_equal. apply IH; [lia |].
    apply noTripleNewline_app in H. destruct H as [_ H].
    cbn [noTripleNewline] in H. apply andb_true_iff in H. apply H.
Qed.

(** A dropped line feed follows a line feed, so no new neighbours arise. *)
Lemma capNewlines_adjacent pa pb s : forall k prev,
  (0 < k -> prev = LF) ->
  noAdjacent pa pb (String prev s) = true ->
  noAdjacent pa pb (String prev (capNewlines k s)) = true.
Proof.
  induction s as [| c r IH]; intros k prev Hk H; [exact H |].
  cbn [capNewlines]. destruct (Ascii.eqb c LF) eqn:Ec.
  - apply Ascii.eqb_eq in Ec. subst c.
    destruct (2 <=? k) eqn:Ek.
    + apply Nat.leb_le in Ek. rewrite (Hk ltac:(lia)) in *.
      apply IH; [reflexivity |].
      cbn [noAdjacent] in H. apply andb_true_iff in H. apply H.
    + cbn [noAdjacent] in *. apply andb_true_iff in H. destruct H as [H1 H2].
      rewrite H1. apply (IH (S k) LF); [reflexivity | exact H2].
  - cbn [noAdjacent] in *. apply andb_true_iff in H. destruct H as [H1 H2].
    rewrite H1. apply (IH 0 c); [lia | exact H2].
Qed.

Lemma capNewlines_noAdjacent pa pb s :
  noAdjacent pa pb s = true -> noAdjacent pa pb (capNewlines 0 s) = true.
Proof.
  intros H. destruct s as [| c r]; [reflexivity |].
  cbn [capNewlines]. destruct (Ascii.eqb c LF) eqn:Ec; cbn [Nat.leb].
  - apply Ascii.eqb_eq in Ec. subst c.
    apply (capNewlines_adjacent pa pb r 1 LF); [reflexivity | exact H].
  - apply (capNewlines_adjacent pa pb r 0 c); [lia | exact H].
Qed.

Lemma capNewlines_allChars p s : forall k,
  allChars p s = true -> allChars p (capNewlines k s) = true.
Proof.
  induction s as [| c r IH]; intros k H; [reflexivity |].
  cbn [allChars] in H. apply andb_true_iff in H. destruct H as [Hc H].
  cbn [capNewlines].
  destruct (Ascii.eqb c LF); [destruct (2 <=? k) |];
    cbn [allChars]; rewrite ?Hc; apply IH; exact H.
Qed.

Lemma allChars_weaken (p q : ascii -> bool) s :
  (forall c, p c = true -> q c = true) ->
  allChars p s = true -> allChars q s = true.
Proof.
  intros Hpq. induction s as [| c r IH]; [reflexivity |].
  cbn [allChars]. intros H. apply andb_true_iff in H. destruct H as [Hc H].
  now rewrite (Hpq c Hc), IH.
Qed.

Lemma noAdjacent_weaken (pa pb qa qb : ascii -> bool) s :
  (forall c, qa c = true -> pa c = true) ->
  (forall c, qb c = true -> pb c = true) ->
  noAdjacent pa pb s = true -> noAdjacent qa qb s = true.
Proof.
  intros Ha Hb. induction s as [| x r IH]; [reflexivity |].
  cbn [noAdjacent]. intros H. apply andb_true_iff in H. destruct H as [Hx H].
  rewrite (IH H), andb_true_r. destruct r as [| y t]; [reflexivity |].
  destruct (qa x) eqn:Ea; [| reflexivity].
  destruct (qb y) eqn:Eb; [| reflexivity].
  now rewrite (Ha x Ea), (Hb y Eb) in Hx.
Qed.

Lemma cleanupMarkdown_noTriple markdown :
  noTripleNewline (cleanupMarkdown markdown) = true.
Proof.
  unfold cleanupMarkdown.
  destruct (trim_part (capNewlines 0 markdown)) as (u & v & E).
  pose proof (capNewlines_noTriple markdown) as H. rewrite E in H.
  apply noTripleNewline_app in H. destruct H as [_ H].
  apply noTripleNewline_app in H. apply H.
Qed.

Lemma cleanupMarkdown_fixed markdown :
  cleanupMarkdown (cleanupMarkdown markdown) = cleanupMarkdown markdown.
Proof.
  pose proof (cleanupMarkdown_noTriple markdown) as Ht.
  unfold cleanupMarkdown in *.
  rewrite (capNewlines_fixed _ 0); [| lia | exact Ht].
  apply trim_fixed, trim_isTrimmed.
Qed.

(** X15. [cleanupMarkdown] returns a text without white space at either
    end and without three line feeds in a row, and cleaning that text again
    changes nothing. *)
Theorem cleanupMarkdown_normal (markdown : string) :
  isTrimmed (cleanupMarkdown markdown) = true /\
  noTripleNewline (cleanupMarkdown markdown) = true /\
  cleanupMarkdown (cleanupMarkdown markdown) = cleanupMarkdown markdown.
Proof.
  split; [apply trim_isTrimmed |].
  split; [apply cleanupMarkdown_noTriple | apply cleanupMarkdown_fixed].
Qed.

Lemma tab_is_not_kept c :
  negb (isSpaceOrTab c) || Ascii.eqb c " " = true -> negb (Ascii.eqb c TAB) = true.
Proof.
  unfold isSpaceOrTab. destruct (Ascii.eqb c TAB) eqn:E; [| reflexivity].
  apply Ascii.eqb_eq in E. subst c. discriminate.
Qed.

Lemma space_is_blank c : isSpace c = true -> isSpaceOrTab c = true.
Proof. unfold isSpace, isSpaceOrTab. now intros ->. Qed.

(** X2. With [preserveNewlines] the text returned has no tab, no two
    spaces in a row and no three line feeds in a row, and collapsing it
    again changes nothing. *)
Theorem collapseWhitespace_preserving (text : string) :
  allChars (fun c => negb (Ascii.eqb c TAB)) (collapseWhitespace text true) = true /\
  noAdjacent isSpace isSpace (collapseWhitespace text true) = true /\
  noTripleNewline (collapseWhitespace text true) = true /\
  collapseWhitespace (collapseWhitespace text true) true
  = collapseWhitespace text true.
Proof.
  unfold collapseWhitespace.
  destruct (replaceRuns_invariant isSpaceOrTab " " eq_refl text false) as (H1 & H2 & _).
  set (s := replaceRuns isSpaceOrTab " " false text) in *.
  pose proof (capNewlines_noAdjacent _ _ _ H1) as A1.
  pose proof (capNewlines_allChars _ _ 0 H2) as A2.
  pose proof (capNewlines_noTriple s) as A3.
  split; [| split; [| split]].
  - apply (allChars_weaken _ _ _ tab_is_not_kept A2).
  - apply (noAdjacent_weaken _ _ _ _ _ space_is_blank space_is_blank A1).
  - exact A3.
  - rewrite (replaceRuns_fixed isSpaceOrTab " " _ false A1 A2); [| discriminate].
    apply capNewlines_fixed; [lia | exact A3].
Qed.

(** ** Spaces around line feeds *)

Lemma dropSpacesAfterNewline_keeps pa pb :
  pa LF = false ->
  forall s st,
    noAdjacent pa pb s = true ->
    noAdjacent pa pb (dropSpacesAfterNewline st s) = true /\
    (st = false -> firstChar (dropSpacesAfterNewline st s) = firstChar s).
Proof.
  intros Hlf. induction s as [| c r IH]; intros st H; [split; reflexivity |].
  cbn [noAdjacent] in H. apply andb_true_iff in H. destruct H as [Hc H].
  cbn [dropSpacesAfterNewline].
  destruct (st && isSpaceOrTab c) eqn:E.
  - apply andb_true_iff in E. destruct E as [-> _].
    split; [apply (IH true H) | discriminate].
  - split; [| reflexivity].
    destruct (IH (Ascii.eqb c LF) H) as [I1 I2].
    cbn [noAdjacent]. rewrite I1, andb_true_r.
    destruct (Ascii.eqb c LF) eqn:Ec.
    + apply Ascii.eqb_eq in Ec. subst c. rewrite Hlf.
      now destruct (dropSpacesAfterNewline true r).
    + specialize (I2 eq_refl).
      destruct (dropSpacesAfterNewline false r) as [| y t]; [reflexivity |].
      destruct r as [| y' t']; [discriminate I2 |].
      cbn [firstChar] in I2. inversion I2; subst. exact Hc.
Qed.

Lemma dropSpacesAfterNewline_makes s : forall st,
  noAdjacent isLF isSpaceOrTab (dropSpacesAfterNewline st s) = true /\
  (st = true ->
   match firstChar (dropSpacesAfterNewline st s) with
   | Some c => isSpaceOrTab c = false
   | None => True
   end).
Proof.
  induction s as [| c r IH]; intros st; [split; [reflexivity | intros _; exact I] |].
  cbn [dropSpacesAfterNewline].
  destruct (st && isSpaceOrTab c) eqn:E.
  - apply andb_true_iff in E. destruct E as [-> _]. apply IH.
  - destruct (IH (Ascii.eqb c LF)) as [I1 I2].
    split.
    + cbn [noAdjacent]. rewrite I1, andb_true_r. unfold isLF at 1.
      destruct (Ascii.eqb c LF); [| now destruct (dropSpacesAfterNewline false r)].
      specialize (I2 eq_refl).
      destruct (dropSpacesAfterNewline true r); [reflexivity |].
      cbn [firstChar] in I2. now rewrite I2.
    + intros ->. cbn [andb] in E. exact E.
Qed.

Lemma dropSpacesAfterNewline_allChars p s : forall st,
  allChars p s = true -> allChars p (dropSpacesAfterNewline st s) = true.
Proof.
  induction s as [| c r IH]; intros st H; [reflexivity |].
  cbn [allChars] in H. apply andb_true_iff in H. destruct H as [Hc H].
  cbn [dropSpacesAfterNewline].
  destruct (st && isSpaceOrTab c); cbn [allChars]; rewrite ?Hc; apply IH; exact H.
Qed.

Lemma dropSpacesAfterNewline_fixed s : forall st,
  noAdjacent isLF isSpaceOrTab s = true ->
  (st = true -> match firstChar s with
                | Some c => isSpaceOrTab c = false
                | None => True
                end) ->
  dropSpacesAfterNewline st s = s.
Proof.
  induction s as [| c r IH]; intros st H Hst; [reflexivity |].
  cbn [noAdjacent] in H. apply andb_true_iff in H. destruct H as [Hc H].
  cbn [dropSpacesAfterNewline].
  assert (E : st && isSpaceOrTab c = false).
  { destruct st; [| reflexivity]. exact (Hst eq_refl). }
  rewrite E. f_equal. apply IH; [exact H |].
  intros Ec. destruct r as [| y t]; [exact I |].
  unfold isLF in Hc. rewrite Ec in Hc. cbn [firstChar].
  now destruct (isSpaceOrTab y).
Qed.

Lemma dropSpacesBeforeNewline_dropped r :
  startsWith nl (dropWhile isSpaceOrTab r) = true ->
  firstChar (dropSpacesBeforeNewline r) = Some LF.
Proof.
  induction r as [| y t IH]; [discriminate |].
  cbn [dropWhile dropSpacesBeforeNewline].
  destruct (isSpaceOrTab y) eqn:Ey.
  - intros H. rewrite H. cbn [andb]. exact (IH H).
  - cbn [andb startsWith nl]. intros H.
    apply andb_true_iff in H. destruct H as [H _].
    apply Ascii.eqb_eq in H. now subst y.
Qed.

Lemma dropSpacesBeforeNewline_kept r :
  startsWith nl (dropWhile isSpaceOrTab r) = false ->
  firstChar (dropSpacesBeforeNewline r) = firstChar r /\
  charIs LF (firstChar r) = false.
Proof.
  destruct r as [| y t]; [split; reflexivity |].
  cbn [dropWhile dropSpacesBeforeNewline firstChar charIs].
  destruct (isSpaceOrTab y) eqn:Ey.
  - intros H. rewrite H. split; [reflexivity |].
    destruct (Ascii.eqb LF y) eqn:E; [| reflexivity].
    apply Ascii.eqb_eq in E. subst y. discriminate Ey.
  - cbn [andb startsWith nl]. intros H. split; [reflexivity |].
    now rewrite andb_true_r in H.
Qed.

Lemma dropSpacesBeforeNewline_first s :
  firstChar (dropSpacesBeforeNewline s) = firstChar s \/
  firstChar (dropSpacesBeforeNewline s) = Some LF.
Proof.
  destruct s as [| c r]; [now left |].
  cbn [dropSpacesBeforeNewline].
  destruct (isSpaceOrTab c && startsWith nl (dropWhile isSpaceOrTab r)) eqn:E.
  - right. apply andb_true_iff in E. now apply dropSpacesBeforeNewline_dropped.
  - now left.
Qed.

Lemma dropSpacesBeforeNewline_keeps pa pb :
  pb LF = false ->
  forall s, noAdjacent pa pb s = true ->
            noAdjacent pa pb (dropSpacesBeforeNewline s) = true.
Proof.
  intros Hlf. induction s as [| c r IH]; intros H; [reflexivity |].
  cbn [noAdjacent] in H. apply andb_true_iff in H. destruct H as [Hc H].
  cbn [dropSpacesBeforeNewline].
  destruct (isSpaceOrTab c && startsWith nl (dropWhile isSpaceOrTab r));
    [exact (IH H) |].
  cbn [noAdjacent]. rewrite (IH H), andb_true_r.
  destruct (dropSpacesBeforeNewline_first r) as [E | E].
  - destruct (dropSpacesBeforeNewline r) as [| y t] eqn:Er; [reflexivity |].
    destruct r as [| y' t']; [discriminate E |].
    cbn [firstChar] in E. inversion E; subst. exact Hc.
  - destruct (dropSpacesBeforeNewline r) as [| y t]; [reflexivity |].
    cbn [firstChar] in E. inversion E; subst. now rewrite Hlf, andb_false_r.
Qed.

Lemma dropSpacesBeforeNewline_makes s :
  noAdjacent isSpaceOrTab isLF (dropSpacesBeforeNewline s) = true.
Proof.
  induction s as [| c r IH]; [reflexivity |].
  cbn [dropSpacesBeforeNewline].
  destruct (isSpaceOrTab c && startsWith nl (dropWhile isSpaceOrTab r)) eqn:E;
    [exact IH |].
  cbn [noAdjacent]. rewrite IH, andb_true_r.
  destruct (isSpaceOrTab c) eqn:Ec.
  - cbn [andb] in E. destruct (dropSpacesBeforeNewline_kept r E) as [E1 E2].
    destruct (dropSpacesBeforeNewline r) as [| y t]; [reflexivity |].
    rewrite <- E1 in E2. cbn [firstChar charIs] in E2.
    unfold isLF. rewrite Ascii.eqb_sym, E2. reflexivity.
  - now destruct (dropSpacesBeforeNewline r).
Qed.

Lemma dropSpacesBeforeNewline_allChars p s :
  allChars p s = true -> allChars p (dropSpacesBeforeNewline s) = true.
Proof.
  induction s as [| c r IH]; intros H; [reflexivity |].
  cbn [allChars] in H. apply andb_true_iff in H. destruct H as [Hc H].
  cbn [dropSpacesBeforeNewline].
  destruct (isSpaceOrTab c && startsWith nl (dropWhile isSpaceOrTab r));
    cbn [allChars]; rewrite ?Hc; apply IH; exact H.
Qed.

Lemma no_newline_after_blanks c r :
  isSpaceOrTab c = true ->
  noAdjacent isSpaceOrTab isLF (String c r) = true ->
  startsWith nl (dropWhile isSpaceOrTab r) = false.
Proof.
  revert c. induction r as [| y t IH]; intros c Hc H; [reflexivity |].
  pose proof (noAdjacent_head _ _ _ _ _ H) as Hy.
  pose proof (noAdjacent_tail _ _ _ _ H) as Ht.
  rewrite Hc in Hy. cbn [andb] in Hy.
  cbn [dropWhile]. destruct (isSpaceOrTab y) eqn:Ey.
  - exact (IH y Ey Ht).
  - cbn [startsWith nl]. unfold isLF in Hy. now rewrite Ascii.eqb_sym, Hy.
Qed.

Lemma dropSpacesBeforeNewline_fixed s :
  noAdjacent isSpaceOrTab isLF s = true -> dropSpacesBeforeNewline s = s.
Proof.
  induction s as [| c r IH]; intros H; [reflexivity |].
  cbn [dropSpacesBeforeNewline].
  destruct (isSpaceOrTab c) eqn:Ec.
  - rewrite (no_newline_after_blanks c r Ec H). cbn [andb].
    f_equal. apply IH. exact (noAdjacent_tail _ _ _ _ H).
  - cbn [andb]. f_equal. apply IH. exact (noAdjacent_tail _ _ _ _ H).
Qed.

Lemma noAdjacent_trim pa pb s :
  noAdjacent pa pb s = true -> noAdjacent pa pb (trim s) = true.
Proof.
  intros H. destruct (trim_part s) as (u & v & E). rewrite E in H.
  apply noAdjacent_app in H. destruct H as [_ H].
  apply noAdjacent_app in H. apply H.
Qed.

Lemma allChars_trim p s : allChars p s = true -> allChars p (trim s) = true.
Proof.
  intros H. destruct (trim_part s) as (u & v & E). rewrite E in H.
  rewrite !allChars_app in H.
  apply andb_true_iff in H. destruct H as [_ H].
  apply andb_true_iff in H. apply H.
Qed.

Lemma noTripleNewline_trim s :
  noTripleNewline s = true -> noTripleNewline (trim s) = true.
Proof.
  intros H. destruct (trim_part s) as (u & v & E). rewrite E in H.
  apply noTripleNewline_app in H. destruct H as [_ H].
  apply noTripleNewline_app in H. apply H.
Qed.

Lemma tidyText_normal (text : string) :
  isTrimmed (tidyText text) = true /\
  allChars (fun c => negb (Ascii.eqb c TAB)) (tidyText text) = true /\
  noAdjacent isSpace isSpace (tidyText text) = true /\
  noAdjacent isLF isSpace (tidyText text) = true /\
  noAdjacent isSpace isLF (tidyText text) = true /\
  noTripleNewline (tidyText text) = true /\
  tidyText (tidyText text) = tidyText text.
Proof.
  unfold tidyText.
  destruct (replaceRuns_invariant isSpaceOrTab " " eq_refl text false) as (A1 & C1 & _).
  set (s1 := replaceRuns isSpaceOrTab " " false text) in *.
  destruct (dropSpacesAfterNewline_keeps isSpaceOrTab isSpaceOrTab eq_refl s1 false A1)
    as [A2 _].
  destruct (dropSpacesAfterNewline_makes s1 false) as [B2 _].
  pose proof (dropSpacesAfterNewline_allChars _ s1 false C1) as C2.
  set (s2 := dropSpacesAfterNewline false s1) in *.
  pose proof (dropSpacesBeforeNewline_keeps isSpaceOrTab isSpaceOrTab eq_refl s2 A2) as A3.
  pose proof (dropSpacesBeforeNewline_keeps isLF isSpaceOrTab eq_refl s2 B2) as B3.
  pose proof (dropSpacesBeforeNewline_makes s2) as D3.
  pose proof (dropSpacesBeforeNewline_allChars _ s2 C2) as C3.
  set (s3 := dropSpacesBeforeNewline s2) in *.
  pose proof (noAdjacent_trim _ _ _ (capNewlines_noAdjacent _ _ _ A3)) as A5.
  pose proof (noAdjacent_trim _ _ _ (capNewlines_noAdjacent _ _ _ B3)) as B5.
  pose proof (noAdjacent_trim _ _ _ (capNewlines_noAdjacent _ _ _ D3)) as D5.
  pose proof (allChars_trim _ _ (capNewlines_allChars _ _ 0 C3)) as C5.
  pose proof (noTripleNewline_trim _ (capNewlines_noTriple s3)) as T5.
  pose proof (trim_isTrimmed (capNewlines 0 s3)) as R5.
  set (s5 := trim (capNewlines 0 s3)) in *.
  split; [exact R5 |].
  split; [apply (allChars_weaken _ _ _ tab_is_not_kept C5) |].
  split; [apply (noAdjacent_weaken _ _ _ _ _ space_is_blank space_is_blank A5) |].
  split; [apply (noAdjacent_weaken _ _ _ _ _ (fun c H => H) space_is_blank B5) |].
  split; [apply (noAdjacent_weaken _ _ _ _ _ space_is_blank (fun c H => H) D5) |].
  split; [exact T5 |].
  rewrite (replaceRuns_fixed isSpaceOrTab " " s5 false A5 C5); [| discriminate].
  rewrite (dropSpacesAfterNewline_fixed s5 false B5); [| discriminate].
  rewrite (dropSpacesBeforeNewline_fixed s5 D5).
  rewrite (capNewlines_fixed s5 0); [| lia | exact T5].
  apply trim_fixed. exact R5.
Qed.

(** ** Text the escape leaves alone *)

Lemma replaceChar_absent c rep s :
  allChars (fun x => negb (Ascii.eqb x c)) s = true -> replaceChar c rep s = s.
Proof.
  induction s as [| x r IH]; [reflexivity |].
  cbn [allChars replaceChar]. intros H. apply andb_true_iff in H.
  destruct H as [Hx H]. apply negb_true_iff in Hx. now rewrite Hx, IH.
Qed.

Lemma escapeLineStart_absent (m : string -> bool) (p : ascii -> bool) :
  (forall c r, m (String c r) = true -> p c = false) ->
  forall s st, lineStarts p st s = true -> escapeLineStart m st s = s.
Proof.
  intros Hm. induction s as [| c r IH]; intros st H; [reflexivity |].
  cbn [lineStarts] in H. apply andb_true_iff in H. destruct H as [Hc H].
  cbn [escapeLineStart]. rewrite (IH _ H).
  destruct st; [| reflexivity]. cbn [negb orb] in Hc. cbn [andb].
  destruct (m (String c r)) eqn:E; [| reflexivity].
  rewrite (Hm _ _ E) in Hc. discriminate Hc.
Qed.

Lemma digitsDotSpace_digit c r : digitsDotSpace (String c r) = true -> isDigit c = true.
Proof.
  unfold digitsDotSpace. cbn [takeWhile]. destruct (isDigit c); [reflexivity |].
  discriminate.
Qed.

Lemma escapeListDot_absent s : forall st,
  lineStarts (fun c => negb (isDigit c)) st s = true ->
  escapeListDot st false s = s.
Proof.
  induction s as [| c r IH]; intros st H; [reflexivity |].
  cbn [lineStarts] in H. apply andb_true_iff in H. destruct H as [Hc H].
  cbn [escapeListDot].
  assert (E : (if st then digitsDotSpace (String c r) else false) = false).
  { destruct st; [| reflexivity]. cbn [negb orb] in Hc.
    destruct (digitsDotSpace (String c r)) eqn:E; [| reflexivity].
    rewrite (digitsDotSpace_digit _ _ E) in Hc. discriminate Hc. }
  rewrite E. cbn [andb]. now rewrite (IH _ H).
Qed.

Lemma lineStarts_weaken (p q : ascii -> bool) s :
  (forall c, p c = true -> q c = true) ->
  forall st, lineStarts p st s = true -> lineStarts q st s = true.
Proof.
  intros Hpq. induction s as [| c r IH]; intros st H; [reflexivity |].
  cbn [lineStarts] in *. apply andb_true_iff in H. destruct H as [Hc H].
  rewrite (IH _ H), andb_true_r.
  destruct st; [| reflexivity]. cbn [negb orb] in *. now apply Hpq.
Qed.

Lemma absent_member chars x :
  inSet chars x = true ->
  forall c, negb (inSet chars c) = true -> negb (Ascii.eqb c x) = true.
Proof.
  unfold inSet. intros Hx c Hc. apply negb_true_iff in Hc. apply negb_true_iff.
  induction chars as [| y chars IH]; [discriminate Hx |].
  cbn [anyChar] in *. apply orb_false_iff in Hc. destruct Hc as [Hy Hc].
  destruct (Ascii.eqb x y) eqn:E.
  - apply Ascii.eqb_eq in E. now subst y.
  - exact (IH Hx Hc).
Qed.

Lemma leader_target (m : string -> bool) (t : ascii) :
  inSet leaderChars t = true ->
  (forall c r, m (String c r) = true -> c = t) ->
  forall c r, m (String c r) = true ->
              negb (inSet leaderChars c || isDigit c) = false.
Proof.
  intros Ht Hm c r H. rewrite (Hm c r H), Ht. reflexivity.
Qed.

Lemma escapeMarkdown_untouched (text : string) :
  allChars (fun c => negb (inSet inlineChars c)) text = true ->
  lineStarts (fun c => negb (inSet leaderChars c || isDigit c)) true text = true ->
  escapeMarkdown text = text.
Proof.
  intros Hin Hst. unfold escapeMarkdown.
  assert (Hc : forall x, inSet inlineChars x = true ->
                         forall rep, replaceChar x rep text = text).
  { intros x Hx rep. apply replaceChar_absent.
    exact (allChars_weaken _ _ _ (absent_member inlineChars x Hx) Hin). }
  assert (Hl : forall m t, inSet leaderChars t = true ->
                 (forall c r, m (String c r) = true -> c = t) ->
                 escapeLineStart m true text = text).
  { intros m t Ht Hm.
    exact (escapeLineStart_absent m _ (leader_target m t Ht Hm) text true Hst). }
  unfold escBackslash. rewrite (Hc "\"%char eq_refl).
  unfold escStar. rewrite (Hc "*"%char eq_refl).
  unfold escDash. rewrite (Hl _ "-"%char eq_refl (fun c r => startsWith_head _ _ c r)).
  unfold escPlus. rewrite (Hl _ "+"%char eq_refl (fun c r => startsWith_head _ _ c r)).
  unfold escEquals. rewrite (Hl _ "="%char eq_refl (fun c r => startsWith_head _ _ c r)).
  unfold escSharp. rewrite (Hl _ "#"%char eq_refl sharpsThenSpace_head).
  unfold escBacktick. rewrite (Hc BACKTICK eq_refl).
  unfold escOpenBracket. rewrite (Hc "["%char eq_refl).
  unfold escCloseBracket. rewrite (Hc "]"%char eq_refl).
  unfold escQuoteMark. rewrite (Hl _ ">"%char eq_refl (fun c r => startsWith_head _ _ c r)).
  unfold escUnderscore. rewrite (Hc "_"%char eq_refl).
  unfold escListDot. apply escapeListDot_absent.
  apply (lineStarts_weaken _ _ text) with (2 := Hst).
  intros c H. apply negb_true_iff in H. apply orb_false_iff in H.
  apply negb_true_iff. apply H.
Qed.

(** X3. A text without backslash, star, backtick, bracket or underscore,
    and in which no line starts with a dash, plus, equals sign, sharp,
    closing angle bracket or digit, is returned by [escapeMarkdown] as it
    is. *)
Theorem escapeMarkdown_plain (text : string) :
  allChars (fun c => negb (inSet inlineChars c)) text = true ->
  lineStarts (fun c => negb (inSet leaderChars c || isDigit c)) true text = true ->
  escapeMarkdown text = text.
Proof.
  intros Hin Hst. apply escapeMarkdown_untouched; assumption.
Qed.

(** ** What the escape guarantees *)

Lemma replaceChar_tokens (E T T' : ascii -> bool) (c : ascii) :
  E c = false -> Ascii.eqb c "\" = false ->
  (forall x, T' x = true -> T x = true \/ x = c) ->
  forall s, wellEscaped E s = true -> onlyEscaped T s = true ->
            onlyEscaped T' (replaceChar c (String "\" (String c "")) s) = true.
Proof.
  intros HEc Hcb HT.
  induction s as [s IH] using string_length_ind. intros Hw Ho.
  destruct s as [| x r]; [reflexivity |].
  cbn [wellEscaped onlyEscaped] in Hw, Ho. cbn [replaceChar].
  destruct (Ascii.eqb x "\") eqn:Ex.
  - apply Ascii.eqb_eq in Ex. subst x.
    destruct r as [| d r']; [discriminate |].
    apply andb_true_iff in Hw. destruct Hw as [Hd Hw].
    rewrite Ascii.eqb_sym, Hcb. cbn [replaceChar].
    destruct (Ascii.eqb d c) eqn:Edc.
    { apply Ascii.eqb_eq in Edc. subst d. congruence. }
    cbn [onlyEscaped Ascii.eqb Bool.eqb andb]. apply IH; [simpl; lia | exact Hw | exact Ho].
  - apply andb_true_iff in Ho. destruct Ho as [Hx Ho].
    assert (I : onlyEscaped T' (replaceChar c (String "\" (String c "")) r) = true)
      by (apply IH; [simpl; lia | exact Hw | exact Ho]).
    destruct (Ascii.eqb x c) eqn:Exc.
    + cbn [append onlyEscaped Ascii.eqb Bool.eqb andb]. exact I.
    + cbn [onlyEscaped]. rewrite Ex, I, andb_true_r.
      destruct (T' x) eqn:Et; [| reflexivity].
      destruct (HT x Et) as [H | H].
      * rewrite H in Hx. discriminate Hx.
      * subst x. rewrite Ascii.eqb_refl in Exc. discriminate Exc.
Qed.

Lemma escapeLineStart_tokens (E T : ascii -> bool) (m : string -> bool) :
  (forall c r, m (String c r) = true -> Ascii.eqb c "\" = false) ->
  forall s atStart, wellEscaped E s = true -> onlyEscaped T s = true ->
                    onlyEscaped T (escapeLineStart m atStart s) = true.
Proof.
  intros Hm.
  induction s as [s IH] using string_length_ind. intros atStart Hw Ho.
  destruct s as [| x r]; [reflexivity |].
  cbn [wellEscaped onlyEscaped] in Hw, Ho. cbn [escapeLineStart].
  destruct (Ascii.eqb x "\") eqn:Ex.
  - pose proof Ex as Ex'. apply Ascii.eqb_eq in Ex'. subst x.
    destruct r as [| d r']; [discriminate |].
    apply andb_true_iff in Hw. destruct Hw as [Hd Hw].
    assert (Hno : m (String "\" (String d r')) = false).
    { destruct (m (String "\" (String d r'))) eqn:Em; [| reflexivity].
      discriminate (Hm _ _ Em). }
    rewrite Hno, andb_false_r.
    cbn [escapeLineStart isLineTerminator Ascii.eqb Bool.eqb LF CR orb andb].
    cbn [onlyEscaped Ascii.eqb Bool.eqb andb].
    apply IH; [simpl; lia | exact Hw | exact Ho].
  - apply andb_true_iff in Ho. destruct Ho as [Hx Ho].
    assert (I : onlyEscaped T (escapeLineStart m (isLineTerminator x) r) = true)
      by (apply IH; [simpl; lia | exact Hw | exact Ho]).
    destruct (atStart && m (String x r)).
    + cbn [onlyEscaped Ascii.eqb Bool.eqb andb]. exact I.
    + cbn [onlyEscaped]. now rewrite Ex, Hx, I.
Qed.

Lemma escapeListDot_tokens (E T : ascii -> bool) :
  forall s atStart inNumber,
    (inNumber = true -> atStart = false /\
                        startsWith ". " (dropWhile isDigit s) = true) ->
    wellEscaped E s = true -> onlyEscaped T s = true ->
    onlyEscaped T (escapeListDot atStart inNumber s) = true.
Proof.
  induction s as [s IH] using string_length_ind. intros atStart inNumber Hin Hw Ho.
  destruct s as [| x r]; [reflexivity |].
  cbn [wellEscaped onlyEscaped] in Hw, Ho. cbn [escapeListDot].
  set (inNumber' := if atStart then digitsDotSpace (String x r) else inNumber).
  assert (Hin' : inNumber' = true ->
                 startsWith ". " (dropWhile isDigit (String x r)) = true).
  { unfold inNumber'. destruct atStart.
    - unfold digitsDotSpace. intros H. apply andb_true_iff in H. tauto.
    - intros H. apply Hin in H. tauto. }
  destruct (Ascii.eqb x "\") eqn:Ex.
  - pose proof Ex as Ex'. apply Ascii.eqb_eq in Ex'. subst x.
    destruct r as [| d r']; [discriminate |].
    apply andb_true_iff in Hw. destruct Hw as [Hd Hw].
    assert (Hno : inNumber' = false).
    { destruct inNumber'; [| reflexivity]. specialize (Hin' eq_refl). discriminate Hin'. }
    rewrite Hno.
    cbn [andb escapeListDot isLineTerminator Ascii.eqb Bool.eqb LF CR orb].
    cbn [onlyEscaped Ascii.eqb Bool.eqb andb].
    apply IH; [simpl; lia | discriminate | exact Hw | exact Ho].
  - apply andb_true_iff in Ho. destruct Ho as [Hx Ho].
    destruct (inNumber' && Ascii.eqb x ".") eqn:Eins.
    + cbn [onlyEscaped Ascii.eqb Bool.eqb andb].
      apply IH; [simpl; lia | discriminate | exact Hw | exact Ho].
    + cbn [onlyEscaped]. rewrite Ex, Hx. cbn [andb].
      apply IH; [simpl; lia | | exact Hw | exact Ho].
      intros H. specialize (Hin' H). rewrite H in Eins. cbn [andb] in Eins.
      cbn [dropWhile] in Hin'.
      destruct (isDigit x) eqn:Edig.
      * split; [| exact Hin'].
        unfold isLineTerminator, LF, CR.
        destruct (Ascii.eqb x "010") eqn:E1.
        { apply Ascii.eqb_eq in E1. subst x. discriminate Edig. }
        destruct (Ascii.eqb x "013") eqn:E2.
        { apply Ascii.eqb_eq in E2. subst x. discriminate Edig. }
        reflexivity.
      * cbn [startsWith] in Hin'. rewrite Ascii.eqb_sym, Eins in Hin'.
        discriminate Hin'.
Qed.

Lemma replaceChar_lineStarts (P : ascii -> bool) (c : ascii) :
  P "\"%char = true ->
  forall s st, lineStarts P st s = true ->
               lineStarts P st (replaceChar c (String "\" (String c "")) s) = true.
Proof.
  intros HP. induction s as [| x r IH]; intros st H; [reflexivity |].
  cbn [lineStarts] in H. apply andb_true_iff in H. destruct H as [Hx H].
  cbn [replaceChar]. destruct (Ascii.eqb x c) eqn:E.
  - apply Ascii.eqb_eq in E. subst x.
    cbn [append lineStarts isLineTerminator Ascii.eqb Bool.eqb LF CR orb negb].
    rewrite HP, orb_true_r. cbn [andb].
    apply (IH _ H).
  - cbn [lineStarts]. now rewrite Hx, (IH _ H).
Qed.

Lemma escapeLineStart_lineStarts (P : ascii -> bool) (m : string -> bool) :
  P "\"%char = true ->
  forall s st, lineStarts P st s = true ->
               lineStarts P st (escapeLineStart m st s) = true.
Proof.
  intros HP. induction s as [| x r IH]; intros st H; [reflexivity |].
  cbn [lineStarts] in H. apply andb_true_iff in H. destruct H as [Hx H].
  cbn [escapeLineStart]. destruct (st && m (String x r)).
  - cbn [lineStarts isLineTerminator Ascii.eqb Bool.eqb LF CR orb negb].
    rewrite HP, orb_true_r. cbn [andb]. apply (IH _ H).
  - cbn [lineStarts]. now rewrite Hx, (IH _ H).
Qed.

Lemma escapeListDot_lineStarts (P : ascii -> bool) :
  P "\"%char = true ->
  forall s st inNumber, lineStarts P st s = true ->
                        lineStarts P st (escapeListDot st inNumber s) = true.
Proof.
  intros HP. induction s as [| x r IH]; intros st inNumber H; [reflexivity |].
  cbn [lineStarts] in H. apply andb_true_iff in H. destruct H as [Hx H].
  cbn [escapeListDot].
  destruct ((if st then digitsDotSpace (String x r) else inNumber) && Ascii.eqb x ".")
    eqn:E.
  - apply andb_true_iff in E. destruct E as [_ E]. apply Ascii.eqb_eq in E. subst x.
    cbn [lineStarts isLineTerminator Ascii.eqb Bool.eqb LF CR orb negb].
    rewrite HP, orb_true_r. cbn [andb].
    apply (IH false false). exact H.
  - cbn [lineStarts]. now rewrite Hx, (IH _ _ H).
Qed.

Lemma escapeLineStart_leader (t : ascii) :
  Ascii.eqb "\" t = false ->
  forall s st,
    lineStarts (fun c => negb (Ascii.eqb c t)) st
               (escapeLineStart (startsWith (String t "")) st s) = true.
Proof.
  intros Ht. induction s as [| x r IH]; intros st; [reflexivity |].
  cbn [escapeLineStart startsWith]. rewrite andb_true_r.
  destruct st; cbn [andb].
  - destruct (Ascii.eqb t x) eqn:E.
    + apply Ascii.eqb_eq in E. subst x.
      cbn [lineStarts]. rewrite Ht. cbn [negb orb andb]. apply IH.
    + cbn [lineStarts negb orb]. rewrite Ascii.eqb_sym, E. cbn [negb andb]. apply IH.
  - cbn [lineStarts negb orb andb]. apply IH.
Qed.

Lemma lineStarts_and (p q : ascii -> bool) s : forall st,
  lineStarts p st s = true -> lineStarts q st s = true ->
  lineStarts (fun c => p c && q c) st s = true.
Proof.
  induction s as [| x r IH]; intros st Hp Hq; [reflexivity |].
  cbn [lineStarts] in *.
  apply andb_true_iff in Hp. destruct Hp as [Hp1 Hp2].
  apply andb_true_iff in Hq. destruct Hq as [Hq1 Hq2].
  rewrite (IH _ Hp2 Hq2), andb_true_r.
  destruct st; [| reflexivity]. cbn [negb orb] in *. now rewrite Hp1, Hq1.
Qed.

Lemma onlyEscaped_none s : onlyEscaped (fun _ => false) s = true.
Proof.
  induction s as [s IH] using string_length_ind.
  destruct s as [| x [| y r]]; cbn [onlyEscaped]; try reflexivity.
  - now destruct (Ascii.eqb x "\").
  - destruct (Ascii.eqb x "\"); cbn [negb andb].
    + apply IH. simpl. lia.
    + apply (IH (String y r)). simpl. lia.
Qed.

Lemma inSet_grow chars x c :
  inSet (chars ++ String x "") c = true -> inSet chars c = true \/ c = x.
Proof.
  unfold inSet. induction chars as [| y chars IH]; cbn [append anyChar].
  - rewrite orb_false_r. intros H. right. now apply Ascii.eqb_eq.
  - intros H. apply orb_true_iff in H. destruct H as [H | H].
    + left. now rewrite H.
    + destruct (IH H) as [H' | H']; [left; rewrite H'; apply orb_true_r | now right].
Qed.

Lemma escapeMarkdown_guarded (text : string) :
  onlyEscaped (inSet markupChars) (escapeMarkdown text) = true /\
  lineStarts (fun c => negb (inSet leadChars c)) true (escapeMarkdown text) = true.
Proof.
  unfold escapeMarkdown.
  destruct (escBackslash_unescape text) as [W1 _].
  pose proof (onlyEscaped_none (escBackslash text)) as O1.
  set (s1 := escBackslash text) in *.
  (* star *)
  pose proof (replaceChar_tokens (inSet "\") (fun _ => false) (inSet "*") "*"
                eq_refl eq_refl (inSet_grow "" "*") s1 W1 O1) as O2.
  destruct (replaceChar_unescape (inSet "\") (inSet "\*") "*"
              (proj1 (inSet_sub "\" "*")) eq_refl eq_refl eq_refl s1 W1) as [W2 _].
  change (replaceChar "*" (String "\" (String "*" "")) s1) with (escStar s1) in *.
  set (s2 := escStar s1) in *.
  (* dash *)
  assert (W3 : wellEscaped (inSet "\*-+=#") (escDash s2) = true).
  { apply (escapeLineStart_unescape (inSet "\*") (inSet "\*-+=#") (startsWith "-")
             (proj1 (inSet_sub "\*" "-+=#"))); [line_rule_head | exact W2]. }
  assert (O3 : onlyEscaped (inSet "*") (escDash s2) = true).
  { apply (escapeLineStart_tokens (inSet "\*") _ (startsWith "-")); [| exact W2 | exact O2].
    intros c r H. apply startsWith_head in H. now subst c. }
  pose proof (escapeLineStart_leader "-" eq_refl s2 true) as L3.
  change (escapeLineStart (startsWith "-") true s2) with (escDash s2) in L3.
  set (s3 := escDash s2) in *.
  (* plus *)
  assert (W4 : wellEscaped (inSet "\*-+=#") (escPlus s3) = true).
  { apply (escapeLineStart_unescape (inSet "\*-+=#") (inSet "\*-+=#")
             (startsWith "+ ") (fun d H => H)); [line_rule_head | exact W3]. }
  assert (O4 : onlyEscaped (inSet "*") (escPlus s3) = true).
  { apply (escapeLineStart_tokens (inSet "\*-+=#") _ (startsWith "+ "));
      [| exact W3 | exact O3].
    intros c r H. apply startsWith_head in H. now subst c. }
  pose proof (escapeLineStart_lineStarts _ (startsWith "+ ") eq_refl s3 true L3) as L4.
  change (escapeLineStart (startsWith "+ ") true s3) with (escPlus s3) in L4.
  set (s4 := escPlus s3) in *.
  (* equals *)
  assert (W5 : wellEscaped (inSet "\*-+=#") (escEquals s4) = true).
  { apply (escapeLineStart_unescape (inSet "\*-+=#") (inSet "\*-+=#")
             (startsWith "=") (fun d H => H)); [line_rule_head | exact W4]. }
  assert (O5 : onlyEscaped (inSet "*") (escEquals s4) = true).
  { apply (escapeLineStart_tokens (inSet "\*-+=#") _ (startsWith "="));
      [| exact W4 | exact O4].
    intros c r H. apply startsWith_head in H. now subst c. }
  pose proof (escapeLineStart_lineStarts _ (startsWith "=") eq_refl s4 true L4) as L5.
  pose proof (escapeLineStart_leader "=" eq_refl s4 true) as M5.
  change (escapeLineStart (startsWith "=") true s4) with (escEquals s4) in L5, M5.
  set (s5 := escEquals s4) in *.
  (* sharp *)
  assert (W6 : wellEscaped (inSet "\*-+=#") (escSharp s5) = true).
  { apply (escapeLineStart_unescape (inSet "\*-+=#") (inSet "\*-+=#")
             sharpsThenSpace (fun d H => H)); [line_rule_head | exact W5]. }
  assert (O6 : onlyEscaped (inSet "*") (escSharp s5) = true).
  { apply (escapeLineStart_tokens (inSet "\*-+=#") _ sharpsThenSpace);
      [| exact W5 | exact O5].
    intros c r H. apply sharpsThenSpace_head in H. now subst c. }
  pose proof (escapeLineStart_lineStarts _ sharpsThenSpace eq_refl s5 true L5) as L6.
  pose proof (escapeLineStart_lineStarts _ sharpsThenSpace eq_refl s5 true M5) as M6.
  change (escapeLineStart sharpsThenSpace true s5) with (escSharp s5) in L6, M6.
  set (s6 := escSharp s5) in *.
  (* backtick *)
  pose proof (replaceChar_tokens (inSet "\*-+=#") (inSet "*") (inSet "*`") BACKTICK
                eq_refl eq_refl (inSet_grow "*" BACKTICK) s6 W6 O6) as O7.
  destruct (replaceChar_unescape (inSet "\*-+=#") (inSet "\*-+=#`") BACKTICK
              (proj1 (inSet_sub "\*-+=#" "`")) eq_refl eq_refl eq_refl s6 W6) as [W7 _].
  pose proof (replaceChar_lineStarts _ BACKTICK eq_refl s6 true L6) as L7.
  pose proof (replaceChar_lineStarts _ BACKTICK eq_refl s6 true M6) as M7.
  change (replaceChar BACKTICK (String "\" (String BACKTICK "")) s6)
    with (escBacktick s6) in *.
  set (s7 := escBacktick s6) in *.
  (* brackets *)
  pose proof (replaceChar_tokens (inSet "\*-+=#`") (inSet "*`") (inSet "*`[") "["
                eq_refl eq_refl (inSet_grow "*`" "[") s7 W7 O7) as O8.
  destruct (replaceChar_unescape (inSet "\*-+=#`") (inSet "\*-+=#`[") "["
              (proj1 (inSet_sub "\*-+=#`" "[")) eq_refl eq_refl eq_refl s7 W7) as [W8 _].
  pose proof (replaceChar_lineStarts _ "[" eq_refl s7 true L7) as L8.
  pose proof (replaceChar_lineStarts _ "[" eq_refl s7 true M7) as M8.
  change (replaceChar "[" (String "\" (String "[" "")) s7) with (escOpenBracket s7) in *.
  set (s8 := escOpenBracket s7) in *.
  pose proof (replaceChar_tokens (inSet "\*-+=#`[") (inSet "*`[") (inSet "*`[]") "]"
                eq_refl eq_refl (inSet_grow "*`[" "]") s8 W8 O8) as O9.
  destruct (replaceChar_unescape (inSet "\*-+=#`[") (inSet "\*-+=#`[]") "]"
              (proj1 (inSet_sub "\*-+=#`[" "]")) eq_refl eq_refl eq_refl s8 W8) as [W9 _].
  pose proof (replaceChar_lineStarts _ "]" eq_refl s8 true L8) as L9.
  pose proof (replaceChar_lineStarts _ "]" eq_refl s8 true M8) as M9.
  change (replaceChar "]" (String "\" (String "]" "")) s8) with (escCloseBracket s8) in *.
  set (s9 := escCloseBracket s8) in *.
  (* quote mark *)
  assert (W10 : wellEscaped (inSet "\*-+=#`[]>") (escQuoteMark s9) = true).
  { apply (escapeLineStart_unescape (inSet "\*-+=#`[]") (inSet "\*-+=#`[]>")
             (startsWith ">") (proj1 (inSet_sub "\*-+=#`[]" ">")));
      [line_rule_head | exact W9]. }
  assert (O10 : onlyEscaped (inSet "*`[]") (escQuoteMark s9) = true).
  { apply (escapeLineStart_tokens (inSet "\*-+=#`[]") _ (startsWith ">"));
      [| exact W9 | exact O9].
    intros c r H. apply startsWith_head in H. now subst c. }
  pose proof (escapeLineStart_lineStarts _ (startsWith ">") eq_refl s9 true L9) as L10.
  pose proof (escapeLineStart_lineStarts _ (startsWith ">") eq_refl s9 true M9) as M10.
  pose proof (escapeLineStart_leader ">" eq_refl s9 true) as N10.
  change (escapeLineStart (startsWith ">") true s9) with (escQuoteMark s9) in L10, M10, N10.
  set (s10 := escQuoteMark s9) in *.
  (* underscore *)
  pose proof (replaceChar_tokens (inSet "\*-+=#`[]>") (inSet "*`[]") (inSet markupChars) "_"
                eq_refl eq_refl (inSet_grow "*`[]" "_") s10 W10 O10) as O11.
  destruct (replaceChar_unescape (inSet "\*-+=#`[]>") (inSet "\*-+=#`[]>_") "_"
              (proj1 (inSet_sub "\*-+=#`[]>" "_")) eq_refl eq_refl eq_refl s10 W10)
    as [W11 _].
  pose proof (replaceChar_lineStarts _ "_" eq_refl s10 true L10) as L11.
  pose proof (replaceChar_lineStarts _ "_" eq_refl s10 true M10) as M11.
  pose proof (replaceChar_lineStarts _ "_" eq_refl s10 true N10) as N11.
  change (replaceChar "_" (String "\" (String "_" "")) s10) with (escUnderscore s10) in *.
  set (s11 := escUnderscore s10) in *.
  (* list dot *)
  split.
  - apply (escapeListDot_tokens (inSet "\*-+=#`[]>_")); [discriminate | exact W11 | exact O11].
  - pose proof (escapeListDot_lineStarts _ eq_refl s11 true false L11) as L12.
    pose proof (escapeListDot_lineStarts _ eq_refl s11 true false M11) as M12.
    pose proof (escapeListDot_lineStarts _ eq_refl s11 true false N11) as N12.
    fold (escListDot s11) in L12, M12, N12.
    pose proof (lineStarts_and _ _ _ _ L12 (lineStarts_and _ _ _ _ M12 N12)) as H.
    apply (lineStarts_weaken _ _ _) with (2 := H).
    intros c Hc. unfold inSet, leadChars. cbn [anyChar].
    apply andb_true_iff in Hc. destruct Hc as [H1 Hc].
    apply andb_true_iff in Hc. destruct Hc as [H2 H3].
    apply negb_true_iff in H1, H2, H3. now rewrite H1, H2, H3.
Qed.

(** X4. In the text [escapeMarkdown] returns, every star, backtick,
    bracket and underscore stands behind an escaping backslash, and no line
    starts with a dash, an equals sign or a closing angle bracket. *)
Theorem escapeMarkdown_escapes (text : string) :
  onlyEscaped (inSet markupChars) (escapeMarkdown text) = true /\
  lineStarts (fun c => negb (inSet leadChars c)) true (escapeMarkdown text) = true.
Proof.
  destruct (escapeMarkdown_guarded text) as [H1 H2].
  split; [exact H1 | exact H2].
Qed.

(** ** Where the rules put their backslashes *)

Lemma replaceChar_inserted c s :
  inserted s (replaceChar c (String "\" (String c "")) s).
Proof.
  induction s as [| x r IH]; [constructor |].
  cbn [replaceChar]. destruct (Ascii.eqb x c) eqn:E.
  - apply Ascii.eqb_eq in E. subst x. cbn [append]. now constructor.
  - now constructor.
Qed.

Lemma escapeLineStart_inserted (m : string -> bool) s :
  forall st, inserted s (escapeLineStart m st s).
Proof.
  induction s as [| x r IH]; intros st; [constructor |].
  cbn [escapeLineStart]. destruct (st && m (String x r)); constructor; apply IH.
Qed.

Lemma escapeListDot_inserted s :
  forall st inNumber, inserted s (escapeListDot st inNumber s).
Proof.
  induction s as [| x r IH]; intros st inNumber; [constructor |].
  cbn [escapeListDot].
  destruct ((if st then digitsDotSpace (String x r) else inNumber) && Ascii.eqb x ".")
    eqn:E.
  - apply andb_true_iff in E. destruct E as [_ E]. apply Ascii.eqb_eq in E. subst x.
    constructor. apply IH.
  - constructor. apply IH.
Qed.

Lemma inserted_noLineStart (m : string -> bool) :
  (forall s s', inserted s s' -> m s' = true -> m s = true) ->
  forall s s', inserted s s' ->
  forall st, noLineStart m st s = true -> noLineStart m st s' = true.
Proof.
  intros Hm s s' H. induction H as [| x r r' H IH | x r r' H IH]; intros st Hs.
  - reflexivity.
  - cbn [noLineStart] in *. apply andb_true_iff in Hs. destruct Hs as [H1 H2].
    rewrite (IH _ H2), andb_true_r.
    destruct st; [| reflexivity]. cbn [negb orb] in *.
    destruct (m (String x r')) eqn:E; [| reflexivity].
    rewrite (Hm (String x r) (String x r')) in H1; [exact H1 | now constructor | exact E].
  - cbn [noLineStart] in *. apply andb_true_iff in Hs. destruct Hs as [H1 H2].
    change (isLineTerminator "\") with false. cbn [negb orb andb].
    rewrite (IH _ H2), andb_true_r.
    destruct st; [| reflexivity]. cbn [negb orb] in *.
    destruct (m (String "\" (String x r'))) eqn:E; [| reflexivity].
    rewrite (Hm (String x r) (String "\" (String x r'))) in H1;
      [exact H1 | now constructor | exact E].
Qed.

(** ** Patterns seen through the backslashes *)

Lemma run_then_reflected (cls : ascii -> bool) (lit : string) s s' :
  cls "\"%char = false -> (forall r, startsWith lit (String "\" r) = false) ->
  (forall x r r', inserted r r' ->
                  startsWith lit (String x r') = true -> startsWith lit (String x r) = true) ->
  inserted s s' ->
  startsWith lit (dropWhile cls s') = true ->
  takeWhile cls s' = takeWhile cls s /\ startsWith lit (dropWhile cls s) = true.
Proof.
  intros Hb Hlit Hkeep H. induction H as [| x r r' H IH | x r r' H IH].
  - intros h. split; [reflexivity | exact h].
  - cbn [takeWhile dropWhile]. destruct (cls x).
    + intros h. destruct (IH h) as [IH1 IH2]. split; [now rewrite IH1 | exact IH2].
    + intros h. split; [reflexivity | exact (Hkeep x r r' H h)].
  - cbn [takeWhile dropWhile]. rewrite Hb. intros h.
    rewrite Hlit in h. discriminate h.
Qed.

Lemma space_kept x r r' :
  inserted r r' -> startsWith " " (String x r') = true -> startsWith " " (String x r) = true.
Proof. intros _ h. exact h. Qed.

Lemma dot_space_kept x r r' :
  inserted r r' -> startsWith ". " (String x r') = true -> startsWith ". " (String x r) = true.
Proof.
  intros H h. cbn [startsWith] in *. apply andb_true_iff in h. destruct h as [E h].
  rewrite E. cbn [andb].
  destruct H as [| y t t' H | y t t' H]; [discriminate h | exact h | discriminate h].
Qed.

Lemma plus_reflected s s' :
  inserted s s' -> startsWith "+ " s' = true -> startsWith "+ " s = true.
Proof.
  intros H Hm. destruct H as [| x r r' H | x r r' H]; [discriminate Hm | | discriminate Hm].
  cbn [startsWith] in *. apply andb_true_iff in Hm. destruct Hm as [E Hm].
  rewrite E. cbn [andb].
  destruct H as [| y t t' H | y t t' H]; [discriminate Hm | exact Hm | discriminate Hm].
Qed.

Lemma sharps_reflected s s' :
  inserted s s' -> sharpsThenSpace s' = true -> sharpsThenSpace s = true.
Proof.
  intros H. unfold sharpsThenSpace. intros Hm.
  apply andb_true_iff in Hm. destruct Hm as [Hl Hm].
  destruct (run_then_reflected (Ascii.eqb "#") " " s s' eq_refl (fun _ => eq_refl)
              space_kept H Hm)
    as [H1 H2].
  now rewrite <- H1, Hl, H2.
Qed.

Lemma dots_reflected s s' :
  inserted s s' -> digitsDotSpace s' = true -> digitsDotSpace s = true.
Proof.
  intros H. unfold digitsDotSpace. intros Hm.
  apply andb_true_iff in Hm. destruct Hm as [Hl Hm].
  destruct (run_then_reflected isDigit ". " s s' eq_refl (fun _ => eq_refl)
              dot_space_kept H Hm)
    as [H1 H2].
  now rewrite <- H1, Hl, H2.
Qed.

(** ** What a line rule leaves at the line starts *)

Lemma escapeLineStart_clears (m : string -> bool) :
  (forall r, m (String "\" r) = false) ->
  (forall s s', inserted s s' -> m s' = true -> m s = true) ->
  forall s st, noLineStart m st (escapeLineStart m st s) = true.
Proof.
  intros Hb Hm. induction s as [| x r IH]; intros st; [reflexivity |].
  cbn [escapeLineStart]. destruct st; cbn [andb].
  - destruct (m (String x r)) eqn:E.
    + cbn [noLineStart]. rewrite Hb. change (isLineTerminator "\") with false.
      cbn [negb orb andb]. apply IH.
    + cbn [noLineStart]. rewrite IH, andb_true_r. cbn [negb orb].
      destruct (m (String x (escapeLineStart m (isLineTerminator x) r))) eqn:E';
        [| reflexivity].
      rewrite (Hm (String x r) _ (inserted_keep x _ _ (escapeLineStart_inserted m r _)) E')
        in E. discriminate E.
  - cbn [noLineStart negb orb andb]. apply IH.
Qed.

Lemma number_dot_escaped r :
  startsWith ". " (dropWhile isDigit r) = true ->
  startsWith ". " (dropWhile isDigit (escapeListDot false true r)) = false.
Proof.
  induction r as [| y t IH]; [discriminate |].
  cbn [escapeListDot andb]. destruct (Ascii.eqb y ".") eqn:E.
  - intros _. reflexivity.
  - cbn [dropWhile]. destruct (isDigit y) eqn:Ed.
    + intros H. replace (isLineTerminator y) with false.
      * exact (IH H).
      * unfold isLineTerminator.
        destruct (Ascii.eqb_spec y LF) as [-> | _]; [discriminate Ed |].
        destruct (Ascii.eqb_spec y CR) as [-> | _]; [discriminate Ed | reflexivity].
    + cbn [startsWith]. rewrite Ascii.eqb_sym, E. discriminate.
Qed.

Lemma digit_not_terminator y : isDigit y = true -> isLineTerminator y = false.
Proof.
  intros Ed. unfold isLineTerminator.
  destruct (Ascii.eqb_spec y LF) as [-> | _]; [discriminate Ed |].
  destruct (Ascii.eqb_spec y CR) as [-> | _]; [discriminate Ed | reflexivity].
Qed.

Lemma escapeListDot_clears s : forall st inNumber,
  noLineStart digitsDotSpace st (escapeListDot st inNumber s) = true.
Proof.
  induction s as [| x r IH]; intros st inNumber; [reflexivity |].
  cbn [escapeListDot].
  destruct ((if st then digitsDotSpace (String x r) else inNumber) && Ascii.eqb x ".")
    eqn:E.
  - apply andb_true_iff in E. destruct E as [_ E]. apply Ascii.eqb_eq in E. subst x.
    cbn [noLineStart]. change (isLineTerminator "\") with false.
    change (isLineTerminator ".") with false.
    change (digitsDotSpace (String "\" (String "." (escapeListDot false false r))))
      with false.
    cbn [negb orb andb]. rewrite orb_true_r. apply IH.
  - cbn [noLineStart]. rewrite IH, andb_true_r.
    destruct st; [| reflexivity]. cbn [negb orb].
    destruct (digitsDotSpace (String x r)) eqn:Em.
    + pose proof (digitsDotSpace_digit _ _ Em) as Ed.
      rewrite (digit_not_terminator x Ed).
      unfold digitsDotSpace in Em |- *. cbn [takeWhile dropWhile] in Em |- *.
      rewrite Ed in Em |- *. cbn [isEmpty negb andb] in Em |- *.
      now rewrite (number_dot_escaped r Em).
    + destruct (digitsDotSpace (String x (escapeListDot (isLineTerminator x) false r)))
        eqn:E'; [| reflexivity].
      rewrite (dots_reflected (String x r) _
                 (inserted_keep x _ _ (escapeListDot_inserted r _ _)) E') in Em.
      discriminate Em.
Qed.

(** ** The three patterns after all twelve rules *)

Lemma escapeMarkdown_patterns text :
  noLineStart (startsWith "+ ") true (escapeMarkdown text) = true /\
  noLineStart sharpsThenSpace true (escapeMarkdown text) = true /\
  noLineStart digitsDotSpace true (escapeMarkdown text) = true.
Proof.
  unfold escapeMarkdown.
  set (s3 := escDash (escStar (escBackslash text))).
  pose proof (escapeLineStart_clears (startsWith "+ ") (fun _ => eq_refl)
                plus_reflected s3 true) as P.
  fold (escPlus s3) in P.
  assert (HP : forall s s', inserted s s' ->
                 noLineStart (startsWith "+ ") true s = true ->
                 noLineStart (startsWith "+ ") true s' = true).
  { intros s s' H. exact (inserted_noLineStart _ plus_reflected s s' H true). }
  assert (HS : forall s s', inserted s s' ->
                 noLineStart sharpsThenSpace true s = true ->
                 noLineStart sharpsThenSpace true s' = true).
  { intros s s' H. exact (inserted_noLineStart _ sharps_reflected s s' H true). }
  apply (HP _ _ (escapeLineStart_inserted (startsWith "=") _ true)) in P.
  fold (escEquals (escPlus s3)) in P.
  set (s5 := escEquals (escPlus s3)) in *.
  apply (HP _ _ (escapeLineStart_inserted sharpsThenSpace _ true)) in P.
  pose proof (escapeLineStart_clears sharpsThenSpace (fun _ => eq_refl)
                sharps_reflected s5 true) as S.
  fold (escSharp s5) in P, S.
  set (s6 := escSharp s5) in *.
  apply (HP _ _ (replaceChar_inserted BACKTICK s6)) in P.
  apply (HS _ _ (replaceChar_inserted BACKTICK s6)) in S.
  change (replaceChar BACKTICK (String "\" (String BACKTICK "")) s6)
    with (escBacktick s6) in P, S.
  set (s7 := escBacktick s6) in *.
  apply (HP _ _ (replaceChar_inserted "[" s7)) in P.
  apply (HS _ _ (replaceChar_inserted "[" s7)) in S.
  change (replaceChar "[" (String "\" (String "[" "")) s7) with (escOpenBracket s7) in P, S.
  set (s8 := escOpenBracket s7) in *.
  apply (HP _ _ (replaceChar_inserted "]" s8)) in P.
  apply (HS _ _ (replaceChar_inserted "]" s8)) in S.
  change (replaceChar "]" (String "\" (String "]" "")) s8) with (escCloseBracket s8) in P, S.
  set (s9 := escCloseBracket s8) in *.
  apply (HP _ _ (escapeLineStart_inserted (startsWith ">") s9 true)) in P.
  apply (HS _ _ (escapeLineStart_inserted (startsWith ">") s9 true)) in S.
  fold (escQuoteMark s9) in P, S.
  set (s10 := escQuoteMark s9) in *.
  apply (HP _ _ (replaceChar_inserted "_" s10)) in P.
  apply (HS _ _ (replaceChar_inserted "_" s10)) in S.
  change (replaceChar "_" (String "\" (String "_" "")) s10) with (escUnderscore s10) in P, S.
  set (s11 := escUnderscore s10) in *.
  apply (HP _ _ (escapeListDot_inserted s11 true false)) in P.
  apply (HS _ _ (escapeListDot_inserted s11 true false)) in S.
  fold (escListDot s11) in P, S.
  split; [exact P |]. split; [exact S |].
  apply escapeListDot_clears.
Qed.

(** ** One space for a run *)

Lemma replaceRuns_inside (p : ascii -> bool) (rep : string) s :
  replaceRuns p rep true s = replaceRuns p rep false (dropWhile p s).
Proof.
  induction s as [| c r IH]; [reflexivity |].
  cbn [replaceRuns dropWhile]. destruct (p c) eqn:E; [exact IH |].
  cbn [replaceRuns]. now rewrite E.
Qed.

Lemma collapseWhitespace_step c r :
  collapseWhitespace (String c r) false =
  if isCollapsible c
  then String " " (collapseWhitespace (dropWhile isCollapsible r) false)
  else String c (collapseWhitespace r false).
Proof.
  unfold collapseWhitespace. cbn [replaceRuns].
  destruct (isCollapsible c); [| reflexivity].
  now rewrite replaceRuns_inside.
Qed.

(** ** Text nodes *)

Section TextNodes.

Variable numberPlus : string -> nat -> string.

(** C2. A text node walked outside a code context with escaping on is the
    escape of its collapsed text; with escaping suppressed it is the
    collapsed text.  Collapsing keeps every character that is no space,
    tab, carriage return or line feed and writes one space for each run of
    those.  The escape is the twelve rules in the order backslash, star,
    dash, plus, equals, sharp, backtick, brackets, closing angle bracket,
    underscore, list dot.  In its result every backslash of the text is
    doubled and every other backslash stands in front of one of the
    escaped characters, so that dropping the escaping backslashes gives the
    text back (no rule touches what another has put in, whereas doubling
    backslashes after the star rule would); every star, backtick, bracket
    and underscore is escaped; no line starts with a dash, an equals sign
    or a closing angle bracket, with a plus and a space, with one to six
    sharps and a space, or with digits, a dot and a space; and a text
    without any of these is left as it is. *)
Theorem text_node_is_escaped (fuel : nat) (pl : place) (data : string) :
  processNode numberPlus (S fuel) {| isCode := false; noEscape := false |} pl (Text data)
  = Some (escapeMarkdown (collapseWhitespace data false)) /\
  render numberPlus {| isCode := false; noEscape := false |} pl (Text data)
  = Some (escapeMarkdown (collapseWhitespace data false)) /\
  render numberPlus {| isCode := false; noEscape := true |} pl (Text data)
  = Some (collapseWhitespace data false) /\
  collapseWhitespace "" false = "" /\
  (forall c r,
     collapseWhitespace (String c r) false =
     if isCollapsible c
     then String " " (collapseWhitespace (dropWhile isCollapsible r) false)
     else String c (collapseWhitespace r false)) /\
  allChars (fun c => negb (isBreak c)) (collapseWhitespace data false) = true /\
  noAdjacent isSpace isSpace (collapseWhitespace data false) = true /\
  (forall text,
     escapeMarkdown text =
     escListDot (escUnderscore (escQuoteMark (escCloseBracket (escOpenBracket
       (escBacktick (escSharp (escEquals (escPlus (escDash (escStar
         (escBackslash text)))))))))))) /\
  (forall text, unescape (escapeMarkdown text) = text) /\
  (forall text, wellEscaped (inSet escapedChars) (escapeMarkdown text) = true) /\
  (forall text, onlyEscaped (inSet markupChars) (escapeMarkdown text) = true) /\
  (forall text,
     lineStarts (fun c => negb (inSet leadChars c)) true (escapeMarkdown text) = true) /\
  (forall text, noLineStart (startsWith "+ ") true (escapeMarkdown text) = true) /\
  (forall text, noLineStart sharpsThenSpace true (escapeMarkdown text) = true) /\
  (forall text, noLineStart digitsDotSpace true (escapeMarkdown text) = true) /\
  (forall text,
     allChars (fun c => negb (inSet inlineChars c)) text = true ->
     lineStarts (fun c => negb (inSet leaderChars c || isDigit c)) true text = true ->
     escapeMarkdown text = text) /\
  render numberPlus {| isCode := false; noEscape := false |} pl (Text "- not a list")
  = Some "\- not a list" /\
  render numberPlus {| isCode := false; noEscape := true |} pl (Text "- not a list")
  = Some "- not a list" /\
  escapeMarkdown "\*" = "\\\*" /\
  unescape (escBackslash (escStar "*")) = "\*" /\
  map (render numberPlus {| isCode := false; noEscape := false |} pl)
      [Text "+ a"; Text "+a"; Text "=== t"; Text "## h"; Text "#h"; Text "####### h";
       Text "> q"; Text "1. x"; Text "1.x"; Text "1) x";
       Text "a*b_c`d[e]f\g"; Text "a - b > c = d + e # f 2. g";
       Text ("a " ++ String TAB nl ++ "  b"); Text (nl ++ "- a")]
  = map Some
      ["\+ a"; "+a"; "\=== t"; "\## h"; "#h"; "####### h";
       "\> q"; "1\. x"; "1.x"; "1) x";
       "a\*b\_c\`d\[e\]f\\g"; "a - b > c = d + e # f 2. g";
       "a b"; " - a"].
Proof.
  split; [reflexivity |]. split; [reflexivity |]. split; [reflexivity |].
  split; [reflexivity |].
  split; [exact collapseWhitespace_step |].
  split; [apply collapsed_shape |]. split; [apply collapsed_shape |].
  split; [reflexivity |].
  split; [intros text; apply escapeMarkdown_unescape |].
  split; [intros text; apply escapeMarkdown_unescape |].
  split; [intros text; apply escapeMarkdown_guarded |].
  split; [intros text; apply escapeMarkdown_guarded |].
  split; [intros text; apply escapeMarkdown_patterns |].
  split; [intros text; apply escapeMarkdown_patterns |].
  split; [intros text; apply escapeMarkdown_patterns |].
  split; [exact escapeMarkdown_untouched |].
  repeat split; reflexivity.
Qed.

End TextNodes.

Lemma text_node_is_escaped_witness :
  render numberPlusIndex plain detached (Text "So it goes.")
  = Some (escapeMarkdown (collapseWhitespace "So it goes." false)) /\
  escapeMarkdown "So it goes." = "So it goes.".
Proof.
  destruct (text_node_is_escaped numberPlusIndex 0 detached "So it goes.")
    as (_ & H & _ & _ & _ & _ & _ & _ & _ & _ & _ & _ & _ & _ & _ & P & _).
  split; [exact H | exact (P "So it goes." eq_refl eq_refl)].
Defined.

(** ** Lines *)

Lemma split_first_piece c s : exists first others, split c s = first :: others.
Proof.
  induction s as [| d r (f & o & IH)]; [exists "", []; reflexivity |].
  cbn [split]. destruct (Ascii.eqb d c).
  - exists "", (split c r). reflexivity.
  - rewrite IH. exists (String d f), o. reflexivity.
Qed.

Lemma split_pieces s : Forall (fun piece => noNewline piece = true) (split LF s).
Proof.
  induction s as [| d r IH]; [repeat constructor |].
  cbn [split]. destruct (Ascii.eqb d LF) eqn:E.
  - constructor; [reflexivity | exact IH].
  - destruct (split LF r) as [| h t]; [repeat constructor; unfold noNewline; cbn; now rewrite E |].
    inversion IH; subst. constructor; [| assumption].
    unfold noNewline in *. cbn [allChars]. now rewrite E.
Qed.

Lemma join_cons sep x y l :
  join sep (x :: y :: l) = x ++ sep ++ join sep (y :: l).
Proof. reflexivity. Qed.

Lemma join_split s : join nl (split LF s) = s.
Proof.
  induction s as [| d r IH]; [reflexivity |].
  cbn [split]. destruct (Ascii.eqb d LF) eqn:E.
  - apply Ascii.eqb_eq in E. subst d.
    destruct (split_first_piece LF r) as (f & o & Hs). rewrite Hs in *.
    rewrite join_cons, IH. reflexivity.
  - destruct (split_first_piece LF r) as (h & t & Hs). rewrite Hs in *.
    destruct t as [| y t].
    + cbn in IH |- *. now rewrite IH.
    + rewrite join_cons in *. cbn [append]. now rewrite IH.
Qed.

Lemma split_piece_then x r :
  noNewline x = true -> split LF (x ++ String LF r) = x :: split LF r.
Proof.
  unfold noNewline. induction x as [| d x IH]; intros H.
  - cbn [append split]. now rewrite Ascii.eqb_refl.
  - cbn [allChars] in H. apply andb_true_iff in H. destruct H as [Hd H].
    apply negb_true_iff in Hd. cbn [append split]. now rewrite Hd, (IH H).
Qed.

Lemma split_piece x : noNewline x = true -> split LF x = [x].
Proof.
  unfold noNewline. induction x as [| d x IH]; intros H; [reflexivity |].
  cbn [allChars] in H. apply andb_true_iff in H. destruct H as [Hd H].
  apply negb_true_iff in Hd. cbn [split]. now rewrite Hd, (IH H).
Qed.

Lemma split_join x l :
  Forall (fun piece => noNewline piece = true) (x :: l) ->
  split LF (join nl (x :: l)) = x :: l.
Proof.
  revert x. induction l as [| y l IH]; intros x H.
  - inversion H; subst. now apply split_piece.
  - inversion H; subst. rewrite join_cons. cbn [nl append].
    rewrite split_piece_then by assumption. now rewrite IH.
Qed.

Lemma noNewline_prefixed p x :
  noNewline p = true -> noNewline x = true -> noNewline (p ++ x) = true.
Proof. unfold noNewline. intros Hp Hx. now rewrite allChars_app, Hp, Hx. Qed.

Lemma prefixed_pieces p l :
  noNewline p = true ->
  Forall (fun piece => noNewline piece = true) l ->
  Forall (fun piece => noNewline piece = true) (map (fun line => p ++ line) l).
Proof.
  intros Hp H. induction H; constructor; [now apply noNewline_prefixed | assumption].
Qed.

(** The lines of a text whose lines were each put behind [p] are those
    lines behind [p]. *)
Lemma split_prefixed p s :
  noNewline p = true ->
  split LF (join nl (map (fun line => p ++ line) (split LF s)))
  = map (fun line => p ++ line) (split LF s).
Proof.
  intros Hp. pose proof (prefixed_pieces p _ Hp (split_pieces s)) as H.
  destruct (split_first_piece LF s) as (f & o & Hs). rewrite Hs in *.
  cbn [map] in *. now apply split_join.
Qed.

Lemma lastChar_app a b : isEmpty b = false -> lastChar (a ++ b) = lastChar b.
Proof.
  intros Hb. induction a as [| c a IH]; [reflexivity |].
  cbn [append lastChar]. rewrite IH.
  destruct (a ++ b) eqn:E; [| reflexivity].
  destruct a; [| discriminate E]. cbn in E. subst b. discriminate Hb.
Qed.

Lemma noNewline_last s : noNewline s = true -> endsWithNewline s = false.
Proof.
  unfold noNewline, endsWithNewline. induction s as [| c r IH]; [reflexivity |].
  cbn [allChars lastChar]. intros H. apply andb_true_iff in H. destruct H as [Hc H].
  destruct r as [| d t]; [| exact (IH H)].
  cbn [charIs]. apply negb_true_iff in Hc. now rewrite Ascii.eqb_sym.
Qed.

Lemma lastChar_cons c b : isEmpty b = false -> lastChar (String c b) = lastChar b.
Proof. destruct b; [discriminate | reflexivity]. Qed.

Lemma join_last x l :
  Forall (fun piece => noNewline piece = true /\ isEmpty piece = false) (x :: l) ->
  endsWithNewline (join nl (x :: l)) = false /\ isEmpty (join nl (x :: l)) = false.
Proof.
  revert x. induction l as [| y l IH]; intros x H.
  - inversion H as [| ? ? [Hn He] _]; subst. cbn [join String.concat].
    split; [now apply noNewline_last | exact He].
  - inversion H as [| ? ? [Hn He] Hl]; subst. rewrite join_cons.
    destruct (IH y Hl) as [I1 I2]. split.
    + unfold endsWithNewline in *. rewrite lastChar_app by reflexivity.
      cbn [nl append]. now rewrite lastChar_cons.
    + destruct x; [discriminate He | reflexivity].
Qed.

(** The body of a list item never ends in a line feed. *)
Lemma indentContinuation_end t : endsWithNewline (indentContinuation t) = false.
Proof.
  unfold indentContinuation.
  pose proof (split_pieces t) as Hp. pose proof (join_split t) as Hj.
  destruct (split_first_piece LF t) as (first & rest & Hs). rewrite Hs in *.
  destruct rest as [| o others].
  - cbn in Hj. subst t. inversion Hp; subst. now apply noNewline_last.
  - inversion Hp as [| ? ? _ Hrest]; subst.
    assert (H : Forall (fun piece => noNewline piece = true /\ isEmpty piece = false)
                       (map (fun line => "  " ++ line) (o :: others))).
    { clear - Hrest. induction Hrest; constructor; [| assumption].
      split; [now apply noNewline_prefixed | reflexivity]. }
    cbn [map] in H. destruct (join_last _ _ H) as [H1 H2].
    unfold endsWithNewline in *. rewrite lastChar_app by reflexivity.
    cbn [nl append]. cbn [map]. now rewrite lastChar_cons.
Qed.

Lemma indentContinuation_lines t :
  split LF (indentContinuation t) =
  match split LF t with
  | first :: others => first :: map (fun line => "  " ++ line) others
  | [] => []
  end.
Proof.
  unfold indentContinuation.
  pose proof (split_pieces t) as Hp.
  destruct (split LF t) as [| first [| o others]] eqn:Es.
  - destruct (split_first_piece LF t) as (f & r & E). congruence.
  - exact Es.
  - inversion Hp as [| ? ? Hf Hrest]; subst. cbn [nl append].
    rewrite split_piece_then by exact Hf. f_equal.
    pose proof (prefixed_pieces "  " _ eq_refl Hrest) as H.
    cbn [map] in H |- *. now apply split_join.
Qed.

Section MoreWalker.

Variable numberPlus : string -> nat -> string.

(** X5. An element without child nodes renders to the empty string
    whatever its tag and attributes: the blank guard comes before the
    switch, so an image, a rule or a line break as the parser builds it
    never reaches its case. *)
Theorem childless_element_renders_nothing
        (fuel : nat) (opts : options) (pl : place)
        (t : string) (a : attributes) (c : bool) :
  processNode numberPlus (S fuel) opts pl (Elem t a c []) = Some "" /\
  render numberPlus opts pl (Elem t a c []) = Some "".
Proof.
  split; reflexivity.
Qed.

(** X6. The body of a list item never ends in a line feed (its last line
    is a first line or starts with the two spaces of the indentation), so
    the item ends in a line feed exactly when a sibling follows; the lines
    of the body are those of the trimmed content, all but the first two
    columns in. *)
Theorem list_item_line_end (opts : options) (pl : place)
        (a : attributes) (c : bool) (kids : list node) :
  isBlank (Elem "li" a c kids) = false ->
  exists liContent,
    mapChildren (render numberPlus opts) [("li", a)] 0
                (children (cloneWithout isCheckbox (Elem "li" a c kids)))
    = Some liContent /\
    let content := indentContinuation (trimItemNewlines liContent) in
    endsWithNewline content = false /\
    split LF content =
      match split LF (trimItemNewlines liContent) with
      | first :: others => first :: map (fun line => "  " ++ line) others
      | [] => []
      end /\
    render numberPlus opts pl (Elem "li" a c kids) =
    Some (itemPrefix numberPlus pl
          ++ taskListPrefix (querySelector isCheckbox (Elem "li" a c kids))
          ++ content ++ (if hasNextSibling pl then nl else "")).
Proof.
  intros Hb. destruct (render_li numberPlus opts pl a c kids Hb) as (lc & Hlc & Hr).
  exists lc. split; [exact Hlc |]. cbv zeta.
  split; [apply indentContinuation_end |].
  split; [apply indentContinuation_lines |].
  rewrite Hr. unfold renderListItem. rewrite indentContinuation_end.
  now rewrite andb_true_r.
Qed.

(** X7. A block quote that is not blank renders as the lines of its
    trimmed content, each behind [> ], and a blank line. *)
Theorem blockquote_lines (opts : options) (pl : place)
        (a : attributes) (c : bool) (kids : list node) :
  isBlank (Elem "blockquote" a c kids) = false ->
  exists childContent body,
    mapChildren (render numberPlus (childOptions "blockquote" opts))
                (("blockquote", a) :: ancestors pl) 0 kids = Some childContent /\
    render numberPlus opts pl (Elem "blockquote" a c kids) = Some (body ++ nl ++ nl) /\
    split LF body = map (fun line => "> " ++ line) (split LF (trim childContent)).
Proof.
  intros Hb. rewrite render_element by exact Hb.
  destruct (renderChildren_total numberPlus (childOptions "blockquote" opts)
              (("blockquote", a) :: ancestors pl) 0 kids) as [cc ->].
  exists cc. eexists. split; [reflexivity |]. split; [reflexivity |].
  now apply split_prefixed.
Qed.

(** X8. A list that is not blank renders to nothing when its content is
    white space; inside a list item it renders as the lines of its trimmed
    content, each two columns in, between two line feeds; elsewhere as its
    content between two line feeds. *)
Theorem list_lines (opts : options) (pl : place)
        (t : string) (a : attributes) (c : bool) (kids : list node) :
  isBlank (Elem t a c kids) = false ->
  tagIn t ["ul"; "ol"] = true ->
  exists childContent body,
    mapChildren (render numberPlus (childOptions t opts))
                ((t, a) :: ancestors pl) 0 kids = Some childContent /\
    split LF body = map (fun line => "  " ++ line) (split LF (trim childContent)) /\
    render numberPlus opts pl (Elem t a c kids) =
    Some (if isEmpty (trim childContent) then ""
          else if isInsideListItem pl then nl ++ body ++ nl
               else nl ++ childContent ++ nl).
Proof.
  intros Hb Ht. rewrite render_element by exact Hb.
  destruct (renderChildren_total numberPlus (childOptions t opts)
              ((t, a) :: ancestors pl) 0 kids) as [cc ->].
  exists cc. eexists. split; [reflexivity |].
  split; [now apply (split_prefixed "  ") |].
  unfold tagIn in Ht. cbn [existsb] in Ht. rewrite orb_false_r in Ht.
  apply orb_true_iff in Ht.
  destruct Ht as [Ht | Ht]; apply String.eqb_eq in Ht; subst t; reflexivity.
Qed.

(** X9. An element that is not blank and whose tag the switch has no case
    for renders as its children do, walked with the flags it was given. *)
Theorem unknown_tag_passes_through (opts : options) (pl : place)
        (t : string) (a : attributes) (c : bool) (kids : list node) :
  isBlank (Elem t a c kids) = false ->
  tagIn t knownTags = false ->
  render numberPlus opts pl (Elem t a c kids) =
  mapChildren (render numberPlus opts) ((t, a) :: ancestors pl) 0 kids.
Proof.
  intros Hb Ht. rewrite render_element by exact Hb.
  unfold tagIn, knownTags in Ht. cbn [existsb] in Ht.
  repeat (apply orb_false_iff in Ht; destruct Ht as [? Ht]).
  assert (Hcode : String.eqb t "code" = false) by assumption.
  assert (Hpre : String.eqb t "pre" = false) by assumption.
  assert (Ho : childOptions t opts = opts).
  { unfold childOptions. rewrite Hcode, Hpre. destruct opts as [ic ne]. cbn.
    now rewrite !orb_false_r, andb_true_r. }
  rewrite Ho.
  destruct (mapChildren _ _ 0 kids) as [cc |]; [| reflexivity].
  unfold switchTag, headingLevel, tagIn. cbn [existsb].
  repeat match goal with
         | H : String.eqb t _ = false |- _ => rewrite H; clear H
         end.
  reflexivity.
Qed.

(** A text node is copied inside code, collapsed outside, and escaped
    unless one of the two flags is set. *)
Lemma render_text_node opts pl data :
  render numberPlus opts pl (Text data) =
  Some (if isCode opts then data
        else if noEscape opts then collapseWhitespace data false
             else escapeMarkdown (collapseWhitespace data false)).
Proof.
  unfold render. cbn. destruct (isCode opts), (noEscape opts); reflexivity.
Qed.

(** X19. The children of a preformatted block are walked outside the code
    context, whatever the block itself is in: text that stands in the
    block without a code element is collapsed, and escaped unless
    [noEscape] is set, before it is fenced. *)
Theorem pre_text_is_collapsed (opts : options) (pl : place)
        (a : attributes) (c : bool) (data : string) :
  isAllWhiteSpace data = false ->
  render numberPlus opts pl (Elem "pre" a c [Text data]) =
  Some ("```" ++ nl
        ++ trim (if noEscape opts then collapseWhitespace data false
                 else escapeMarkdown (collapseWhitespace data false))
        ++ nl ++ "```" ++ nl ++ nl).
Proof.
  intros Hd.
  assert (Hb : isBlank (Elem "pre" a c [Text data]) = false).
  { unfold isBlank. cbn. exact Hd. }
  rewrite render_element by exact Hb.
  cbn [mapChildren].
  rewrite render_text_node.
  assert (Hc : isCode (childOptions "pre" opts) = false).
  { unfold childOptions. cbn. now rewrite andb_false_r. }
  assert (Hn : noEscape (childOptions "pre" opts) = noEscape opts) by reflexivity.
  rewrite Hc, Hn, append_empty_r.
  reflexivity.
Qed.

(** X20. A link that is not blank and has no [href] attribute, or an empty
    one, renders as its children do. *)
Theorem link_without_target (opts : options) (pl : place)
        (a : attributes) (c : bool) (kids : list node) :
  isBlank (Elem "a" a c kids) = false ->
  getAttribute "href" a = None \/ getAttribute "href" a = Some "" ->
  render numberPlus opts pl (Elem "a" a c kids) =
  mapChildren (render numberPlus opts) (("a", a) :: ancestors pl) 0 kids.
Proof.
  intros Hb Hh. rewrite render_element by exact Hb.
  assert (Ho : childOptions "a" opts = opts).
  { unfold childOptions. destruct opts as [ic ne]. cbn.
    now rewrite !orb_false_r, andb_true_r. }
  rewrite Ho.
  destruct (mapChildren _ _ 0 kids) as [cc |]; [| reflexivity].
  unfold switchTag. cbn [headingLevel String.eqb Ascii.eqb Bool.eqb tagIn existsb orb].
  unfold renderAnchor. destruct Hh as [-> | ->]; reflexivity.
Qed.

End MoreWalker.

(** ** More on tables *)

Lemma replacePipe_first s :
  firstChar (replaceChar "|" "\|" s) =
  match firstChar s with
  | Some c => Some (if Ascii.eqb c "|" then "\"%char else c)
  | None => None
  end.
Proof. destruct s as [| c r]; [reflexivity |]. cbn. now destruct (Ascii.eqb c "|"). Qed.

Lemma replacePipe_last s :
  lastChar (replaceChar "|" "\|" s) = lastChar s.
Proof.
  induction s as [| c r IH]; [reflexivity |].
  cbn [replaceChar]. destruct (Ascii.eqb c "|") eqn:E.
  - apply Ascii.eqb_eq in E. subst c. cbn [append].
    destruct r as [| d t]; [reflexivity |].
    rewrite lastChar_cons by reflexivity.
    rewrite lastChar_cons.
    + rewrite IH. reflexivity.
    + cbn [replaceChar]. now destruct (Ascii.eqb d "|").
  - destruct r as [| d t]; [reflexivity |].
    rewrite lastChar_cons.
    + rewrite IH. reflexivity.
    + cbn [replaceChar]. now destruct (Ascii.eqb d "|").
Qed.

Lemma replacePipe_escaped s : pipesEscaped (replaceChar "|" "\|" s) = true.
Proof.
  unfold pipesEscaped. rewrite replacePipe_first.
  assert (H : forall r, noAdjacent (fun x => negb (Ascii.eqb x "\"))
                          (fun y => Ascii.eqb y "|") (replaceChar "|" "\|" r) = true).
  { induction r as [| c r IH]; [reflexivity |].
    cbn [replaceChar]. destruct (Ascii.eqb c "|") eqn:E.
    - cbn [append]. cbn [noAdjacent]. rewrite IH.
      destruct (replaceChar "|" "\|" r) eqn:Er; [reflexivity |].
      pose proof (replacePipe_first r) as Hf. rewrite Er in Hf. cbn [firstChar] in Hf.
      destruct (firstChar r) as [d |]; [| discriminate Hf].
      inversion Hf; subst. cbn. destruct (Ascii.eqb d "|") eqn:Ed; [reflexivity |].
      now rewrite Ed.
    - cbn [noAdjacent]. rewrite IH, andb_true_r.
      destruct (replaceChar "|" "\|" r) eqn:Er; [reflexivity |].
      pose proof (replacePipe_first r) as Hf. rewrite Er in Hf. cbn [firstChar] in Hf.
      destruct (firstChar r) as [d |]; [| discriminate Hf].
      inversion Hf; subst. destruct (Ascii.eqb d "|") eqn:Ed.
      + cbn. now rewrite andb_false_r.
      + rewrite Ed. now rewrite andb_false_r. }
  rewrite H, andb_true_r.
  destruct (firstChar s) as [c |]; [| reflexivity].
  cbn [charIs]. destruct (Ascii.eqb c "|") eqn:E; [reflexivity |].
  now rewrite Ascii.eqb_sym, E.
Qed.

(** X10. The text of a cell has no white space at either end, and every
    pipe in it stands behind a backslash. *)
Theorem getCellText_safe (cell : node) :
  isTrimmed (getCellText cell) = true /\ pipesEscaped (getCellText cell) = true.
Proof.
  unfold getCellText. split; [| apply replacePipe_escaped].
  pose proof (trim_isTrimmed (textContent cell)) as H.
  unfold isTrimmed in *. rewrite replacePipe_first, replacePipe_last.
  apply andb_true_iff in H. destruct H as [H1 H2]. rewrite H2, andb_true_r.
  destruct (firstChar (trim (textContent cell))) as [c |]; [| reflexivity].
  destruct (Ascii.eqb c "|"); [reflexivity | exact H1].
Qed.

Lemma filter_rows_none sel tag body :
  (forall r, sel (tr tag r) = false) ->
  (forall t, sel (cell tag t) = false) ->
  (forall t, sel (Text t) = false) ->
  filter sel (flat_map (fun k => k :: descendants k) (map (tr tag) body)) = [].
Proof.
  intros Hr Hc Ht. induction body as [| r body IH]; [reflexivity |].
  cbn [map flat_map]. rewrite filter_app. cbn [filter].
  now rewrite Hr, (filter_tr_none sel tag r Hc Ht), IH.
Qed.

(** X11. When a table has a head section and its other rows are in no body
    section, the head row is read twice: it gives the header and separator
    lines and, when it has cells, a data line as well; when it has none,
    the two lines are still written, empty. *)
Theorem head_without_body_repeats_header (header : list string) (body : list (list string)) :
  tableRows (headOnlyTable header body) =
  (headerPair (map cellText header)
   ++ (if isEmptyList header then [] else [formatTableRow (map cellText header)])
   ++ map (fun r => formatTableRow (map cellText r))
          (filter (fun r => negb (isEmptyList r)) body))%list.
Proof.
  unfold tableRows.
  assert (Hd : descendants (headOnlyTable header body) =
               (el "thead" [] [tr "th" header] :: tr "th" header ::
                descendants (tr "th" header) ++
                flat_map (fun k => k :: descendants k) (map (tr "td") body))%list).
  { unfold headOnlyTable, el at 1 2. cbn [descendants flat_map].
    rewrite !app_nil_r. reflexivity. }
  assert (Hhead : querySelector (hasTag ["thead"]) (headOnlyTable header body)
                  = Some (el "thead" [] [tr "th" header])).
  { unfold querySelector, querySelectorAll. rewrite Hd. reflexivity. }
  assert (Hbody : querySelector (hasTag ["tbody"]) (headOnlyTable header body) = None).
  { unfold querySelector, querySelectorAll. rewrite Hd. cbn [filter].
    replace (hasTag ["tbody"] (el "thead" [] [tr "th" header])) with false by reflexivity.
    replace (hasTag ["tbody"] (tr "th" header)) with false by reflexivity.
    rewrite filter_app, filter_tr_none, filter_rows_none by reflexivity.
    reflexivity. }
  assert (Hrows : querySelectorAll (hasTag ["tr"]) (headOnlyTable header body)
                  = tr "th" header :: map (tr "td") body).
  { unfold querySelectorAll. rewrite Hd. cbn [filter].
    replace (hasTag ["tr"] (el "thead" [] [tr "th" header])) with false by reflexivity.
    replace (hasTag ["tr"] (tr "th" header)) with true by reflexivity.
    rewrite filter_app, filter_tr_none by reflexivity.
    change (flat_map (fun k => k :: descendants k) (map (tr "td") body))
      with (descendants (el "tbody" [] (map (tr "td") body))).
    rewrite rows_of_section by reflexivity. reflexivity. }
  rewrite Hhead, Hbody, Hrows.
  assert (Hrow : querySelector (hasTag ["tr"]) (el "thead" [] [tr "th" header])
                 = Some (tr "th" header)) by reflexivity.
  rewrite Hrow. cbn [isSome negb].
  rewrite fold_pushDirectRow_data. cbn [fst].
  unfold addHeaderRow, headerPair, nonEmptyRows. cbn [app map filter].
  rewrite !getCellsFromRow_tr by reflexivity.
  fold (nonEmptyRows (map (tr "td") body)).
  rewrite nonEmptyRows_tr by reflexivity.
  destruct header; cbn [map isEmptyList negb app]; rewrite !map_map; reflexivity.
Qed.

(** ** Removing the unwanted elements *)

Lemma removeAll_tag tags sel n : hasTag tags (removeAll sel n) = hasTag tags n.
Proof. destruct n; reflexivity. Qed.

Lemma removeAll_clean tags n :
  querySelectorAll (hasTag tags) (removeAll (hasTag tags) n) = [].
Proof.
  unfold querySelectorAll.
  induction n as [d | d | t a c kids IH] using node_rect_forall; try reflexivity.
  cbn [removeAll descendants].
  induction kids as [| k r IHr]; [reflexivity |].
  inversion IH as [| ? ? Hk Hr]; subst. specialize (IHr Hr).
  destruct (hasTag tags k) eqn:Ek; [exact IHr |].
  cbn [flat_map]. rewrite <- app_comm_cons. cbn [filter].
  rewrite removeAll_tag, Ek, filter_app, Hk. exact IHr.
Qed.

Lemma removeAll_idempotent tags n :
  removeAll (hasTag tags) (removeAll (hasTag tags) n) = removeAll (hasTag tags) n.
Proof.
  induction n as [d | d | t a c kids IH] using node_rect_forall; try reflexivity.
  cbn [removeAll]. f_equal.
  induction kids as [| k r IHr]; [reflexivity |].
  inversion IH as [| ? ? Hk Hr]; subst. specialize (IHr Hr).
  destruct (hasTag tags k) eqn:Ek; [exact IHr |].
  rewrite removeAll_tag, Ek, Hk. f_equal. exact IHr.
Qed.

Lemma removeAll_child sel t a c before k after :
  sel k = true ->
  removeAll sel (Elem t a c (before ++ k :: after)) =
  removeAll sel (Elem t a c (before ++ after)).
Proof.
  intros Hk. cbn [removeAll]. f_equal.
  induction before as [| b before IH]; cbn [app].
  - now rewrite Hk.
  - destruct (sel b); [exact IH | now f_equal].
Qed.

(** X12. After the removal no element with one of the tags is left below
    the root, removing again changes nothing, the root keeps its tag, and
    a child with one of the tags might as well not be there. *)
Theorem removeAll_leaves_none (tags : list string) (n : node) :
  querySelectorAll (hasTag tags) (removeAll (hasTag tags) n) = [] /\
  removeAll (hasTag tags) (removeAll (hasTag tags) n) = removeAll (hasTag tags) n /\
  hasTag tags (removeAll (hasTag tags) n) = hasTag tags n /\
  (forall t a c before k after,
     hasTag tags k = true ->
     removeAll (hasTag tags) (Elem t a c (before ++ k :: after)) =
     removeAll (hasTag tags) (Elem t a c (before ++ after))).
Proof.
  split; [apply removeAll_clean |]. split; [apply removeAll_idempotent |].
  split; [apply removeAll_tag |]. intros. now apply removeAll_child.
Qed.

Section MoreExporter.

Variable numberPlus : string -> nat -> string.

(** X13. [htmlToMarkdown] gives the empty string for no element, and
    otherwise the trimmed text of the walk over the copy without script,
    style, svg and button elements: the result has no white space at
    either end and does not depend on such elements. *)
Theorem htmlToMarkdown_clean (opts : options) :
  htmlToMarkdown numberPlus None opts = "" /\
  (forall element, isTrimmed (htmlToMarkdown numberPlus element opts) = true) /\
  (forall e, htmlToMarkdown numberPlus (Some (removeAll unwanted e)) opts
             = htmlToMarkdown numberPlus (Some e) opts) /\
  (forall t a c before k after,
     unwanted k = true ->
     htmlToMarkdown numberPlus (Some (Elem t a c (before ++ k :: after))) opts =
     htmlToMarkdown numberPlus (Some (Elem t a c (before ++ after))) opts) /\
  (forall e, exists s,
     render numberPlus opts detached (removeAll unwanted e) = Some s /\
     htmlToMarkdown numberPlus (Some e) opts = trim s).
Proof.
  split; [reflexivity |].
  split.
  { intros [e |]; [apply trim_isTrimmed | reflexivity]. }
  split.
  { intros e. unfold htmlToMarkdown, unwanted. now rewrite removeAll_idempotent. }
  split.
  { intros t a c before k after Hk. unfold htmlToMarkdown.
    now rewrite (removeAll_child unwanted t a c before k after Hk). }
  intros e. unfold htmlToMarkdown, renderString.
  destruct (render_total numberPlus opts detached (removeAll unwanted e)) as [s Hs].
  exists s. now rewrite Hs.
Qed.

End MoreExporter.

(** ** The text of a user message *)

(** X14. The text [extractTextContent] returns has no white space at
    either end, no tab, no two spaces in a row, no space next to a line
    feed and no three line feeds in a row; tidying it again changes
    nothing. *)
Theorem extractTextContent_normal (element : option node) :
  extractTextContent None = "" /\
  isTrimmed (extractTextContent element) = true /\
  allChars (fun c => negb (Ascii.eqb c TAB)) (extractTextContent element) = true /\
  noAdjacent isSpace isSpace (extractTextContent element) = true /\
  noAdjacent isLF isSpace (extractTextContent element) = true /\
  noAdjacent isSpace isLF (extractTextContent element) = true /\
  noTripleNewline (extractTextContent element) = true /\
  tidyText (extractTextContent element) = extractTextContent element.
Proof.
  split; [reflexivity |].
  destruct element as [e |]; [| repeat split].
  exact (tidyText_normal (textContent (removeAll unwanted e))).
Qed.

(** ** The name of the file *)

Lemma substring_prefix n s : exists v, s = substring 0 n s ++ v.
Proof.
  revert s. induction n as [| n IH]; intros s.
  - exists s. now destruct s.
  - destruct s as [| c r]; [exists ""; reflexivity |].
    destruct (IH r) as [v Hv]. exists v. cbn [substring append]. now f_equal.
Qed.

Lemma substring_length n s : String.length (substring 0 n s) <= n.
Proof.
  revert s. induction n as [| n IH]; intros s.
  - destruct s; simpl; lia.
  - destruct s as [| c r]; [simpl; lia |]. cbn [substring String.length].
    specialize (IH r). lia.
Qed.

Lemma mapChars_allChars (q : ascii -> bool) f s :
  (forall c, q (f c) = true) -> allChars q (mapChars f s) = true.
Proof.
  intros H. induction s as [| c r IH]; [reflexivity |].
  cbn [mapChars allChars]. now rewrite H, IH.
Qed.

Lemma uint_digits d : allChars isDigit (NilEmpty.string_of_uint d) = true.
Proof. induction d; cbn [NilEmpty.string_of_uint allChars]; try rewrite IHd; reflexivity. Qed.

Lemma append_length a b : String.length (a ++ b) = String.length a + String.length b.
Proof. induction a as [| c a IH]; [reflexivity |]. cbn. now rewrite IH. Qed.

(** X16. The title part of the file name has at most 50 characters, all
    letters, digits or underscores, with no two underscores in a row; the
    whole name is made of letters, digits, underscores and dots. *)
Theorem fileName_safe (conversationTitle : string) (now : nat) :
  String.length (safeTitle conversationTitle) <= 50 /\
  allChars (fun c => isAlnum c || Ascii.eqb c "_") (safeTitle conversationTitle) = true /\
  noAdjacent (Ascii.eqb "_") (Ascii.eqb "_") (safeTitle conversationTitle) = true /\
  allChars isNameChar (fileName conversationTitle now) = true /\
  String.length (fileName conversationTitle now)
  <= 62 + String.length (natToString now).
Proof.
  assert (H1 : String.length (safeTitle conversationTitle) <= 50)
    by apply substring_length.
  assert (H2 : allChars (fun c => isAlnum c || Ascii.eqb c "_")
                        (safeTitle conversationTitle) = true).
  { unfold safeTitle.
    destruct (substring_prefix 50
                (replaceRuns (Ascii.eqb "_") "_" false
                   (mapChars (fun c => if isAlnum c then c else "_"%char)
                             conversationTitle))) as [v Hv].
    assert (H : allChars (fun c => isAlnum c || Ascii.eqb c "_")
                  (replaceRuns (Ascii.eqb "_") "_" false
                     (mapChars (fun c => if isAlnum c then c else "_"%char)
                               conversationTitle)) = true).
    { apply (replaceRuns_allChars _ _ "_" eq_refl).
      apply mapChars_allChars. intros c.
      destruct (isAlnum c) eqn:E; [now rewrite E | reflexivity]. }
    rewrite Hv, allChars_app in H. apply andb_true_iff in H. apply H. }
  split; [exact H1 |]. split; [exact H2 |].
  split.
  { unfold safeTitle.
    destruct (substring_prefix 50
                (replaceRuns (Ascii.eqb "_") "_" false
                   (mapChars (fun c => if isAlnum c then c else "_"%char)
                             conversationTitle))) as [v Hv].
    destruct (replaceRuns_invariant (Ascii.eqb "_") "_" eq_refl
                (mapChars (fun c => if isAlnum c then c else "_"%char)
                          conversationTitle) false) as [H _].
    rewrite Hv in H. apply noAdjacent_app in H. apply H. }
  split.
  - unfold fileName. rewrite !allChars_app.
    assert (H3 : allChars isNameChar (safeTitle conversationTitle) = true).
    { apply (allChars_weaken _ _ _) with (2 := H2).
      intros c H. unfold isNameChar. now rewrite H. }
    assert (H4 : allChars isNameChar (natToString now) = true).
    { apply (allChars_weaken _ _ _) with (2 := uint_digits (Nat.to_uint now)).
      intros c H. unfold isNameChar, isAlnum. unfold isDigit in H.
      now rewrite H. }
    now rewrite H3, H4.
  - unfold fileName. rewrite !append_length. cbn [String.length]. lia.
Qed.

(** ** The title *)

Lemma replaceFirst_suffix name :
  allChars (fun c => negb (Ascii.eqb c "|")) name = true ->
  replaceFirst " | ChatGPT" "" (name ++ " | ChatGPT") = name /\
  replaceFirst " | ChatGPT" "" name = name.
Proof.
  induction name as [| c r IH]; intros H; [split; reflexivity |].
  cbn [allChars] in H. apply andb_true_iff in H. destruct H as [Hc H].
  destruct (IH H) as [I1 I2].
  assert (Hno : forall tail, startsWith " | ChatGPT" (String c (r ++ tail)) = false
                             \/ (r = "" /\ True)).
  { intros tail. destruct r as [| d r']; [now right |]. left.
    cbn [allChars] in H. apply andb_true_iff in H. destruct H as [Hd _].
    apply negb_true_iff in Hd. cbn [append startsWith].
    rewrite (Ascii.eqb_sym "|" d), Hd. now rewrite andb_false_r. }
  split.
  - cbn [append replaceFirst].
    destruct (Hno " | ChatGPT") as [E | [E _]].
    + rewrite E. now rewrite I1.
    + subst r. cbn [append] in *.
      destruct (Ascii.eqb " " c) eqn:Ec; cbn [startsWith]; rewrite Ec; cbn [andb].
      * cbn. reflexivity.
      * cbn. reflexivity.
  - cbn [replaceFirst].
    destruct (Hno "") as [E | [E _]].
    + rewrite append_empty_r in E. rewrite E. now rewrite I2.
    + subst r. cbn [startsWith]. rewrite andb_false_r. reflexivity.
Qed.

(** X17. A title without pipe character is the conversation title,
    whether or not the text of the title element carries the [ | ChatGPT]
    suffix behind it. *)
Theorem conversationTitle_stripped (document titleElement : node) (name : string) :
  querySelector (hasTag ["title"]) document = Some titleElement ->
  allChars (fun c => negb (Ascii.eqb c "|")) name = true ->
  (textContent titleElement = name ++ " | ChatGPT" ->
   conversationTitleOf document = name) /\
  (textContent titleElement = name -> conversationTitleOf document = name).
Proof.
  intros Hq Hn. unfold conversationTitleOf. rewrite Hq.
  destruct (replaceFirst_suffix name Hn) as [H1 H2].
  split; intros ->; assumption.
Qed.

(** ** The exported document *)

Lemma anyChar_app q u v : anyChar q (u ++ v) = anyChar q u || anyChar q v.
Proof.
  induction u as [| c u IH]; [reflexivity |].
  cbn [append anyChar]. now rewrite IH, orb_assoc.
Qed.

Lemma capNewlines_anyChar (q : ascii -> bool) :
  (forall c, q c = true -> Ascii.eqb c LF = false) ->
  forall s k, anyChar q s = true -> anyChar q (capNewlines k s) = true.
Proof.
  intros Hq. induction s as [| c r IH]; intros k H; [discriminate |].
  cbn [anyChar] in H. cbn [capNewlines].
  destruct (q c) eqn:Ec.
  - rewrite (Hq c Ec). cbn [anyChar]. now rewrite Ec.
  - cbn [orb] in H.
    destruct (Ascii.eqb c LF); [destruct (2 <=? k) |];
      cbn [anyChar]; rewrite ?Ec; cbn [orb]; apply IH; exact H.
Qed.

Lemma dropWhileEnd_nonempty p s :
  anyChar (fun c => negb (p c)) s = true -> isEmpty (dropWhileEnd p s) = false.
Proof.
  induction s as [| c r IH]; [discriminate |].
  cbn [anyChar dropWhileEnd]. destruct (p c); cbn [negb orb andb].
  - intros H. now rewrite (IH H).
  - reflexivity.
Qed.

Lemma dropWhileEnd_cons p c r :
  dropWhileEnd p (String c r) =
  if p c && isEmpty (dropWhileEnd p r) then "" else String c (dropWhileEnd p r).
Proof. reflexivity. Qed.

Lemma cleanupMarkdown_heading body :
  anyChar notSpace body = true ->
  startsWith "# " (cleanupMarkdown ("# " ++ body)) = true.
Proof.
  intros H. unfold cleanupMarkdown, trim.
  assert (Hc : anyChar notSpace (capNewlines 0 body) = true).
  { apply capNewlines_anyChar; [| exact H].
    intros c Hc. unfold notSpace in Hc. apply negb_true_iff in Hc.
    destruct (Ascii.eqb c LF) eqn:E; [| reflexivity].
    apply Ascii.eqb_eq in E. subst c. discriminate Hc. }
  pose proof (dropWhileEnd_nonempty isWhiteSpace _ Hc) as Hne.
  change (dropWhile isWhiteSpace (capNewlines 0 ("# " ++ body)))
    with (String "#" (String " " (capNewlines 0 body))).
  rewrite !dropWhileEnd_cons, Hne.
  change (isWhiteSpace " ") with true. change (isWhiteSpace "#") with false.
  reflexivity.
Qed.

Lemma fold_appended {A : Type} (f : A -> string) (l : list A) : forall init,
  exists rest, fold_left (fun acc x => acc ++ f x) l init = init ++ rest.
Proof.
  induction l as [| x l IH]; intros init.
  - exists "". cbn. now rewrite append_empty_r.
  - cbn [fold_left]. destruct (IH (init ++ f x)) as [rest Hr].
    exists (f x ++ rest). rewrite Hr. apply append_assoc.
Qed.

Section ExportedDocument.

Variable numberPlus : string -> nat -> string.

(** X18. [exportChatToMarkdown] returns early exactly when the document
    has no conversation turn; otherwise the file is named from the title
    and the clock, and the text starts with the heading mark, has no white
    space at either end and no three line feeds in a row. *)
Theorem export_result (document : node) (exportedOn : string) (now : nat) :
  match exportChatToMarkdown numberPlus document exportedOn now with
  | None => querySelectorAll isTurn document = []
  | Some (markdown, name) =>
      querySelectorAll isTurn document <> [] /\
      name = fileName (conversationTitleOf document) now /\
      startsWith "# " markdown = true /\
      isTrimmed markdown = true /\
      noTripleNewline markdown = true /\
      cleanupMarkdown markdown = markdown
  end.
Proof.
  unfold exportChatToMarkdown.
  destruct (querySelectorAll isTurn document) as [| turn turns] eqn:Et;
    [reflexivity |].
  cbn [isEmptyList].
  split; [discriminate |]. split; [reflexivity |].
  split; [| split; [apply trim_isTrimmed
                    | split; [apply cleanupMarkdown_noTriple
                             | apply cleanupMarkdown_fixed]]].
  unfold assembleMarkdown.
  destruct (fold_appended (turnSection numberPlus) (turn :: turns)
              ("# " ++ conversationTitleOf document ++ nl ++ nl
               ++ "*Exported on " ++ exportedOn ++ "*" ++ nl ++ nl
               ++ "---" ++ nl ++ nl)) as [rest ->].
  rewrite append_assoc.
  apply cleanupMarkdown_heading.
  rewrite !anyChar_app. apply orb_true_iff. left.
  apply orb_true_iff. right. reflexivity.
Qed.

End ExportedDocument.

(** * The number of an ordered item *)

(** ** Decimal numerals *)

Lemma of_lu_nat_N d :
  N.of_nat (DecimalNat.Unsigned.of_lu d) = DecimalPos.Unsigned.of_lu d.
Proof.
  induction d; [reflexivity | ..];
    rewrite DecimalNat.Unsigned.of_lu_eqn, DecimalPos.Unsigned.of_lu_eqn;
    cbn [DecimalNat.Unsigned.hd DecimalNat.Unsigned.tl
         DecimalPos.Unsigned.hd DecimalPos.Unsigned.tl];
    rewrite Nat2N.inj_add, Nat2N.inj_mul, IHd; reflexivity.
Qed.

Lemma to_uint_nat_N v : N.to_uint (N.of_nat v) = Nat.to_uint v.
Proof.
  rewrite <- (DecimalNat.Unsigned.of_to v) at 1.
  rewrite DecimalNat.Unsigned.of_uint_alt, of_lu_nat_N.
  rewrite <- DecimalPos.Unsigned.of_uint_alt, DecimalPos.Unsigned.to_of.
  rewrite <- DecimalNat.Unsigned.to_of, DecimalNat.Unsigned.of_to. reflexivity.
Qed.

Lemma digitsOf_nat v : digitsOf (Z.of_nat v) = natToString v.
Proof.
  unfold digitsOf, natToString. now rewrite <- nat_N_Z, N2Z.id, to_uint_nat_N.
Qed.

Lemma string_of_revapp d : forall d',
  NilEmpty.string_of_uint (Decimal.revapp d d') =
  NilEmpty.string_of_uint (Decimal.rev d) ++ NilEmpty.string_of_uint d'.
Proof.
  unfold Decimal.rev.
  induction d; intros d'; [reflexivity | ..];
    cbn [Decimal.revapp]; rewrite IHd, (IHd (_ Decimal.Nil));
    cbn [NilEmpty.string_of_uint]; rewrite append_assoc; reflexivity.
Qed.

Lemma natToString_tenfold m : m <> 0 -> natToString (10 * m) = natToString m ++ "0".
Proof.
  intros Hm. unfold natToString.
  rewrite !DecimalNat.Unsigned.to_uint_alt, DecimalNat.Unsigned.to_lu_tenfold by exact Hm.
  unfold Decimal.rev at 1. cbn [Decimal.revapp].
  now rewrite string_of_revapp.
Qed.

Lemma natToString_zeros t : forall m,
  m <> 0 -> natToString (m * 10 ^ t) = natToString m ++ repeatString "0" t.
Proof.
  induction t as [| t IH]; intros m Hm.
  - cbn [Nat.pow repeatString]. now rewrite Nat.mul_1_r, append_empty_r.
  - cbn [repeatString]. replace (m * 10 ^ S t) with ((10 * m) * 10 ^ t)
      by (rewrite Nat.pow_succ_r'; lia).
    rewrite IH by lia. rewrite natToString_tenfold by exact Hm.
    now rewrite append_assoc.
Qed.

Lemma digitsValue_uint d : forall acc,
  digitsValue 10 (Z.of_nat acc) (NilEmpty.string_of_uint d) =
  Some (Z.of_nat (Nat.of_uint_acc d acc)).
Proof.
  induction d; intros acc; [reflexivity | ..];
    cbn [NilEmpty.string_of_uint digitsValue Nat.of_uint_acc];
    match goal with
    | |- context [digitValue ?c] =>
        let v := eval vm_compute in (digitValue c) in
        change (digitValue c) with v
    end;
    cbv beta iota;
    match goal with
    | |- context [(?a <? 10)%Z] => change (a <? 10)%Z with true
    end;
    cbv beta iota;
    rewrite <- IHd; f_equal; rewrite Nat.tail_mul_spec; lia.
Qed.

Lemma digitsValue_natToString v : digitsValue 10 0 (natToString v) = Some (Z.of_nat v).
Proof.
  unfold natToString. rewrite (digitsValue_uint _ 0).
  change (Nat.of_uint_acc (Nat.to_uint v) 0) with (Nat.of_uint (Nat.to_uint v)).
  now rewrite DecimalNat.Unsigned.of_to.
Qed.

(** ** Rounding whole numbers *)

Lemma roundHalfEven_eq p q :
  roundHalfEven p q =
  match (2 * (p mod q) ?= q)%Z with
  | Lt => (p / q)%Z
  | Gt => (p / q + 1)%Z
  | Eq => if Z.even (p / q) then (p / q)%Z else (p / q + 1)%Z
  end.
Proof.
  unfold roundHalfEven, Z.div, Z.modulo. now destruct (Z.div_eucl p q).
Qed.

Lemma roundHalfEven_floor p q : (p / q <= roundHalfEven p q)%Z.
Proof.
  rewrite roundHalfEven_eq.
  destruct (2 * (p mod q) ?= q)%Z; [destruct (Z.even (p / q)) | ..]; lia.
Qed.

Lemma roundHalfEven_multiple m q : (0 < q)%Z -> roundHalfEven (m * q) q = m.
Proof.
  intros Hq. rewrite roundHalfEven_eq.
  rewrite Z.mod_mul, Z.div_mul by lia.
  destruct (Z.compare_spec (2 * 0) q); [lia | reflexivity | lia].
Qed.

Lemma unitsInOne_eq : unitsInOne = (2 ^ 1074)%Z.
Proof. reflexivity. Qed.

Lemma unitsInOne_pos : (0 < unitsInOne)%Z.
Proof. rewrite unitsInOne_eq. apply Z.pow_pos_nonneg; lia. Qed.

Lemma nearestDouble_exact m :
  (0 <= m < 2 ^ 53)%Z ->
  nearestDouble (m * unitsInOne) 1 = Some (m * unitsInOne)%Z.
Proof.
  intros Hm. unfold nearestDouble. rewrite Z.div_1_r, Z.mul_1_l, unitsInOne_eq.
  set (shift := Z.max 0 (Z.log2 (m * 2 ^ 1074) + 1 - 53)).
  assert (Hs : (0 <= shift <= 1074)%Z).
  { unfold shift. destruct (Z.eq_dec m 0) as [-> | Hne].
    - rewrite Z.mul_0_l. change (Z.log2 0) with 0%Z. lia.
    - rewrite Z.log2_mul_pow2 by lia.
      assert (Z.log2 m < 53)%Z by (apply Z.log2_lt_pow2; lia). lia. }
  assert (E : (m * 2 ^ 1074 = (m * 2 ^ (1074 - shift)) * 2 ^ shift)%Z).
  { rewrite <- Z.mul_assoc, <- Z.pow_add_r by lia. do 2 f_equal. lia. }
  assert (Hr : roundHalfEven (m * 2 ^ 1074) (2 ^ shift) = (m * 2 ^ (1074 - shift))%Z).
  { rewrite E. apply roundHalfEven_multiple. apply Z.pow_pos_nonneg; lia. }
  rewrite Hr, <- E.
  assert (m * 2 ^ 1074 < 2 ^ 2098)%Z.
  { apply Z.lt_le_trans with (2 ^ 53 * 2 ^ 1074)%Z.
    - apply Z.mul_lt_mono_pos_r; [apply Z.pow_pos_nonneg; lia | lia].
    - rewrite <- Z.pow_add_r by lia. apply Z.pow_le_mono_r; lia. }
  destruct (Z.ltb_spec (m * 2 ^ 1074) (2 ^ 2098)); [reflexivity | lia].
Qed.

Lemma nearestDouble_large m v :
  (2 ^ 53 <= m)%Z ->
  nearestDouble (m * unitsInOne) 1 = Some v -> (2 ^ 53 * unitsInOne <= v)%Z.
Proof.
  intros Hm. unfold nearestDouble. rewrite Z.div_1_r, Z.mul_1_l, unitsInOne_eq.
  assert (H53 : (0 < 2 ^ 53)%Z) by (apply Z.pow_pos_nonneg; lia).
  assert (Hp : (2 ^ 1127 <= m * 2 ^ 1074)%Z).
  { replace 1127%Z with (53 + 1074)%Z by lia. rewrite Z.pow_add_r by lia.
    apply Z.mul_le_mono_nonneg_r; [apply Z.pow_nonneg; lia | exact Hm]. }
  set (p := (m * 2 ^ 1074)%Z) in *.
  assert (Hp0 : (0 < p)%Z).
  { apply Z.lt_le_trans with (2 ^ 1127)%Z; [apply Z.pow_pos_nonneg; lia | exact Hp]. }
  assert (HL : (1127 <= Z.log2 p)%Z) by (apply Z.log2_le_pow2; lia).
  replace (Z.max 0 (Z.log2 p + 1 - 53)) with (Z.log2 p - 52)%Z by lia.
  set (shift := (Z.log2 p - 52)%Z).
  destruct (_ <? _)%Z; [| discriminate]. intros H. injection H as <-.
  assert (H2 : (0 < 2 ^ shift)%Z) by (apply Z.pow_pos_nonneg; lia).
  assert (Hq : (2 ^ 52 <= p / 2 ^ shift)%Z).
  { apply Z.div_le_lower_bound; [exact H2 |].
    rewrite Z.mul_comm, <- Z.pow_add_r by lia.
    replace (52 + shift)%Z with (Z.log2 p) by lia.
    apply Z.log2_spec. exact Hp0. }
  pose proof (roundHalfEven_floor p (2 ^ shift)) as Hr.
  apply Z.le_trans with (2 ^ 52 * 2 ^ shift)%Z.
  - rewrite <- !Z.pow_add_r by lia. apply Z.pow_le_mono_r; lia.
  - apply Z.mul_le_mono_nonneg_r; lia.
Qed.

(** ** The text of a whole Number *)

Lemma pow10_nonneg e : (0 <= e)%Z -> pow10 e = ((10 ^ e)%Z, 1%Z).
Proof. intros H. unfold pow10. destruct (Z.leb_spec 0 e); [reflexivity | lia]. Qed.

Lemma readsBack_whole N s j :
  (0 <= N < 2 ^ 53)%Z -> (0 <= s)%Z -> (0 <= j)%Z ->
  readsBack (N * unitsInOne) s j = (s * 10 ^ j =? N)%Z.
Proof.
  intros HN Hs Hj. unfold readsBack. rewrite pow10_nonneg by exact Hj.
  pose proof unitsInOne_pos as HU.
  assert (H10 : (0 < 10 ^ j)%Z) by (apply Z.pow_pos_nonneg; lia).
  set (M := (s * 10 ^ j)%Z).
  assert (HM : (0 <= M)%Z) by (unfold M; apply Z.mul_nonneg_nonneg; lia).
  destruct (Z.lt_ge_cases M (2 ^ 53)) as [Hlt | Hge].
  - rewrite nearestDouble_exact by lia.
    destruct (Z.eqb_spec M N) as [-> | Hne]; [apply Z.eqb_refl |].
    apply Z.eqb_neq. intros E. apply Hne.
    apply Z.mul_cancel_r in E; [exact E | lia].
  - replace (M =? N)%Z with false by (symmetry; apply Z.eqb_neq; lia).
    destruct (nearestDouble (M * unitsInOne) 1) as [v |] eqn:E; [| reflexivity].
    apply nearestDouble_large in E; [| exact Hge].
    apply Z.eqb_neq.
    assert (N * unitsInOne < 2 ^ 53 * unitsInOne)%Z
      by (apply Z.mul_lt_mono_pos_r; lia).
    lia.
Qed.

Lemma below10_whole N n :
  (0 <= n)%Z -> below10 (N * unitsInOne) n = (N <? 10 ^ n)%Z.
Proof.
  intros Hn. unfold below10. rewrite pow10_nonneg by exact Hn.
  rewrite Z.mul_1_r. pose proof unitsInOne_pos as HU.
  destruct (Z.ltb_spec N (10 ^ n)) as [H | H].
  - apply Z.ltb_lt. apply Z.mul_lt_mono_pos_r; lia.
  - apply Z.ltb_ge. apply Z.mul_le_mono_nonneg_r; lia.
Qed.

Lemma exponentUp_whole N : forall fuel n,
  (1 <= n)%Z -> (10 ^ (n - 1) <= N)%Z -> (N < 10 ^ (n - 1 + Z.of_nat fuel))%Z ->
  let r := exponentUp fuel n (N * unitsInOne) in
  (n <= r)%Z /\ (10 ^ (r - 1) <= N < 10 ^ r)%Z.
Proof.
  induction fuel as [| fuel IH]; intros n Hn Hlo Hhi.
  - rewrite Z.add_0_r in Hhi. lia.
  - cbn [exponentUp]. rewrite below10_whole by lia.
    destruct (Z.ltb_spec N (10 ^ n)) as [H | H].
    + cbv zeta. lia.
    + destruct (IH (n + 1)%Z) as [H1 H2].
      * lia.
      * replace (n + 1 - 1)%Z with n by lia. exact H.
      * replace (n + 1 - 1 + Z.of_nat fuel)%Z with (n - 1 + Z.of_nat (S fuel))%Z by lia.
        exact Hhi.
      * cbv zeta in *. lia.
Qed.

Lemma digitsAt_whole N n k :
  (0 < N < 2 ^ 53)%Z -> (1 <= k <= n)%Z ->
  digitsAt (N * unitsInOne) n k =
  if (N mod 10 ^ (n - k) =? 0)%Z then Some (N / 10 ^ (n - k))%Z else None.
Proof.
  intros HN Hk. unfold digitsAt. rewrite pow10_nonneg by lia.
  pose proof unitsInOne_pos as HU.
  set (t := (10 ^ (n - k))%Z).
  assert (Ht : (0 < t)%Z) by (apply Z.pow_pos_nonneg; lia).
  rewrite Z.mul_1_r, Z.div_mul_cancel_r by lia.
  pose proof (Z.div_mod N t ltac:(lia)) as Hdm.
  pose proof (Z.mod_pos_bound N t Ht) as Hmod.
  assert (Hq : (0 <= N / t)%Z) by (apply Z.div_pos; lia).
  rewrite !readsBack_whole by lia. fold t.
  replace ((N / t + 1) * t =? N)%Z with false by (symmetry; apply Z.eqb_neq; lia).
  rewrite andb_false_r.
  destruct (Z.eqb_spec (N mod t) 0) as [E | E].
  - replace (N / t * t =? N)%Z with true by (symmetry; apply Z.eqb_eq; lia).
    reflexivity.
  - replace (N / t * t =? N)%Z with false by (symmetry; apply Z.eqb_neq; lia).
    reflexivity.
Qed.

Lemma shortestDigits_whole N n : forall (j : nat) fuel k,
  (0 < N < 2 ^ 53)%Z -> (N < 10 ^ n)%Z ->
  (1 <= k)%Z -> (k = n - Z.of_nat j)%Z -> j < fuel ->
  exists s k',
    shortestDigits fuel k (N * unitsInOne) n = Some (s, k') /\
    (1 <= k' <= n)%Z /\ (0 < s < 10 ^ k')%Z /\ (s * 10 ^ (n - k') = N)%Z.
Proof.
  induction j as [| j IH]; intros fuel k HN Hn Hk Hj Hf;
    (destruct fuel as [| fuel]; [lia |]);
    cbn [shortestDigits]; rewrite digitsAt_whole by lia.
  - replace (n - k)%Z with 0%Z by lia. rewrite Z.pow_0_r, Z.mod_1_r, Z.div_1_r.
    cbn [Z.eqb]. exists N, k. split; [reflexivity |].
    replace (n - k)%Z with 0%Z by lia. rewrite Z.pow_0_r.
    replace k with n by lia. lia.
  - set (t := (10 ^ (n - k))%Z).
    assert (Ht : (0 < t)%Z) by (apply Z.pow_pos_nonneg; lia).
    destruct (Z.eqb_spec (N mod t) 0) as [E | E].
    + exists (N / t)%Z, k. split; [reflexivity |].
      pose proof (Z.div_mod N t ltac:(lia)) as Hdm.
      split; [lia |]. split; [| fold t; lia].
      split.
      * apply Z.div_str_pos. split; [exact Ht |].
        destruct (Z.le_gt_cases t N); [assumption |].
        rewrite Z.mod_small in E by lia. lia.
      * apply Z.div_lt_upper_bound; [exact Ht |].
        unfold t. rewrite <- Z.pow_add_r by lia.
        replace (n - k + k)%Z with n by lia. exact Hn.
    + apply (IH fuel (k + 1)%Z); try assumption; lia.
Qed.

Lemma positiveToString_whole m :
  0 < m -> (Z.of_nat m < 2 ^ 53)%Z ->
  positiveToString (Z.of_nat m * unitsInOne) = natToString m.
Proof.
  intros Hm Hlt. unfold positiveToString, decimalExponent.
  set (N := Z.of_nat m) in *.
  assert (HN : (0 < N < 2 ^ 53)%Z) by (unfold N in *; lia).
  pose proof unitsInOne_pos as HU.
  assert (H16 : (2 ^ 53 < 10 ^ 16)%Z) by reflexivity.
  destruct (Z.leb_spec unitsInOne (N * unitsInOne)) as [_ | H]; [| nia].
  destruct (exponentUp_whole N 309 1) as [Hr1 Hr2].
  { lia. }
  { change (10 ^ (1 - 1))%Z with 1%Z. lia. }
  { apply Z.lt_trans with (10 ^ 16)%Z; [lia |]. apply Z.pow_lt_mono_r; lia. }
  set (r := exponentUp 309 1 (N * unitsInOne)) in *.
  assert (Hr16 : (r - 1 < 16)%Z).
  { apply (Z.pow_lt_mono_r_iff 10); lia. }
  destruct (shortestDigits_whole N r (Z.to_nat (r - 1)) 17 1)
    as (s & k & -> & Hk & Hs & E); try lia.
  destruct (Z.eqb_spec s (10 ^ k)) as [Hsk | _]; [lia |].
  unfold formatNumber.
  destruct (Z.leb_spec k r) as [_ | H]; [| lia].
  destruct (Z.leb_spec r 21) as [_ | H]; [| lia].
  cbn [andb].
  rewrite <- (Z2Nat.id s) by lia. rewrite digitsOf_nat.
  rewrite <- natToString_zeros by lia.
  f_equal. apply Nat2Z.inj. fold N. rewrite <- E.
  rewrite Nat2Z.inj_mul, Nat2Z.inj_pow, !Z2Nat.id by lia. reflexivity.
Qed.

Lemma numberToString_whole m :
  (Z.of_nat m < 2 ^ 53)%Z ->
  numberToString (Finite (Z.of_nat m * unitsInOne)) = natToString m.
Proof.
  intros Hlt. destruct m as [| m]; [reflexivity |].
  unfold numberToString. pose proof unitsInOne_pos as HU.
  destruct (Z.eqb_spec (Z.of_nat (S m) * unitsInOne) 0) as [H | _]; [nia |].
  destruct (Z.ltb_spec (Z.of_nat (S m) * unitsInOne) 0) as [H | _]; [nia |].
  apply positiveToString_whole; [lia | exact Hlt].
Qed.

Lemma indexNumber_whole index :
  (Z.of_nat index < 2 ^ 53)%Z ->
  indexNumber index = Finite (Z.of_nat index * unitsInOne).
Proof.
  intros H. unfold indexNumber, toDouble. now rewrite nearestDouble_exact by lia.
Qed.

Lemma addNumbers_whole a b :
  (Z.of_nat (a + b) < 2 ^ 53)%Z ->
  addNumbers (Finite (Z.of_nat a * unitsInOne)) (Finite (Z.of_nat b * unitsInOne))
  = Finite (Z.of_nat (a + b) * unitsInOne).
Proof.
  intros H. unfold addNumbers. pose proof unitsInOne_pos as HU.
  rewrite <- Z.mul_add_distr_r, <- Nat2Z.inj_add.
  set (N := Z.of_nat (a + b)) in *.
  assert (HN : (0 <= N)%Z) by (unfold N; lia).
  destruct (Z.eqb_spec (N * unitsInOne) 0) as [E | E].
  - now rewrite E.
  - destruct (Z.ltb_spec (N * unitsInOne) 0) as [Hneg | _]; [nia |].
    rewrite Z.abs_eq by nia. unfold toDouble.
    now rewrite nearestDouble_exact by lia.
Qed.

(** ** Reading a decimal numeral *)

Lemma digit_cases c :
  isDigit c = true ->
  In c ["0"; "1"; "2"; "3"; "4"; "5"; "6"; "7"; "8"; "9"]%char.
Proof.
  destruct c as [[] [] [] [] [] [] [] []]; intros H; try discriminate H;
    cbn [In]; tauto.
Qed.

Lemma digit_is_not c x : isDigit c = true -> isDigit x = false -> Ascii.eqb c x = false.
Proof.
  intros Hc Hx. destruct (Ascii.eqb_spec c x) as [-> | _]; [congruence | reflexivity].
Qed.

Lemma digit_not_space c : isDigit c = true -> isWhiteSpace c = false.
Proof.
  intros H. apply digit_cases in H. cbn [In] in H.
  repeat (destruct H as [<- | H]; [reflexivity |]). destruct H.
Qed.

Lemma allChars_last p s :
  allChars p s = true ->
  match lastChar s with Some c => p c = true | None => True end.
Proof.
  induction s as [| c r IH]; [exact (fun _ => I) |].
  cbn [allChars lastChar]. intros H. apply andb_true_iff in H. destruct H as [Hc H].
  destruct r; [exact Hc | exact (IH H)].
Qed.

Lemma digits_trimmed s : allChars isDigit s = true -> trim s = s.
Proof.
  intros H. apply trim_fixed. unfold isTrimmed.
  pose proof (allChars_last _ _ H) as Hl.
  destruct s as [| c r]; [reflexivity |].
  cbn [firstChar]. cbn [allChars] in H. apply andb_true_iff in H. destruct H as [Hc _].
  rewrite (digit_not_space c Hc). cbn [negb andb].
  destruct (lastChar (String c r)) as [d |]; [| reflexivity].
  now rewrite (digit_not_space d Hl).
Qed.

Lemma takeWhile_all p s : allChars p s = true -> takeWhile p s = s.
Proof.
  induction s as [| c r IH]; [reflexivity |]. cbn [allChars takeWhile].
  intros H. apply andb_true_iff in H. destruct H as [Hc H]. now rewrite Hc, IH.
Qed.

Lemma dropWhile_all p s : allChars p s = true -> dropWhile p s = "".
Proof.
  induction s as [| c r IH]; [reflexivity |]. cbn [allChars dropWhile].
  intros H. apply andb_true_iff in H. destruct H as [Hc H]. now rewrite Hc, IH.
Qed.

Lemma toNumber_digits s m :
  isEmpty s = false -> allChars isDigit s = true ->
  digitsValue 10 0 s = Some m -> (0 <= m < 2 ^ 53)%Z ->
  toNumber s = Finite (m * unitsInOne).
Proof.
  intros Hne Hd Hv Hm. unfold toNumber. rewrite (digits_trimmed s Hd).
  assert (Hdec : decimalLiteral false s = Finite (m * unitsInOne)).
  { unfold decimalLiteral.
    rewrite (takeWhile_all _ _ Hd), (dropWhile_all _ _ Hd). cbn [startsWith].
    rewrite Hne. cbn [andb]. rewrite append_empty_r, Hv. cbn [exponentPart String.length].
    destruct s as [| c r]; [discriminate Hne |].
    cbn [allChars] in Hd. apply andb_true_iff in Hd. destruct Hd as [Hc _].
    cbn [String.eqb]. rewrite (digit_is_not c "I" Hc eq_refl).
    change (0 - Z.of_nat 0)%Z with 0%Z. cbn [Z.leb Z.compare].
    rewrite Z.pow_0_r, Z.mul_1_r. unfold toDouble.
    now rewrite nearestDouble_exact by exact Hm. }
  destruct s as [| c r]; [discriminate Hne |].
  cbn [allChars] in Hd. apply andb_true_iff in Hd. destruct Hd as [Hc Hr].
  assert (Hrad : nonDecimalRadix (String c r) = None).
  { destruct r as [| c2 r2].
    - destruct c as [[] [] [] [] [] [] [] []]; reflexivity.
    - cbn [allChars] in Hr. apply andb_true_iff in Hr. destruct Hr as [Hc2 _].
      unfold nonDecimalRadix.
      rewrite (digit_is_not c2 "x" Hc2 eq_refl), (digit_is_not c2 "X" Hc2 eq_refl),
        (digit_is_not c2 "o" Hc2 eq_refl), (digit_is_not c2 "O" Hc2 eq_refl),
        (digit_is_not c2 "b" Hc2 eq_refl), (digit_is_not c2 "B" Hc2 eq_refl).
      destruct c as [[] [] [] [] [] [] [] []]; reflexivity. }
  rewrite Hrad, Hdec.
  apply digit_cases in Hc. cbn [In] in Hc.
  repeat (destruct Hc as [<- | Hc]; [reflexivity |]). destruct Hc.
Qed.

Lemma natToString_nonempty v : isEmpty (natToString v) = false.
Proof.
  pose proof (digitsOf_nat v) as H. unfold digitsOf in H. rewrite <- H.
  destruct (Z.to_N (Z.of_nat v)) as [| p]; [reflexivity |].
  cbn [N.to_uint]. pose proof (DecimalPos.Unsigned.to_uint_nonnil p) as Hn.
  destruct (Pos.to_uint p); [contradiction | reflexivity ..].
Qed.

Lemma toNumber_natToString v :
  (Z.of_nat v < 2 ^ 53)%Z -> toNumber (natToString v) = Finite (Z.of_nat v * unitsInOne).
Proof.
  intros H. apply toNumber_digits.
  - apply natToString_nonempty.
  - apply uint_digits.
  - apply digitsValue_natToString.
  - lia.
Qed.

Lemma numberPlusIndex_numeral v index :
  (Z.of_nat (v + index) < 2 ^ 53)%Z ->
  numberPlusIndex (natToString v) index = natToString (v + index).
Proof.
  intros H. unfold numberPlusIndex.
  rewrite toNumber_natToString, indexNumber_whole by lia.
  rewrite addNumbers_whole by exact H.
  now apply numberToString_whole.
Qed.

(** ** The marker of a list item *)

Lemma itemPrefix_cases (f : string -> nat -> string) (pl : place) :
  itemPrefix f pl =
    match ancestors pl with
    | [] => "- "
    | (ptag, pattrs) :: _ =>
        if String.eqb ptag "ol" then
          match getAttribute "start" pattrs with
          | None => natToString (1 + elementIndex pl) ++ ". "
          | Some start =>
              if isEmpty start then natToString (1 + elementIndex pl) ++ ". "
              else f start (elementIndex pl) ++ ". "
          end
        else "- "
    end.
Proof.
  unfold itemPrefix. destruct (ancestors pl) as [| [ptag pattrs] anc]; [reflexivity |].
  rewrite Nat.add_comm. reflexivity.
Qed.

Lemma ordered_items (f : string -> nat -> string) (opts : options) :
  mapChildren (render f opts) [("ol", [])] 0
              [textItem "a"; Text " "; textItem "b"; textItem "c"] =
  Some ("1. a" ++ nl ++ " 2. b" ++ nl ++ "3. c") /\
  mapChildren (render f opts) [("ol", [("start", "5")])] 0
              [textItem "a"; Text " "; textItem "b"; textItem "c"] =
  Some (((f "5" 0 ++ ". ") ++ "a" ++ nl) ++ " "
        ++ ((f "5" 1 ++ ". ") ++ "b" ++ nl) ++ ((f "5" 2 ++ ". ") ++ "c") ++ "").
Proof.
  destruct opts as [[|] [|]]; split; vm_compute; reflexivity.
Qed.

Lemma first_item (f : string -> nat -> string) :
  render f plain (inList "ol" [] 0 false) (textItem "a") = Some "1. a" /\
  render f plain (inList "ol" [("start", "5")] 0 false) (textItem "a")
  = Some ((f "5" 0 ++ ". ") ++ "a") /\
  render f plain (inList "ul" [] 0 false) emptyTaskItem = Some "".
Proof. repeat split; vm_compute; reflexivity. Qed.

Lemma numeral_five index :
  index < 100 -> numberPlusIndex "5" index = natToString (5 + index).
Proof.
  intros H. apply (numberPlusIndex_numeral 5 index).
  apply Z.lt_trans with 1000%Z; [lia | reflexivity].
Qed.

(** C4 (as amended). The marker of a list item is [- ] unless its parent
    is an ordered list; under an ordered list it is a number and [. ], the
    number being the text of [Number(start) + index] for a non-empty
    [start] attribute and [1 + index] otherwise, where [index] counts the
    element siblings before the item (0 for the first child): that is the
    index at which the children of the parent are walked.  For a [start]
    written as the decimal numeral of [v] the number is the numeral of
    [v + index] as long as that is below 2^53; the other spellings that
    [Number] reads (a sign, white space around, a fraction, an exponent,
    a radix prefix, an infinity), what it does not read, and the values
    that are rounded or written with an exponent are shown on examples. *)
Theorem list_item_marker (opts : options) (pl : place)
        (a : attributes) (c : bool) (kids : list node) :
  isBlank (Elem "li" a c kids) = false ->
  (exists rest,
     render numberPlusIndex opts pl (Elem "li" a c kids)
     = Some (itemPrefix numberPlusIndex pl ++ rest)) /\
  itemPrefix numberPlusIndex pl =
    match ancestors pl with
    | [] => "- "
    | (ptag, pattrs) :: _ =>
        if String.eqb ptag "ol" then
          match getAttribute "start" pattrs with
          | None => natToString (1 + elementIndex pl) ++ ". "
          | Some start =>
              if isEmpty start then natToString (1 + elementIndex pl) ++ ". "
              else numberToString
                     (addNumbers (toNumber start) (indexNumber (elementIndex pl)))
                   ++ ". "
          end
        else "- "
    end /\
  (forall ptag pattrs, String.eqb ptag "ol" = false ->
     itemPrefix numberPlusIndex
                (inList ptag pattrs (elementIndex pl) (hasNextSibling pl))
     = "- ") /\
  (forall ptag pattrs before after content,
     mapChildren (render numberPlusIndex opts) ((ptag, pattrs) :: ancestors pl) 0
                 (before ++ Elem "li" a c kids :: after) = Some content ->
     exists front rest back,
       content =
       front ++ (itemPrefix numberPlusIndex
                   (inList ptag pattrs (List.length (filter isElement before))
                           (negb (isEmptyList after)))
                 ++ rest) ++ back) /\
  (forall (v index : nat) pattrs next,
     (Z.of_nat (v + index) < 2 ^ 53)%Z ->
     itemPrefix numberPlusIndex
                (inList "ol" (("start", natToString v) :: pattrs) index next)
     = natToString (v + index) ++ ". ") /\
  mapChildren (render numberPlusIndex opts) [("ol", [])] 0
              [textItem "a"; Text " "; textItem "b"; textItem "c"]
  = Some ("1. a" ++ nl ++ " 2. b" ++ nl ++ "3. c") /\
  mapChildren (render numberPlusIndex opts) [("ol", [("start", "5")])] 0
              [textItem "a"; Text " "; textItem "b"; textItem "c"]
  = Some ("5. a" ++ nl ++ " 6. b" ++ nl ++ "7. c") /\
  map (fun p => itemPrefix numberPlusIndex
                           (inList "ol" [("start", fst p)] (snd p) false))
      [("-3", 1); (" 5 ", 1); ("2.5", 1); ("1e2", 1); ("0x10", 1); ("0b101", 1);
       ("0o17", 1); ("abc", 1); ("5 5", 1); ("-0", 1); ("-0.75", 1);
       ("Infinity", 1); ("-Infinity", 1); ("9007199254740992", 1);
       ("9007199254740993", 0); ("9007199254740995", 0); ("1e21", 0);
       ("1.5e22", 1); ("1e23", 0); ("1e-7", 0); ("1e309", 0); ("-1e-400", 0)]
  = ["-2. "; "6. "; "3.5. "; "101. "; "17. "; "6. ";
     "16. "; "NaN. "; "NaN. "; "1. "; "0.25. ";
     "Infinity. "; "-Infinity. "; "9007199254740992. ";
     "9007199254740992. "; "9007199254740996. "; "1e+21. ";
     "1.5e+22. "; "1e+23. "; "1e-7. "; "Infinity. "; "0. "].
Proof.
  intros Hb.
  split.
  { destruct (render_li numberPlusIndex opts pl a c kids Hb) as (lc & _ & Hr).
    rewrite Hr. unfold renderListItem. eauto. }
  split; [apply (itemPrefix_cases numberPlusIndex) |].
  split.
  { intros ptag pattrs H. unfold itemPrefix, inList. cbn [ancestors]. now rewrite H. }
  split.
  { intros ptag pattrs before after content H.
    destruct (mapChildren_at _ _ _ _ _ _ _ H) as (front & item & back & Hitem & ->).
    cbn [Nat.add] in Hitem.
    match type of Hitem with
    | render _ _ ?q _ = _ =>
        destruct (render_li numberPlusIndex opts q a c kids Hb) as (lc & _ & Hr)
    end.
    rewrite Hr in Hitem. inversion Hitem; subst. unfold renderListItem.
    exists front. eexists. exists back. reflexivity. }
  split.
  { intros v index pattrs next H.
    rewrite itemPrefix_cases.
    cbn [inList ancestors elementIndex String.eqb Ascii.eqb Bool.eqb getAttribute].
    rewrite natToString_nonempty. now rewrite numberPlusIndex_numeral. }
  destruct (ordered_items numberPlusIndex opts) as [H1 H2].
  split; [exact H1 |].
  split.
  { rewrite H2, !numeral_five by lia. reflexivity. }
  vm_compute. reflexivity.
Qed.

Lemma list_item_marker_witness :
  (exists rest,
     render numberPlusIndex plain (inList "ol" [("start", "5")] 2 false)
            (textItem "c")
     = Some (itemPrefix numberPlusIndex (inList "ol" [("start", "5")] 2 false)
             ++ rest)) /\
  itemPrefix numberPlusIndex (inList "ol" [("start", "5")] 2 false) = "7. ".
Proof.
  destruct (list_item_marker plain
              (inList "ol" [("start", "5")] 2 false) [] false [Text "c"] eq_refl)
    as (H1 & _ & _ & _ & H5 & _).
  split; [exact H1 | exact (H5 5 2 [] false eq_refl)].
Defined.

(** C4 fails on the first item of an ordered list: it is numbered with
    [start] itself (1 by default), not with [start] plus one; and a blank
    item gets no marker at all. *)
Lemma first_ordered_item_is_numbered_from_start :
  render numberPlusIndex plain (inList "ol" [] 0 false) (textItem "a")
  = Some "1. a" /\
  markerAsClaimed 1 1 ++ "a" = "2. a" /\
  render numberPlusIndex plain (inList "ol" [] 0 false) (textItem "a")
  <> Some (markerAsClaimed 1 1 ++ "a") /\
  render numberPlusIndex plain (inList "ol" [("start", "5")] 0 false) (textItem "a")
  = Some "5. a" /\
  render numberPlusIndex plain (inList "ol" [("start", "5")] 0 false) (textItem "a")
  <> Some (markerAsClaimed 5 1 ++ "a") /\
  render numberPlusIndex plain (inList "ul" [] 0 false) emptyTaskItem = Some "".
Proof.
  destruct (first_item numberPlusIndex) as (H1 & H2 & H3).
  rewrite numeral_five in H2 by lia.
  rewrite H1, H2, H3. repeat split; intros H; discriminate H.
Qed.

(** ** The further properties at concrete trees *)

Lemma escapeMarkdown_plain_witness :
  escapeMarkdown "Hello world 42" = "Hello world 42".
Proof.
  exact (escapeMarkdown_plain "Hello world 42" eq_refl eq_refl).
Defined.

Lemma list_item_line_end_witness :
  exists liContent,
    mapChildren (render numberPlusIndex plain) [("li", [])] 0
                (children (cloneWithout isCheckbox nestedItem)) = Some liContent /\
    endsWithNewline (indentContinuation (trimItemNewlines liContent)) = false /\
    render numberPlusIndex plain (inList "ul" [] 1 true) nestedItem =
    Some ("- " ++ "" ++ indentContinuation (trimItemNewlines liContent) ++ nl).
Proof.
  destruct (list_item_line_end numberPlusIndex plain (inList "ul" [] 1 true)
              [] false [Text "two"; el "ul" [] [textItem "x"]] eq_refl)
    as (liContent & Hc & He & _ & Hr).
  exists liContent. split; [exact Hc |]. split; [exact He | exact Hr].
Defined.

Lemma blockquote_lines_witness :
  exists childContent body,
    mapChildren (render numberPlusIndex (childOptions "blockquote" plain))
                [("blockquote", [])] 0 (children quoteBlock) = Some childContent /\
    render numberPlusIndex plain detached quoteBlock = Some (body ++ nl ++ nl) /\
    split LF body = map (fun line => "> " ++ line) (split LF (trim childContent)).
Proof.
  exact (blockquote_lines numberPlusIndex plain detached [] false
           [el "p" [] [Text "q1"]; el "p" [] [Text "q2"]] eq_refl).
Defined.

Lemma list_lines_witness :
  exists childContent body,
    mapChildren (render numberPlusIndex (childOptions "ul" plain))
                [("ul", []); ("li", [])] 0 (children nestedList) = Some childContent /\
    split LF body = map (fun line => "  " ++ line) (split LF (trim childContent)) /\
    render numberPlusIndex plain (inList "li" [] 0 false) nestedList =
    Some (if isEmpty (trim childContent) then "" else nl ++ body ++ nl).
Proof.
  exact (list_lines numberPlusIndex plain (inList "li" [] 0 false) "ul" [] false
           [textItem "x"; textItem "y"] eq_refl eq_refl).
Defined.

Lemma unknown_tag_passes_through_witness :
  render numberPlusIndex plain detached wrapper =
  mapChildren (render numberPlusIndex plain) [("div", [])] 0 (children wrapper).
Proof.
  exact (unknown_tag_passes_through numberPlusIndex plain detached "div" [] false
           [Text "a"; el "span" [] [Text "b"]] eq_refl eq_refl).
Defined.

Lemma pre_text_is_collapsed_witness :
  render numberPlusIndex plain detached preText =
  Some ("```" ++ nl ++ "a \*b\* c" ++ nl ++ "```" ++ nl ++ nl).
Proof.
  exact (pre_text_is_collapsed numberPlusIndex plain detached [] false
           ("a  *b*" ++ nl ++ "c") eq_refl).
Defined.

Lemma link_without_target_witness :
  render numberPlusIndex plain detached bareLink =
  mapChildren (render numberPlusIndex plain) [("a", [("href", "")])] 0
              (children bareLink).
Proof.
  exact (link_without_target numberPlusIndex plain detached [("href", "")] false
           [Text "here"] eq_refl (or_intror eq_refl)).
Defined.

Lemma removeAll_leaves_none_witness :
  removeAll unwanted (Elem "div" [] false ([Text "a"] ++ copyButton :: [Text "b"])) =
  removeAll unwanted (Elem "div" [] false ([Text "a"] ++ [Text "b"])).
Proof.
  destruct (removeAll_leaves_none ["script"; "style"; "svg"; "button"] (Text "a"))
    as (_ & _ & _ & H).
  exact (H "div" [] false [Text "a"] copyButton [Text "b"] eq_refl).
Defined.

Lemma htmlToMarkdown_clean_witness :
  htmlToMarkdown numberPlusIndex
    (Some (Elem "div" [] false ([Text "a"] ++ copyButton :: [Text "b"]))) plain =
  htmlToMarkdown numberPlusIndex
    (Some (Elem "div" [] false ([Text "a"] ++ [Text "b"]))) plain.
Proof.
  destruct (htmlToMarkdown_clean numberPlusIndex plain) as (_ & _ & _ & H & _).
  exact (H "div" [] false [Text "a"] copyButton [Text "b"] eq_refl).
Defined.

Lemma conversationTitle_stripped_witness :
  conversationTitleOf titledDocument = "Plans".
Proof.
  destruct (conversationTitle_stripped titledDocument
              (el "title" [] [Text "Plans | ChatGPT"]) "Plans" eq_refl eq_refl)
    as [H _].
  exact (H eq_refl).
Defined.
